(** * tap-appstore: the incremental sync of daily sales reports

    A shallow embedding of [tap_appstore/__init__.py]: the tab-separated
    report parser [tsv_to_list], the bookmark lookup [get_bookmark], the
    day-by-day loop of [query_report] driven by [sync], the helpers of the
    class [Context], and the discovery of the catalog from the schemas
    folder by [load_schemas] and [discover], up to the two modes of [main].

    Conventions of the embedding.
    - Python [str] is [string], a character being a code point below 256;
      the helpers of [PyStr] follow [str.split], [str.lower], [str.replace]
      and [str.strip] on such text.  Text with other code points is outside
      the embedding.
    - Python [dict] is stdpp's [gmap]; assignment [d[k] = v] is [<[k:=v]> d].
    - The class [Context], whose attributes the program mutates in place, is
      a record threaded through every function; a raised exception leaves the
      mutations made so far in place, so a computation has type
      [Context -> (exn + A) * Context].
    - Calls into the [singer] library and into the vendor [api] are recorded,
      in call order, in the [log] of the context. *)

From Equations Require Import Equations.
From stdpp Require Import gmap strings list.
From Stdlib Require Import ZArith Ascii.

Open Scope Z_scope.

(** ** Python strings *)

Module PyStr.

(** [s.split(sep)] for a one-character separator: never empty, and a
    separator at either end yields an empty piece there. *)
Fixpoint split (sep : ascii) (s : string) : list string :=
  match s with
  | EmptyString => [EmptyString]
  | String c s' =>
      if Ascii.eqb c sep then EmptyString :: split sep s'
      else match split sep s' with
           | w :: ws => String c w :: ws
           | [] => [String c EmptyString]
           end
  end.

(** [sep.join(pieces)], the inverse of [split]. *)
Fixpoint join (sep : ascii) (pieces : list string) : string :=
  match pieces with
  | [] => EmptyString
  | [w] => w
  | w :: ws => w +:+ String sep (join sep ws)
  end.

Definition map_chars (f : ascii -> ascii) : string -> string :=
  fix go (s : string) : string :=
    match s with
    | EmptyString => EmptyString
    | String c s' => String (f c) (go s')
    end.

(** The capital letters among the code points below 256, [A] to [Z] and
    those from U+00C0 to U+00DE but the multiplication sign, have their small
    letter 32 places after them. *)
Definition lower_char (c : ascii) : ascii :=
  let n := nat_of_ascii c in
  if (((65 <=? n) && (n <=? 90)) ||
      ((192 <=? n) && (n <=? 222) && negb (n =? 215)))%nat
  then ascii_of_nat (n + 32) else c.

(** [s.lower()] *)
Definition lower : string -> string := map_chars lower_char.

(** [s.replace(a, b)] for one-character [a] and [b]. *)
Definition replace (a b : ascii) : string -> string :=
  map_chars (fun c => if Ascii.eqb c a then b else c).

(** The code points below 256 for which [str.isspace] holds: tab, line
    feed, vertical tab, form feed, carriage return, the four separators
    0x1c..0x1f, the space, the next-line control U+0085 and the no-break
    space U+00A0. *)
Definition is_space (c : ascii) : bool :=
  let n := nat_of_ascii c in
  (((9 <=? n) && (n <=? 13)) || ((28 <=? n) && (n <=? 32)) ||
   (n =? 133) || (n =? 160))%nat.

Fixpoint lstrip (s : string) : string :=
  match s with
  | EmptyString => EmptyString
  | String c s' => if is_space c then lstrip s' else s
  end.

Fixpoint rstrip (s : string) : string :=
  match s with
  | EmptyString => EmptyString
  | String c s' =>
      match rstrip s' with
      | EmptyString => if is_space c then EmptyString else String c EmptyString
      | t => String c t
      end
  end.

(** [s.strip()] *)
Definition strip (s : string) : string := rstrip (lstrip s).

(** [enumerate(l, start)] *)
Fixpoint enumerate {A} (start : nat) (l : list A) : list (nat * A) :=
  match l with
  | [] => []
  | x :: l' => (start, x) :: enumerate (S start) l'
  end.

(** [s.replace(old, new)] for a non-empty [old]: the occurrences of [old]
    are replaced from the left, none overlapping another; [skip] counts the
    characters of an occurrence still to pass. *)
Fixpoint replace_from (old new : string) (skip : nat) (s : string) : string :=
  match s with
  | EmptyString => EmptyString
  | String c s' =>
      match skip with
      | S k => replace_from old new k s'
      | O =>
          if String.prefix old s
          then new +:+ replace_from old new (String.length old - 1) s'
          else String c (replace_from old new 0 s')
      end
  end.

Definition replace_str (old new : string) (s : string) : string :=
  replace_from old new 0 s.

End PyStr.

(** ** Records *)

(** A field of a raw record is a string cut out of the report; [line_id] is
    the one integer field. *)
Inductive value :=
| VStr (s : string)
| VInt (n : Z).

#[global] Instance value_eq_dec : EqDecision value.
Proof. solve_decision. Defined.

Abbreviation record := (gmap string value).

(** ** The tabular text parser

    [tsv_to_list], lines 108-123 of [tap_appstore/__init__.py].  Its
    parameter [column_name_modifier] is never read. *)

Definition tab : ascii := "009"%char.
Definition newline : ascii := "010"%char.

(** [[s.lower().replace(' ', '_') for s in lines[0].split('\t')]] *)
Definition header_of (line0 : string) : list string :=
  map (fun s => PyStr.replace " "%char "_"%char (PyStr.lower s)) (PyStr.split tab line0).

(** The inner loop of [tsv_to_list]:
    [for i, column in enumerate(header): if i < len(line_cols): ...]. *)
Fixpoint fill_line (line_cols : list string) (cols : list (nat * string))
    (line_obj : record) : record :=
  match cols with
  | [] => line_obj
  | (i, column) :: rest =>
      fill_line line_cols rest
        (if bool_decide (i < length line_cols)%nat
         then <[column := VStr (PyStr.strip (default "" (line_cols !! i)))]> line_obj
         else line_obj)
  end.

Definition line_to_obj (header : list string) (line : string) : record :=
  fill_line (PyStr.split tab line) (PyStr.enumerate 0 header) ∅.

(** The outer loop: [for line in lines[1:]], skipping lines of length 0. *)
Fixpoint parse_lines (header : list string) (lines : list string) : list record :=
  match lines with
  | [] => []
  | line :: rest =>
      if bool_decide (String.length line = 0%nat) then parse_lines header rest
      else line_to_obj header line :: parse_lines header rest
  end.

Definition tsv_to_list (tsv : string) : list record :=
  let lines := PyStr.split newline tsv in
  let header := header_of (hd "" lines) in
  parse_lines header (tl lines).

(** *** The specification's words for the parser

    Lower-casing, the underscore for a space and the trimming of white
    space, said of the characters themselves and without the helpers of
    [PyStr], to compare what the parser returns with. *)

(** The code points below 256 that are white space. *)
Definition white_space : list ascii :=
  ["009"; "010"; "011"; "012"; "013"; "028"; "029"; "030"; "031"; " ";
   "133"; "160"]%char.

(** [c] is what the character [r] of a column name becomes in the key: the
    underscore for a space, the small letter for a capital letter, [r]
    itself otherwise. *)
Definition key_char (r c : ascii) : bool :=
  let n := nat_of_ascii r in
  if Ascii.eqb r " " then Ascii.eqb c "_"
  else if (((65 <=? n) && (n <=? 90)) ||
           ((192 <=? n) && (n <=? 222) && negb (n =? 215)))%nat
       then (nat_of_ascii c =? n + 32)%nat
       else Ascii.eqb c r.

(** [name] is the key of the column name [raw], character by character. *)
Definition key_of (raw name : string) : Prop :=
  Forall2 (fun r c => key_char r c = true)
    (String.list_ascii_of_string raw) (String.list_ascii_of_string name).

(** [v] is [col] without the white space at its two ends. *)
Definition trimmed (col v : string) : Prop :=
  exists pre post,
    col = pre +:+ v +:+ post /\
    Forall (fun c => c ∈ white_space) (String.list_ascii_of_string pre) /\
    Forall (fun c => c ∈ white_space) (String.list_ascii_of_string post) /\
    (forall c, head (String.list_ascii_of_string v) = Some c -> c ∉ white_space) /\
    (forall c, last (String.list_ascii_of_string v) = Some c -> c ∉ white_space).

(** ** Dates and times

    The parts of Python's [datetime] module the program uses.  A [datetime]
    value is kept as its proleptic Gregorian ordinal (what [toordinal]
    returns; 0001-01-01 is day 1) and its time of day, which is how
    [datetime.__add__] computes.  [ymd2ord] and [ord2ymd] follow the helpers
    of the same names in [datetime.py]. *)

Module datetime.

Definition is_leap (year : Z) : bool :=
  (year mod 4 =? 0) && (negb (year mod 100 =? 0) || (year mod 400 =? 0)).

Definition days_before_year (year : Z) : Z :=
  let y := year - 1 in y * 365 + y / 4 - y / 100 + y / 400.

Definition DAYS_IN_MONTH (month : Z) : Z :=
  match month with
  | 1 => 31 | 2 => 28 | 3 => 31 | 4 => 30 | 5 => 31 | 6 => 30
  | 7 => 31 | 8 => 31 | 9 => 30 | 10 => 31 | 11 => 30 | 12 => 31
  | _ => -1
  end.

Definition DAYS_BEFORE_MONTH (month : Z) : Z :=
  match month with
  | 1 => 0 | 2 => 31 | 3 => 59 | 4 => 90 | 5 => 120 | 6 => 151
  | 7 => 181 | 8 => 212 | 9 => 243 | 10 => 273 | 11 => 304 | 12 => 334
  | _ => -1
  end.

Definition days_in_month (year month : Z) : Z :=
  if (month =? 2) && is_leap year then 29 else DAYS_IN_MONTH month.

Definition days_before_month (year month : Z) : Z :=
  DAYS_BEFORE_MONTH month + (if (2 <? month) && is_leap year then 1 else 0).

Definition ymd2ord (year month day : Z) : Z :=
  days_before_year year + days_before_month year month + day.

Definition DI400Y : Z := 146097.
Definition DI100Y : Z := 36524.
Definition DI4Y : Z := 1461.

Definition ord2ymd (n : Z) : Z * Z * Z :=
  let n := n - 1 in
  let n400 := n / DI400Y in
  let n := n mod DI400Y in
  let year := n400 * 400 + 1 in
  let n100 := n / DI100Y in
  let n := n mod DI100Y in
  let n4 := n / DI4Y in
  let n := n mod DI4Y in
  let n1 := n / 365 in
  let n := n mod 365 in
  let year := year + n100 * 100 + n4 * 4 + n1 in
  if (n1 =? 4) || (n100 =? 4) then (year - 1, 12, 31)
  else
    let leapyear := (n1 =? 3) && (negb (n4 =? 24) || (n100 =? 3)) in
    let month := Z.shiftr (n + 50) 5 in
    let preceding :=
      DAYS_BEFORE_MONTH month + (if (2 <? month) && leapyear then 1 else 0) in
    if n <? preceding then
      let month := month - 1 in
      let preceding :=
        preceding - (DAYS_IN_MONTH month + (if (month =? 2) && leapyear then 1 else 0)) in
      (year, month, n - preceding + 1)
    else (year, month, n - preceding + 1).

(** [date.max.toordinal()], the ordinal of 9999-12-31. *)
Definition MAXORDINAL : Z := 3652059.

Record t := mk {
  ordinal : Z;
  hour : Z;
  minute : Z;
  second : Z;
  microsecond : Z
}.

#[global] Instance eq_dec : EqDecision t.
Proof. solve_decision. Defined.

(** Values a [datetime] object can hold. *)
Definition valid (d : t) : Prop :=
  1 <= ordinal d <= MAXORDINAL /\ 0 <= hour d < 24 /\ 0 <= minute d < 60 /\
  0 <= second d < 60 /\ 0 <= microsecond d < 1000000.

Definition midnight (d : t) : Prop :=
  hour d = 0 /\ minute d = 0 /\ second d = 0 /\ microsecond d = 0.

(** [a <= b]: the comparison of the field tuples, most significant first. *)
Fixpoint lex_leb (a b : list Z) : bool :=
  match a, b with
  | x :: a', y :: b' => (x <? y) || ((x =? y) && lex_leb a' b')
  | _, _ => true
  end.

Definition fields (d : t) : list Z :=
  [ordinal d; hour d; minute d; second d; microsecond d].

Definition leb (a b : t) : bool := lex_leb (fields a) (fields b).

(** [d + timedelta(days=n)]; [None] stands for the [OverflowError] raised
    when the date leaves the years 1..9999. *)
Definition add_days (d : t) (n : Z) : option t :=
  let o := ordinal d + n in
  if (1 <=? o) && (o <=? MAXORDINAL)
  then Some (mk o (hour d) (minute d) (second d) (microsecond d))
  else None.

(** The same sum without the range check. *)
Definition plus_days (d : t) (n : Z) : t :=
  mk (ordinal d + n) (hour d) (minute d) (second d) (microsecond d).

(** *** Formatting *)

Definition digit (n : Z) : ascii := ascii_of_nat (48 + Z.to_nat (n mod 10)).

Definition pad2 (n : Z) : string :=
  String (digit (n / 10)) (String (digit n) "").

Definition pad4 (n : Z) : string :=
  String (digit (n / 1000)) (String (digit (n / 100)) (pad2 n)).

(** [%Y] as the C library's [strftime] writes it, which [datetime.strftime]
    calls: the year in decimal with no padding, so with fewer than four
    digits before the year 1000. *)
Definition strftime_Y (y : Z) : string :=
  if y <? 10 then String (digit y) ""
  else if y <? 100 then pad2 y
  else if y <? 1000 then String (digit (y / 100)) (pad2 y)
  else pad4 y.

(** [d.strftime("%Y-%m-%d")] *)
Definition strftime_day (d : t) : string :=
  let '(y, m, dd) := ord2ymd (ordinal d) in
  strftime_Y y +:+ "-" +:+ pad2 m +:+ "-" +:+ pad2 dd.

(** The [%H:%M:%S] part. *)
Definition strftime_time (d : t) : string :=
  pad2 (hour d) +:+ ":" +:+ pad2 (minute d) +:+ ":" +:+ pad2 (second d).

(** [d.strftime("%Y-%m-%dT%H:%M:%SZ")] *)
Definition strftime_bookmark (d : t) : string :=
  strftime_day d +:+ "T" +:+ strftime_time d +:+ "Z".

(** *** Parsing

    [strptime] compiles the format to a regular expression, one group per
    directive, matches it case-insensitively at the start of the text and
    rejects text left over after the match.  A matcher returns the ways it
    can match a prefix, in the order the backtracking engine tries them.
    Among the code points below 256 the decimal digits that [\d] matches
    are [0] to [9]. *)

Definition is_digit (c : ascii) : bool :=
  let n := nat_of_ascii c in ((48 <=? n) && (n <=? 57))%nat.

Definition digit_val (c : ascii) : Z := Z.of_nat (nat_of_ascii c) - 48.

Definition matcher (A : Type) := string -> list (A * string).

(** Two digits [a b] with [P a b]. *)
Definition two_digits (P : Z -> Z -> bool) : matcher Z := fun s =>
  match s with
  | String c1 (String c2 r) =>
      if is_digit c1 && is_digit c2 && P (digit_val c1) (digit_val c2)
      then [(10 * digit_val c1 + digit_val c2, r)] else []
  | _ => []
  end.

(** One digit [a] with [P a]. *)
Definition one_digit (P : Z -> bool) : matcher Z := fun s =>
  match s with
  | String c r => if is_digit c && P (digit_val c) then [(digit_val c, r)] else []
  | _ => []
  end.

(** A literal character, compared without regard to case. *)
Definition lit (c : ascii) : matcher unit := fun s =>
  match s with
  | String c' r =>
      if Ascii.eqb (PyStr.lower_char c') (PyStr.lower_char c) then [(tt, r)] else []
  | _ => []
  end.

(** [%Y] is [\d\d\d\d]. *)
Definition re_Y : matcher Z := fun s =>
  '(hi, s1) ← two_digits (fun _ _ => true) s;
  '(lo, s2) ← two_digits (fun _ _ => true) s1;
  [(100 * hi + lo, s2)].

(** [%m] is [1[0-2]|0[1-9]|[1-9]]. *)
Definition re_m : matcher Z := fun s =>
  two_digits (fun a b => (a =? 1) && (b <=? 2)) s ++
  two_digits (fun a b => (a =? 0) && (1 <=? b)) s ++
  one_digit (fun a => 1 <=? a) s.

(** [%d] is [3[0-1]|[1-2]\d|0[1-9]|[1-9]| [1-9]]. *)
Definition re_d : matcher Z := fun s =>
  two_digits (fun a b => (a =? 3) && (b <=? 1)) s ++
  two_digits (fun a _ => (1 <=? a) && (a <=? 2)) s ++
  two_digits (fun a b => (a =? 0) && (1 <=? b)) s ++
  one_digit (fun a => 1 <=? a) s ++
  ('(_, s1) ← lit " " s; one_digit (fun a => 1 <=? a) s1).

(** [%H] is [2[0-3]|[0-1]\d|\d]. *)
Definition re_H : matcher Z := fun s =>
  two_digits (fun a b => (a =? 2) && (b <=? 3)) s ++
  two_digits (fun a _ => a <=? 1) s ++
  one_digit (fun _ => true) s.

(** [%M] is [[0-5]\d|\d]. *)
Definition re_M : matcher Z := fun s =>
  two_digits (fun a _ => a <=? 5) s ++ one_digit (fun _ => true) s.

(** [%S] is [6[0-1]|[0-5]\d|\d]. *)
Definition re_S : matcher Z := fun s =>
  two_digits (fun a b => (a =? 6) && (b <=? 1)) s ++
  two_digits (fun a _ => a <=? 5) s ++
  one_digit (fun _ => true) s.

(** The expression for ["%Y-%m-%dT%H:%M:%SZ"]. *)
Definition re_bookmark : matcher (Z * Z * Z * Z * Z * Z) := fun s =>
  '(yy, s) ← re_Y s; '(_, s) ← lit "-" s;
  '(mo, s) ← re_m s; '(_, s) ← lit "-" s;
  '(dd, s) ← re_d s; '(_, s) ← lit "T" s;
  '(hh, s) ← re_H s; '(_, s) ← lit ":" s;
  '(mi, s) ← re_M s; '(_, s) ← lit ":" s;
  '(ss, s) ← re_S s; '(_, s) ← lit "Z" s;
  [((yy, mo, dd, hh, mi, ss), s)].

(** [datetime.strptime(s, "%Y-%m-%dT%H:%M:%SZ")]; [None] stands for the
    [ValueError] raised when the text does not match, when text is left
    over, or when the fields are not a date and time. *)
Definition strptime_bookmark (s : string) : option t :=
  match re_bookmark s with
  | ((yy, mo, dd, hh, mi, ss), rest) :: _ =>
      if bool_decide (rest = "") && (1 <=? yy) && (dd <=? days_in_month yy mo)
         && (ss <=? 59)
      then Some (mk (ymd2ord yy mo dd) hh mi ss 0)
      else None
  | [] => None
  end.

End datetime.

(** ** The tap *)

(** One call into the [singer] library or into the vendor [api]. *)
Inductive event {Schema : Type} :=
| WriteSchema (stream_name : string) (schema : Schema) (key_properties : list string)
| SalesReport (report_type report_subtype frequency vendor date version : string)
| WriteRecord (stream_name : string) (rec : record) (time_extracted : datetime.t)
| WriteBookmark (stream_name key val : string)
| WriteState (state : gmap string (gmap string string)).
Arguments event : clear implicits.

Inductive exn :=
| TypeError | KeyError | ValueError | OverflowError
| ApiError          (* raised by [api.sales_report] *)
| SchemaError       (* raised by [Transformer.transform] *).

(** What lies outside the repository: the JSON schema documents and
    singer's [Transformer] ([transform data schema] is [None] when the
    transformer raises), the vendor's
    [api.sales_report report_type report_subtype frequency vendor date
    version] ([None] when the call raises), and the clock, read once by
    [query_report] through [singer.utils.now()]. *)
Class Env := {
  Schema : Type;
  transform : record -> Schema -> option record;
  sales_report : string -> string -> string -> string -> string -> string -> option string;
  utils_now : datetime.t
}.

Section Tap.

Context {env : Env}.

(** A stream of the catalog; [metadata] is [None] for an entry that has no
    key [metadata]. *)
Record catalog_entry := {
  stream : string;
  tap_stream_id : string;
  schema : Schema;
  key_properties : list string;
  metadata : option (list (list string * gmap string bool))
}.

(** The keys of the configuration the sync reads. *)
Record Config := {
  vendor : string;
  start_date : string
}.

(** The attributes of [class Context].  [state] holds the mapping under the
    key [bookmarks] of the state document, [catalog] the list under the key
    [streams] of the catalog. *)
Record Context := {
  config : Config;
  state : gmap string (gmap string string);
  catalog : list catalog_entry;
  stream_map : gmap string catalog_entry;
  new_counts : gmap string Z;
  updated_counts : gmap string Z;
  log : list (event Schema)
}.

Definition with_state (st : gmap string (gmap string string)) (c : Context) :=
  {| config := config c; state := st; catalog := catalog c;
     stream_map := stream_map c; new_counts := new_counts c;
     updated_counts := updated_counts c; log := log c |}.

Definition with_stream_map (m : gmap string catalog_entry) (c : Context) :=
  {| config := config c; state := state c; catalog := catalog c;
     stream_map := m; new_counts := new_counts c;
     updated_counts := updated_counts c; log := log c |}.

Definition with_new_counts (m : gmap string Z) (c : Context) :=
  {| config := config c; state := state c; catalog := catalog c;
     stream_map := stream_map c; new_counts := m;
     updated_counts := updated_counts c; log := log c |}.

Definition with_updated_counts (m : gmap string Z) (c : Context) :=
  {| config := config c; state := state c; catalog := catalog c;
     stream_map := stream_map c; new_counts := new_counts c;
     updated_counts := m; log := log c |}.

Definition emit (e : event Schema) (c : Context) :=
  {| config := config c; state := state c; catalog := catalog c;
     stream_map := stream_map c; new_counts := new_counts c;
     updated_counts := updated_counts c; log := log c ++ [e] |}.

(** *** Computations over the context *)

Definition M (A : Type) : Type := Context -> (exn + A) * Context.

Definition ret {A} (a : A) : M A := fun c => (inr a, c).

Definition raise {A} (e : exn) : M A := fun c => (inl e, c).

Definition bind {A B} (m : M A) (k : A -> M B) : M B := fun c =>
  match m c with
  | (inl e, c') => (inl e, c')
  | (inr a, c') => k a c'
  end.

Definition modify (f : Context -> Context) : M unit := fun c => (inr tt, f c).

Definition gets {A} (f : Context -> A) : M A := fun c => (inr (f c), c).

(** [o] when it is a value, the exception [e] when the library raised. *)
Definition lift {A} (e : exn) (o : option A) : M A :=
  match o with
  | Some a => ret a
  | None => raise e
  end.

Notation "'let*' x ':=' m 'in' k" := (bind m (fun x => k))
  (at level 10, x name, m at level 100, k at level 200).
Notation "m '>>' k" := (bind m (fun _ => k))
  (at level 100, k at level 200, right associativity).

(** *** The singer library *)

(** [singer.get_bookmark(state, tap_stream_id, key)] *)
Definition singer_get_bookmark (st : gmap string (gmap string string))
    (tap_stream_id key : string) : option string :=
  default ∅ (st !! tap_stream_id) !! key.

(** [singer.write_bookmark(state, tap_stream_id, key, val)] *)
Definition singer_write_bookmark (st : gmap string (gmap string string))
    (tap_stream_id key val : string) : gmap string (gmap string string) :=
  <[tap_stream_id := <[key := val]> (default ∅ (st !! tap_stream_id))]> st.

Definition write_schema (stream_name : string) (sch : Schema)
    (key_props : list string) : M unit :=
  modify (emit (WriteSchema stream_name sch key_props)).

Definition write_record (stream_name : string) (rec : record)
    (time_extracted : datetime.t) : M unit :=
  modify (emit (WriteRecord stream_name rec time_extracted)).

(** [singer.write_bookmark(Context.state, ...)] updates the state in place. *)
Definition write_bookmark (stream_name key val : string) : M unit :=
  modify (fun c =>
    emit (WriteBookmark stream_name key val)
      (with_state (singer_write_bookmark (state c) stream_name key val) c)).

(** [singer.write_state(Context.state)] *)
Definition write_state : M unit :=
  modify (fun c => emit (WriteState (state c)) c).

(** *** class Context *)

(** [{s["tap_stream_id"]: s for s in cls.catalog['streams']}]: with a
    repeated id the later entry stays. *)
Definition build_stream_map (streams : list catalog_entry) : gmap string catalog_entry :=
  foldl (fun m s => <[tap_stream_id s := s]> m) ∅ streams.

(** [Context.get_catalog_entry], lines 38-42: the stream map is built on the
    first call, while it is empty. *)
Definition get_catalog_entry (stream_name : string) : M (option catalog_entry) :=
  let* unset := gets (fun c => bool_decide (stream_map c = ∅)) in
  (if unset
   then modify (fun c => with_stream_map (build_stream_map (catalog c)) c)
   else ret tt) >>
  gets (fun c => stream_map c !! stream_name).

(** [Context.get_schema], lines 45-47: the schema of the first stream of the
    catalog with the id; [None] stands for the [IndexError] of [[...][0]]
    when the catalog has no such stream. *)
Definition get_schema (stream_name : string) (c : Context) : option Schema :=
  schema <$> head (filter (fun s => tap_stream_id s = stream_name) (catalog c)).

(** [metadata.to_map(raw_metadata)]: the metadata by breadcrumb. *)
Definition metadata_to_map (raw : list (list string * gmap string bool))
    : gmap (list string) (gmap string bool) :=
  foldl (fun m md => <[md.1 := md.2]> m) ∅ raw.

(** [metadata.get(compiled_metadata, breadcrumb, k)]; an empty entry counts
    as none. *)
Definition metadata_get (compiled : gmap (list string) (gmap string bool))
    (breadcrumb : list string) (k : string) : option bool :=
  match compiled !! breadcrumb with
  | Some el => if bool_decide (el = ∅) then None else el !! k
  | None => None
  end.

(** [Context.is_selected], lines 49-55; no function of the sync calls it.
    [stream['metadata']] raises [KeyError] on an entry without that key. *)
Definition is_selected (stream_name : string) : M (option bool) :=
  let* stream := get_catalog_entry stream_name in
  match stream with
  | Some s =>
      let* raw := lift KeyError (metadata s) in
      ret (metadata_get (metadata_to_map raw) [] "selected")
  | None => ret (Some false)
  end.

(** [Context.print_counts], lines 58-65: the arguments of the [LOGGER.info]
    call made for each item of [new_counts]; [None] stands for the
    [KeyError] of [Context.updated_counts[stream_name]].  The map does not
    keep the order in which the keys were set, so the order of the lines is
    not that of the log. *)
Definition print_counts (c : Context) : option (list (string * Z * Z)) :=
  mapM (fun item : string * Z =>
          updated ← updated_counts c !! item.1;
          Some (item.1, item.2, updated))
       (map_to_list (new_counts c)).

(** *** The sync *)

(** [get_bookmark], lines 184-188. *)
Definition get_bookmark (name : string) : M string :=
  let* bookmark := gets (fun c => singer_get_bookmark (state c) name "start_date") in
  match bookmark with
  | None => gets (fun c => start_date (config c))
  | Some b => ret b
  end.

(** [Context.new_counts[stream_name] += 1] *)
Definition incr_new_count (stream_name : string) : M unit :=
  let* n := gets (fun c => new_counts c !! stream_name) in
  let* n := lift KeyError n in
  modify (fun c => with_new_counts (<[stream_name := n + 1]> (new_counts c)) c).

(** [for index, line in enumerate(rep, start=1): ...], lines 157-168. *)
Fixpoint write_lines (stream_name : string) (stream_schema : Schema)
    (extraction_time : datetime.t) (rep : list (nat * record)) : M unit :=
  match rep with
  | [] => ret tt
  | (index, line) :: rest =>
      let data := <["line_id" := VInt (Z.of_nat index)]> line in
      let* rec := lift SchemaError (transform data stream_schema) in
      write_record stream_name rec extraction_time >>
      incr_new_count stream_name >>
      write_lines stream_name stream_schema extraction_time rest
  end.

(** The body of the [while] loop, lines 153-177, up to and without
    [iterator += delta]: the bookmark written is the day just processed. *)
Definition sync_day (stream_name : string) (stream_schema : Schema)
    (extraction_time iterator : datetime.t) : M unit :=
  let iterator_str := datetime.strftime_day iterator in
  let* v := gets (fun c => vendor (config c)) in
  modify (emit (SalesReport "SALES" "SUMMARY" "DAILY" v iterator_str "1_0")) >>
  let* rep_tsv :=
    lift ApiError (sales_report "SALES" "SUMMARY" "DAILY" v iterator_str "1_0") in
  let rep := tsv_to_list rep_tsv in
  write_lines stream_name stream_schema extraction_time (PyStr.enumerate 1 rep) >>
  write_bookmark stream_name "start_date" (datetime.strftime_bookmark iterator) >>
  write_state.

(** [while iterator + delta <= extraction_time: ...; iterator += delta],
    lines 151-179, with [delta = timedelta(days=1)].  Every turn moves
    [iterator] one day closer to [extraction_time], which is why the loop
    ends. *)
Equations? while_days (stream_name : string) (stream_schema : Schema)
    (extraction_time iterator : datetime.t) (c : Context) : (exn + unit) * Context
    by wf (Z.to_nat (datetime.ordinal extraction_time + 1 - datetime.ordinal iterator)) lt :=
  while_days stream_name stream_schema extraction_time iterator c
    with Logic.inspect (datetime.add_days iterator 1) := {
    | exist _ None _ => (inl OverflowError, c)
    | exist _ (Some next) Hnext with Logic.inspect (datetime.leb next extraction_time) := {
      | exist _ false _ => (inr tt, c)
      | exist _ true Hle
          with sync_day stream_name stream_schema extraction_time iterator c := {
        | (inl e, c') => (inl e, c')
        | (inr _, c') =>
            while_days stream_name stream_schema extraction_time next c' } } }.
Proof.
  unfold datetime.add_days in Hnext.
  destruct (_ && _) in Hnext; [|discriminate].
  injection Hnext as <-.
  unfold datetime.leb in Hle. simpl in Hle.
  apply orb_true_iff in Hle as [H|H];
    [apply Z.ltb_lt in H | apply andb_true_iff in H as [H _]; apply Z.eqb_eq in H];
    simpl; lia.
Qed.

(** [query_report], lines 138-181.  Indexing [None] when the catalog lacks
    the stream raises [TypeError]; the final [write_state] is skipped when
    the loop raises. *)
Definition query_report : M unit :=
  let stream_name := "summary_sales_report" in
  let* catalog_entry := get_catalog_entry stream_name in
  let* catalog_entry := lift TypeError catalog_entry in
  let stream_schema := schema catalog_entry in
  let* bookmark_str := get_bookmark stream_name in
  let* bookmark := lift ValueError (datetime.strptime_bookmark bookmark_str) in
  let extraction_time := utils_now in
  while_days stream_name stream_schema extraction_time bookmark >>
  write_state.

(** [for catalog_entry in Context.catalog['streams']: ...], lines 128-133. *)
Fixpoint declare_streams (streams : list catalog_entry) : M unit :=
  match streams with
  | [] => ret tt
  | catalog_entry :: rest =>
      let stream_name := tap_stream_id catalog_entry in
      write_schema stream_name (schema catalog_entry) (key_properties catalog_entry) >>
      modify (fun c => with_new_counts (<[stream_name := 0]> (new_counts c)) c) >>
      modify (fun c => with_updated_counts (<[stream_name := 0]> (updated_counts c)) c) >>
      declare_streams rest
  end.

(** [sync], lines 126-135. *)
Definition sync : M unit :=
  let* streams := gets catalog in
  declare_streams streams >>
  query_report.

(** The class attributes as [main] leaves them before it calls [sync]. *)
Definition initial_context (cfg : Config) (st : gmap string (gmap string string))
    (cat : list catalog_entry) : Context :=
  {| config := cfg; state := st; catalog := cat; stream_map := ∅;
     new_counts := ∅; updated_counts := ∅; log := [] |}.

(** The sync branch of [main], lines 202-217, for a catalog read from the
    command line or discovered. *)
Definition main (cfg : Config) (st : gmap string (gmap string string))
    (cat : list catalog_entry) : (exn + unit) * Context :=
  sync (initial_context cfg st cat).

(** *** Discovery *)

(** [d[k] = v] on a [dict], kept as its items in insertion order: a key the
    dict has keeps its place. *)
Fixpoint dict_set {V} (k : string) (v : V) (d : list (string * V))
    : list (string * V) :=
  match d with
  | [] => [(k, v)]
  | (k', v') :: d' =>
      if decide (k' = k) then (k, v) :: d' else (k', v') :: dict_set k v d'
  end.

(** [filename.replace('.json', '')] *)
Definition file_raw (filename : string) : string :=
  PyStr.replace_str ".json" "" filename.

(** The loop of [load_schemas], lines 76-80, over the listing of the folder
    [schemas]: each file name comes with what [open] and [json.load] give
    for it, [None] when either raises. *)
Fixpoint load_schemas_loop (listing : list (string * option Schema))
    (schemas : list (string * Schema)) : option (list (string * Schema)) :=
  match listing with
  | [] => Some schemas
  | (filename, content) :: rest =>
      match content with
      | Some document =>
          load_schemas_loop rest (dict_set (file_raw filename) document schemas)
      | None => None
      end
  end.

(** [load_schemas], lines 73-82. *)
Definition load_schemas (listing : list (string * option Schema))
    : option (list (string * Schema)) :=
  load_schemas_loop listing [].

(** [discover], lines 85-105, returning the list under the key [streams].
    The entries it builds have no key [metadata]. *)
Definition discover (listing : list (string * option Schema))
    : option (list catalog_entry) :=
  raw_schemas ← load_schemas listing;
  Some (map (fun item : string * Schema =>
               {| stream := item.1; tap_stream_id := item.1; schema := item.2;
                  key_properties := ["line_id"; "begin_date"; "end_date"];
                  metadata := None |})
            raw_schemas).

(** The command line as [main] reads it: the flag [--discover], the catalog
    of [--catalog] when there is one, the configuration and the state. *)
Record Args := {
  args_discover : bool;
  args_catalog : option (list catalog_entry);
  args_config : Config;
  args_state : gmap string (gmap string string)
}.

(** How [main] ends: the discovered catalog printed, a sync run, or the
    exception of [load_schemas] on a file it cannot read. *)
Inductive outcome :=
| Printed (catalog : list catalog_entry)
| Synced (run : (exn + unit) * Context)
| Unreadable.

(** [main], lines 191-217, with both of its modes. *)
Definition main_args (args : Args) (listing : list (string * option Schema))
    : outcome :=
  if args_discover args then
    match discover listing with
    | Some catalog => Printed catalog
    | None => Unreadable
    end
  else
    match args_catalog args with
    | Some catalog => Synced (main (args_config args) (args_state args) catalog)
    | None =>
        match discover listing with
        | Some catalog => Synced (main (args_config args) (args_state args) catalog)
        | None => Unreadable
        end
    end.

(** *** Reading the log *)

(** The dates of the reports requested, in request order. *)
Definition fetched (l : list (event Schema)) : list string :=
  omap (fun e => match e with SalesReport _ _ _ _ d _ => Some d | _ => None end) l.

(** The records emitted, in emission order. *)
Definition records_written (l : list (event Schema)) : list record :=
  omap (fun e => match e with WriteRecord _ r _ => Some r | _ => None end) l.

(** The bookmark values written, in write order. *)
Definition bookmarks_written (l : list (event Schema)) : list string :=
  omap (fun e => match e with WriteBookmark _ _ v => Some v | _ => None end) l.

(** The state documents written, in write order. *)
Definition states_written (l : list (event Schema))
    : list (gmap string (gmap string string)) :=
  omap (fun e => match e with WriteState st => Some st | _ => None end) l.

(** The schema messages written, in write order. *)
Definition schemas_written (l : list (event Schema)) : list string :=
  omap (fun e => match e with WriteSchema n _ _ => Some n | _ => None end) l.

(** The records written at the head of the log. *)
Fixpoint leading_records (l : list (event Schema)) : list record :=
  match l with
  | WriteRecord _ r _ :: l' => r :: leading_records l'
  | _ => []
  end.

(** The reports requested, each with the records written right after the
    request, before any other call. *)
Fixpoint reports (l : list (event Schema)) : list (string * list record) :=
  match l with
  | [] => []
  | SalesReport _ _ _ _ date _ :: l' => (date, leading_records l') :: reports l'
  | _ :: l' => reports l'
  end.

(** What the loop hands to the transformer for the row [p] of
    [enumerate(rep, start=1)]. *)
Definition line_data (p : nat * record) : record :=
  <["line_id" := VInt (Z.of_nat p.1)]> p.2.

(** The request the loop sends for the day [iterator]. *)
Definition request (cfg : Config) (iterator : datetime.t) : event Schema :=
  SalesReport "SALES" "SUMMARY" "DAILY" (vendor cfg)
    (datetime.strftime_day iterator) "1_0".

(** The normalized records of the day [iterator], when neither the fetch
    nor the transformer raises. *)
Definition day_records (cfg : Config) (stream_schema : Schema)
    (iterator : datetime.t) : option (list record) :=
  rep_tsv ← sales_report "SALES" "SUMMARY" "DAILY" (vendor cfg)
              (datetime.strftime_day iterator) "1_0";
  mapM (fun p => transform (line_data p) stream_schema)
       (PyStr.enumerate 1 (tsv_to_list rep_tsv)).

(** The attributes no part of the loop assigns. *)
Definition same_frame (c c' : Context) : Prop :=
  config c' = config c /\ catalog c' = catalog c /\
  stream_map c' = stream_map c /\ updated_counts c' = updated_counts c.

(** *** The context at the head of the loop *)

Definition schema_message (e : catalog_entry) : event Schema :=
  WriteSchema (tap_stream_id e) (schema e) (key_properties e).

(** The counters after the first loop of [sync]. *)
Definition zero_counts (streams : list catalog_entry) : gmap string Z :=
  foldl (fun m e => <[tap_stream_id e := 0]> m) ∅ streams.

(** The context [main] has built when [query_report] reaches its loop. *)
Definition declared (cfg : Config) (st : gmap string (gmap string string))
    (cat : list catalog_entry) : Context :=
  {| config := cfg; state := st; catalog := cat;
     stream_map := build_stream_map cat;
     new_counts := zero_counts cat; updated_counts := zero_counts cat;
     log := map schema_message cat |}.

(** The text [get_bookmark] returns to [query_report]. *)
Definition bookmark_text (cfg : Config) (st : gmap string (gmap string string)) : string :=
  default (start_date cfg) (singer_get_bookmark st "summary_sales_report" "start_date").

(** *** The shape of a run *)

(** The first [n] days from the bookmark on. *)
Definition days (bookmark : datetime.t) (n : nat) : list datetime.t :=
  map (fun i => datetime.plus_days bookmark (Z.of_nat i)) (seq 0 n).

Definition records_of (cfg : Config) (stream_schema : Schema) (d : datetime.t)
    : list record :=
  default [] (day_records cfg stream_schema d).

(** The state once the day [d] is bookmarked. *)
Definition bookmarked (st : gmap string (gmap string string)) (d : datetime.t)
    : gmap string (gmap string string) :=
  singer_write_bookmark st "summary_sales_report" "start_date"
    (datetime.strftime_bookmark d).

(** What a completed day adds to the log. *)
Definition day_block (cfg : Config) (st : gmap string (gmap string string))
    (stream_schema : Schema) (d : datetime.t) : list (event Schema) :=
  request cfg d ::
  map (fun rec => WriteRecord "summary_sales_report" rec utils_now)
      (records_of cfg stream_schema d) ++
  [WriteBookmark "summary_sales_report" "start_date" (datetime.strftime_bookmark d);
   WriteState (bookmarked st d)].

(** The context after [n] completed days. *)
Definition completed (cfg : Config) (st : gmap string (gmap string string))
    (cat : list catalog_entry) (stream_schema : Schema) (bookmark : datetime.t)
    (n : nat) : Context :=
  {| config := cfg;
     state := match last (days bookmark n) with
              | Some d => bookmarked st d
              | None => st
              end;
     catalog := cat;
     stream_map := build_stream_map cat;
     new_counts :=
       <["summary_sales_report" :=
           Z.of_nat (length (concat (map (records_of cfg stream_schema)
                                         (days bookmark n))))]> (zero_counts cat);
     updated_counts := zero_counts cat;
     log := map schema_message cat ++
            concat (map (day_block cfg st stream_schema) (days bookmark n)) |}.

(** The day [d] is due: a full day has passed since [d] at the extraction
    time. *)
Definition due (d : datetime.t) : Prop :=
  exists next, datetime.add_days d 1 = Some next /\ datetime.leb next utils_now = true.

(** The ways a run that reached the loop can end, after [n] completed
    days: the next day is not due; the next day cannot be computed; or the
    next day is due and its fetch or one of its rows raises, after the
    records [recs] of the rows before it were written. *)
Inductive run_end (cfg : Config) (st : gmap string (gmap string string))
    (cat : list catalog_entry) (stream_schema : Schema) (bookmark : datetime.t)
    (n : nat) : (exn + unit) * Context -> Prop :=
| end_done next :
    datetime.add_days (datetime.plus_days bookmark (Z.of_nat n)) 1 = Some next ->
    datetime.leb next utils_now = false ->
    let c := completed cfg st cat stream_schema bookmark n in
    run_end cfg st cat stream_schema bookmark n
      (inr tt, emit (WriteState (state c)) c)
| end_overflow :
    datetime.add_days (datetime.plus_days bookmark (Z.of_nat n)) 1 = None ->
    run_end cfg st cat stream_schema bookmark n
      (inl OverflowError, completed cfg st cat stream_schema bookmark n)
| end_failed e recs c' :
    let d := datetime.plus_days bookmark (Z.of_nat n) in
    let c := completed cfg st cat stream_schema bookmark n in
    due d ->
    day_records cfg stream_schema d = None ->
    e = ApiError \/ e = SchemaError ->
    (forall j rec, recs !! j = Some rec ->
       exists rep_tsv line,
         sales_report "SALES" "SUMMARY" "DAILY" (vendor cfg)
           (datetime.strftime_day d) "1_0" = Some rep_tsv /\
         tsv_to_list rep_tsv !! j = Some line /\
         transform (<["line_id" := VInt (Z.of_nat (S j))]> line) stream_schema
           = Some rec) ->
    same_frame c c' -> state c' = state c ->
    new_counts c' =
      <["summary_sales_report" :=
          Z.of_nat (length (concat (map (records_of cfg stream_schema)
                                        (days bookmark n))) + length recs)]>
        (zero_counts cat) ->
    log c' = log c ++ request cfg d ::
             map (fun rec => WriteRecord "summary_sales_report" rec utils_now) recs ->
    run_end cfg st cat stream_schema bookmark n (inl e, c').

(** *** What a run shows *)

(** The context with another catalog and stream map. *)
Definition with_catalog (cat : list catalog_entry)
    (m : gmap string catalog_entry) (c : Context) : Context :=
  {| config := config c; state := state c; catalog := cat; stream_map := m;
     new_counts := new_counts c; updated_counts := updated_counts c;
     log := log c |}.

(** The catalog entry with its metadata replaced. *)
Definition with_metadata
    (g : catalog_entry -> option (list (list string * gmap string bool)))
    (e : catalog_entry) : catalog_entry :=
  {| stream := stream e; tap_stream_id := tap_stream_id e; schema := schema e;
     key_properties := key_properties e; metadata := g e |}.

(** What a run returns and leaves behind, the catalog apart. *)
Definition observe (res : (exn + unit) * Context) :=
  (res.1, log res.2, state res.2, new_counts res.2, updated_counts res.2).

(** The event concerns the stream [summary_sales_report] and the daily
    summary sales report of the configured vendor. *)
Definition sales_only (cfg : Config) (e : event Schema) : Prop :=
  match e with
  | WriteSchema _ _ _ => True
  | SalesReport report_type report_subtype frequency v _ version =>
      report_type = "SALES" /\ report_subtype = "SUMMARY" /\
      frequency = "DAILY" /\ v = vendor cfg /\ version = "1_0"
  | WriteRecord stream_name _ time_extracted =>
      stream_name = "summary_sales_report" /\ time_extracted = utils_now
  | WriteBookmark stream_name key _ =>
      stream_name = "summary_sales_report" /\ key = "start_date"
  | WriteState _ => True
  end.

(** *** The order of the writes

    Where a run stands between two calls: between days, within a day after
    its report was requested, or between the bookmark write of a day and the
    state write that follows it. *)
Inductive phase :=
| Idle
| Fetching (date : string)
| Marked (val : string).

(** The calls each phase admits.  Records are admitted only within a day;
    the bookmark write ends the day's records and must carry the day
    requested; the state write that follows must hold that bookmark. *)
Definition protocol (p : phase) (e : event Schema) : option phase :=
  match p, e with
  | Idle, WriteSchema _ _ _ => Some Idle
  | Idle, SalesReport _ _ _ _ date _ => Some (Fetching date)
  | Idle, WriteState _ => Some Idle
  | Fetching date, WriteRecord _ _ _ => Some (Fetching date)
  | Fetching date, WriteBookmark _ _ val =>
      if String.prefix date val then Some (Marked val) else None
  | Marked val, WriteState st =>
      if bool_decide (singer_get_bookmark st "summary_sales_report" "start_date"
                      = Some val)
      then Some Idle else None
  | _, _ => None
  end.

Fixpoint run_protocol (p : phase) (l : list (event Schema)) : option phase :=
  match l with
  | [] => Some p
  | e :: l' =>
      match protocol p e with
      | Some p' => run_protocol p' l'
      | None => None
      end
  end.

(** The list [l] has [x] at its head: the first way of a matcher to match. *)
Definition starts {A} (l : list A) (x : A) : Prop := exists tl, l = x :: tl.

(** The log of a run that reached the loop: the schema messages, the blocks
    of the completed days, and what the end of the run added. *)
Inductive log_tail (cfg : Config) (st : gmap string (gmap string string))
    (cat : list catalog_entry) (ss : Schema) (b : datetime.t) (n : nat)
    : exn + unit -> list (event Schema) -> Prop :=
| tail_done :
    ~ due (datetime.plus_days b (Z.of_nat n)) ->
    log_tail cfg st cat ss b n (inr tt)
      [WriteState (state (completed cfg st cat ss b n))]
| tail_overflow :
    datetime.add_days (datetime.plus_days b (Z.of_nat n)) 1 = None ->
    log_tail cfg st cat ss b n (inl OverflowError) []
| tail_failed e recs :
    due (datetime.plus_days b (Z.of_nat n)) ->
    day_records cfg ss (datetime.plus_days b (Z.of_nat n)) = None ->
    e = ApiError \/ e = SchemaError ->
    (forall j rec, recs !! j = Some rec ->
       exists rep_tsv line,
         sales_report "SALES" "SUMMARY" "DAILY" (vendor cfg)
           (datetime.strftime_day (datetime.plus_days b (Z.of_nat n))) "1_0"
           = Some rep_tsv /\
         tsv_to_list rep_tsv !! j = Some line /\
         transform (<["line_id" := VInt (Z.of_nat (S j))]> line) ss = Some rec) ->
    log_tail cfg st cat ss b n (inl e)
      (request cfg (datetime.plus_days b (Z.of_nat n)) ::
       map (fun rec => WriteRecord "summary_sales_report" rec utils_now) recs).

End Tap.

(** * A sample run

    The report of the specification's scenario, a vendor that returns it for
    every day, a transformer whose schema admits every field unchanged, and
    a catalog with the one stream. *)

Definition sample_tsv : string :=
  "Begin Date" +:+ String tab ("End Date" +:+ String tab ("Units" +:+ String newline
  ("2024-01-01" +:+ String tab ("2024-01-01" +:+ String tab ("5" +:+ String newline ""))))).

Definition sample_api (report_type report_subtype frequency vendor date version : string)
    : option string :=
  Some sample_tsv.

Definition sample_transform (data : record) (_ : unit) : option record := Some data.

(** 2024-01-03T10:00:00 *)
Definition sample_now : datetime.t := datetime.mk 738888 10 0 0 0.

Definition sample_env : Env :=
  {| Schema := unit; transform := sample_transform; sales_report := sample_api;
     utils_now := sample_now |}.

Definition sample_entry : @catalog_entry sample_env :=
  @Build_catalog_entry sample_env "summary_sales_report" "summary_sales_report" tt
    ["line_id"; "begin_date"; "end_date"] None.

Definition sample_config (start : string) : Config :=
  {| vendor := "85000000"; start_date := start |}.

Definition sample_run (start : string) (st : gmap string (gmap string string))
    : (exn + unit) * @Context sample_env :=
  main (sample_config start) st [sample_entry].

(** The one record of the sample report, as the loop hands it to the
    transformer. *)
Definition sample_record : record :=
  <["line_id" := VInt 1]>
    {[ "begin_date" := VStr "2024-01-01"; "end_date" := VStr "2024-01-01";
       "units" := VStr "5" ]}.

(** A schemas folder with the one schema file. *)
Definition sample_listing : list (string * option (@Schema sample_env)) :=
  [("summary_sales_report.json", Some tt)].

(** The bookmark text is a whole-day boundary. *)
Definition whole_day_text (v : string) : Prop :=
  exists d, datetime.strptime_bookmark v = Some d /\ datetime.midnight d.

(** * What the code does *)

Section TapFacts.

Context {env : Env}.

(** ** Reasoning about the loop *)

(** One turn of the loop, as an equation. *)
Lemma while_days_step stream_name stream_schema extraction_time iterator c :
  while_days stream_name stream_schema extraction_time iterator c =
  match datetime.add_days iterator 1 with
  | None => (inl OverflowError, c)
  | Some next =>
      if datetime.leb next extraction_time then
        match sync_day stream_name stream_schema extraction_time iterator c with
        | (inl e, c') => (inl e, c')
        | (inr _, c') => while_days stream_name stream_schema extraction_time next c'
        end
      else (inr tt, c)
  end.
Proof.
  rewrite while_days_equation_1.
  remember (match datetime.add_days iterator 1 with Some _ => _ | None => _ end)
    as rhs eqn:E.
  destruct (Logic.inspect (datetime.add_days iterator 1)) as [[next|] Hn];
    rewrite Hn in E; subst rhs; simp while_days; [|reflexivity].
  remember (if datetime.leb next extraction_time then _ else _) as rhs eqn:E.
  destruct (Logic.inspect (datetime.leb next extraction_time)) as [[|] Hle];
    rewrite Hle in E; subst rhs; simp while_days; [|reflexivity].
  destruct (sync_day _ _ _ _ _) as [[e|[]] c']; simp while_days; reflexivity.
Qed.

(** A Hoare-style rule for the loop: [I] holds of the iterator and the
    context at the head of every turn, and [Q] of whatever the loop returns,
    normally or by an exception. *)
Lemma while_days_rule stream_name stream_schema extraction_time
    (I : datetime.t -> Context -> Prop) (Q : (exn + unit) * Context -> Prop) :
  (forall it c, I it c -> datetime.add_days it 1 = None -> Q (inl OverflowError, c)) ->
  (forall it c next, I it c -> datetime.add_days it 1 = Some next ->
     datetime.leb next extraction_time = false -> Q (inr tt, c)) ->
  (forall it c next e c', I it c -> datetime.add_days it 1 = Some next ->
     datetime.leb next extraction_time = true ->
     sync_day stream_name stream_schema extraction_time it c = (inl e, c') ->
     Q (inl e, c')) ->
  (forall it c next u c', I it c -> datetime.add_days it 1 = Some next ->
     datetime.leb next extraction_time = true ->
     sync_day stream_name stream_schema extraction_time it c = (inr u, c') ->
     I next c') ->
  forall it c, I it c ->
  Q (while_days stream_name stream_schema extraction_time it c).
Proof.
  intros Hovf Hexit Hfail Hstep it.
  remember (Z.to_nat (datetime.ordinal extraction_time + 1 - datetime.ordinal it))
    as fuel eqn:Hfuel.
  revert it Hfuel.
  induction (lt_wf fuel) as [fuel _ IH]. intros it -> c HI.
  rewrite while_days_step.
  destruct (datetime.add_days it 1) as [next|] eqn:Hn; [|by eapply Hovf].
  destruct (datetime.leb next extraction_time) eqn:Hle; [|by eapply Hexit].
  destruct (sync_day _ _ _ _ _) as [[e|u] c'] eqn:Hday; [by eapply Hfail|].
  eapply IH; [|reflexivity|by eapply Hstep].
  unfold datetime.add_days in Hn.
  destruct (_ && _) in Hn; [|discriminate]. injection Hn as <-.
  unfold datetime.leb in Hle. simpl in Hle.
  apply orb_true_iff in Hle as [H|H];
    [apply Z.ltb_lt in H | apply andb_true_iff in H as [H _]; apply Z.eqb_eq in H];
    simpl; lia.
Qed.

Lemma same_frame_refl c : same_frame c c.
Proof. by repeat split. Qed.

Ltac run_m :=
  cbv beta iota zeta delta
    [bind gets modify lift ret raise write_record write_bookmark write_state
     write_schema incr_new_count] in *;
  simpl in *.

(** The contract of the [for] loop over the rows of one report: the records
    written are the transformed rows, in row order, up to the first row the
    transformer rejects, and each one is counted. *)
Lemma write_lines_effect stream_name stream_schema extraction_time rows :
  forall c n0 r c',
  new_counts c !! stream_name = Some n0 ->
  write_lines stream_name stream_schema extraction_time rows c = (r, c') ->
  exists recs,
    Forall2 (fun p rec => transform (line_data p) stream_schema = Some rec)
      (take (length recs) rows) recs /\
    same_frame c c' /\ state c' = state c /\
    new_counts c' = <[stream_name := n0 + Z.of_nat (length recs)]> (new_counts c) /\
    log c' = log c ++ map (fun rec => WriteRecord stream_name rec extraction_time) recs /\
    match r with
    | inr _ => length recs = length rows
    | inl e =>
        e = SchemaError /\
        exists p, rows !! length recs = Some p /\
                  transform (line_data p) stream_schema = None
    end.
Proof.
  induction rows as [|[index line] rows IH]; intros c n0 r c' Hn Hrun.
  - injection Hrun as <- <-. exists []. simpl.
    rewrite Z.add_0_r, insert_id, app_nil_r by done.
    repeat split; auto using same_frame_refl.
  - simpl in Hrun. run_m.
    destruct (transform _ stream_schema) as [rec|] eqn:Ht.
    + run_m. rewrite Hn in Hrun. run_m.
      eapply (IH _ (n0 + 1)) in Hrun; [|simpl; apply lookup_insert_eq].
      destruct Hrun as (recs & Hall & Hfr & Hst & Hcnt & Hlog & Hr).
      exists (rec :: recs). simpl in *.
      split; [constructor; done|].
      split; [apply Hfr|]. split; [done|].
      split; [rewrite Hcnt, insert_insert_eq; f_equal; lia|].
      split; [rewrite Hlog, <- app_assoc; done|].
      destruct r; [done | by f_equal].
    + simpl in Hrun. injection Hrun as <- <-. exists []. simpl.
      rewrite Z.add_0_r, insert_id, app_nil_r by done.
      repeat split; auto using same_frame_refl. eauto.
Qed.

Lemma enumerate_lookup {A} (l : list A) : forall start j,
  PyStr.enumerate start l !! j = (fun x => ((start + j)%nat, x)) <$> l !! j.
Proof.
  induction l as [|x l IH]; intros start [|j]; simpl; try done.
  - by rewrite Nat.add_0_r.
  - rewrite IH. by rewrite Nat.add_succ_r.
Qed.

Lemma enumerate_length {A} (l : list A) start :
  length (PyStr.enumerate start l) = length l.
Proof. revert start. induction l; intros; simpl; auto. Qed.

(** The contract of one turn of the loop.  Whether or not the day
    completes, the log grows by the request followed by the records of the
    rows transformed so far; the bookmark and the state are written only when
    every row went through. *)
Lemma sync_day_effect stream_name stream_schema extraction_time iterator c n0 r c' :
  new_counts c !! stream_name = Some n0 ->
  sync_day stream_name stream_schema extraction_time iterator c = (r, c') ->
  exists recs,
    same_frame c c' /\
    new_counts c' = <[stream_name := n0 + Z.of_nat (length recs)]> (new_counts c) /\
    (forall j rec, recs !! j = Some rec ->
       exists rep_tsv line,
         sales_report "SALES" "SUMMARY" "DAILY" (vendor (config c))
           (datetime.strftime_day iterator) "1_0" = Some rep_tsv /\
         tsv_to_list rep_tsv !! j = Some line /\
         transform (<["line_id" := VInt (Z.of_nat (S j))]> line) stream_schema
           = Some rec) /\
    match r with
    | inr _ =>
        day_records (config c) stream_schema iterator = Some recs /\
        state c' = singer_write_bookmark (state c) stream_name "start_date"
                     (datetime.strftime_bookmark iterator) /\
        log c' = log c ++ request (config c) iterator ::
                 map (fun rec => WriteRecord stream_name rec extraction_time) recs ++
                 [WriteBookmark stream_name "start_date"
                    (datetime.strftime_bookmark iterator);
                  WriteState (state c')]
    | inl e =>
        day_records (config c) stream_schema iterator = None /\
        (e = ApiError \/ e = SchemaError) /\
        state c' = state c /\
        log c' = log c ++ request (config c) iterator ::
                 map (fun rec => WriteRecord stream_name rec extraction_time) recs
    end.
Proof.
  intros Hn Hrun. unfold sync_day, day_records in *. run_m.
  destruct (sales_report _ _ _ _ _ _) as [rep_tsv|] eqn:Hapi; simpl in *.
  - destruct (write_lines _ _ _ _ _) as [[e|u] c1] eqn:Hlines;
      eapply write_lines_effect in Hlines; [| exact Hn | | exact Hn];
      destruct Hlines as (recs & Hall & Hfr & Hst & Hcnt & Hlog & Hr);
      injection Hrun as <- <-; exists recs; simpl in *.
    + destruct Hr as (-> & p & Hp & Hnone).
      split; [done|]. split; [done|]. split.
      { intros j rec Hj. exists rep_tsv.
        eapply Forall2_lookup_r in Hall as (p' & Hp' & Ht); [|exact Hj].
        apply lookup_take_Some in Hp' as [Hp' _].
        rewrite enumerate_lookup in Hp'.
        destruct (tsv_to_list rep_tsv !! j) as [line|]; [|done].
        injection Hp' as <-. eauto. }
      split; [|split; [by right|split; [done|by rewrite Hlog, <- app_assoc]]].
      destruct (mapM _ _) as [k|] eqn:Hk; [|done].
      apply mapM_Some in Hk.
      eapply Forall2_lookup_l in Hk as (y & _ & Hy); [|exact Hp]. congruence.
    + split; [done|]. split; [done|]. split.
      { intros j rec Hj. exists rep_tsv.
        eapply Forall2_lookup_r in Hall as (p' & Hp' & Ht); [|exact Hj].
        apply lookup_take_Some in Hp' as [Hp' _].
        rewrite enumerate_lookup in Hp'.
        destruct (tsv_to_list rep_tsv !! j) as [line|]; [|done].
        injection Hp' as <-. eauto. }
      rewrite Hr, firstn_all in Hall. apply mapM_Some in Hall.
      split; [done|]. rewrite Hst. split; [done|].
      rewrite Hlog, <- !app_assoc. simpl. done.
  - injection Hrun as <- <-. exists []. simpl.
    rewrite Z.add_0_r, insert_id by done.
    repeat split; auto. intros j rec Hj. done.
Qed.

(** *** From [main] to the loop *)

Lemma declare_streams_effect streams : forall c,
  declare_streams streams c =
  (inr tt,
   {| config := config c; state := state c; catalog := catalog c;
      stream_map := stream_map c;
      new_counts := foldl (fun m e => <[tap_stream_id e := 0]> m) (new_counts c) streams;
      updated_counts :=
        foldl (fun m e => <[tap_stream_id e := 0]> m) (updated_counts c) streams;
      log := log c ++ map schema_message streams |}).
Proof.
  induction streams as [|e streams IH]; intros c; simpl.
  - rewrite app_nil_r. by destruct c.
  - run_m. rewrite IH. simpl. by rewrite <- app_assoc.
Qed.

Lemma get_bookmark_eq name c :
  get_bookmark name c =
  (inr (default (start_date (config c))
          (singer_get_bookmark (state c) name "start_date")), c).
Proof.
  unfold get_bookmark. run_m.
  by destruct (singer_get_bookmark _ _ _).
Qed.

(** [main] up to the loop: the schemas are declared, the counters zeroed,
    the catalog entry and the bookmark looked up; a missing entry or a
    bookmark that does not parse ends the run there. *)
Lemma main_prelude cfg st cat :
  main cfg st cat =
  match build_stream_map cat !! "summary_sales_report" with
  | None => (inl TypeError, declared cfg st cat)
  | Some entry =>
      match datetime.strptime_bookmark (bookmark_text cfg st) with
      | None => (inl ValueError, declared cfg st cat)
      | Some bookmark =>
          match while_days "summary_sales_report" (schema entry) utils_now
                  bookmark (declared cfg st cat) with
          | (inl e, c') => (inl e, c')
          | (inr _, c') => (inr tt, emit (WriteState (state c')) c')
          end
      end
  end.
Proof.
  unfold main, sync, query_report, get_catalog_entry.
  cbv beta iota zeta delta [bind gets].
  rewrite declare_streams_effect. cbn [initial_context stream_map].
  rewrite bool_decide_eq_true_2 by done.
  cbv beta iota zeta delta [bind gets modify ret lift raise].
  cbn [with_stream_map stream_map catalog config state new_counts updated_counts log
       initial_context app].
  fold (zero_counts cat). fold (declared cfg st cat).
  destruct (build_stream_map cat !! _) as [entry|]; [|done].
  rewrite get_bookmark_eq. cbn [declared config state]. fold (bookmark_text cfg st).
  destruct (datetime.strptime_bookmark _) as [bookmark|]; [|done].
  destruct (while_days _ _ _ _ _) as [[e|[]] c']; done.
Qed.

Lemma zero_counts_lookup (streams : list catalog_entry) k :
  zero_counts streams !! k =
  if decide (k ∈ map tap_stream_id streams) then Some 0 else None.
Proof.
  unfold zero_counts.
  assert (forall (m : gmap string Z),
    foldl (fun m e => <[tap_stream_id e := 0]> m) m streams !! k =
    if decide (k ∈ map tap_stream_id streams) then Some 0 else m !! k) as H.
  { induction streams as [|e streams IH]; intros m; simpl.
    - done.
    - rewrite IH. destruct (decide (k ∈ map tap_stream_id streams)) as [Hin|Hin].
      + rewrite decide_True; [done|by right].
      + destruct (decide (k = tap_stream_id e)) as [->|Hne].
        * rewrite lookup_insert_eq, decide_True; [done|by left].
        * rewrite lookup_insert_ne by done.
          rewrite decide_False; [done|]. by intros [?|?]%elem_of_cons. }
  rewrite H. by rewrite lookup_empty.
Qed.

Lemma build_stream_map_Some (streams : list catalog_entry) k e :
  build_stream_map streams !! k = Some e -> tap_stream_id e = k /\ e ∈ streams.
Proof.
  unfold build_stream_map.
  assert (forall (m : gmap string catalog_entry),
    foldl (fun m s => <[tap_stream_id s := s]> m) m streams !! k = Some e ->
    (tap_stream_id e = k /\ e ∈ streams) \/ m !! k = Some e) as H.
  { induction streams as [|s streams IH]; intros m Hm; simpl in *; [by right|].
    apply IH in Hm as [[? ?]|Hm]; [left; split; [done|by right]|].
    destruct (decide (tap_stream_id s = k)) as [<-|Hne].
    - rewrite lookup_insert_eq in Hm. injection Hm as ->. left. split; [done|by left].
    - rewrite lookup_insert_ne in Hm by done. by right. }
  intros Hk. apply H in Hk as [?|Hk]; [done|]. by rewrite lookup_empty in Hk.
Qed.

Lemma declared_count cfg st cat entry :
  build_stream_map cat !! "summary_sales_report" = Some entry ->
  new_counts (declared cfg st cat) !! "summary_sales_report" = Some 0.
Proof.
  intros [Hid Hin]%build_stream_map_Some. simpl.
  rewrite zero_counts_lookup, decide_True; [done|].
  rewrite <- Hid. apply list_elem_of_fmap. eauto.
Qed.

(** *** The shape of every run *)

Lemma Context_eq (c1 c2 : Context) :
  config c1 = config c2 -> state c1 = state c2 -> catalog c1 = catalog c2 ->
  stream_map c1 = stream_map c2 -> new_counts c1 = new_counts c2 ->
  updated_counts c1 = updated_counts c2 -> log c1 = log c2 -> c1 = c2.
Proof. destruct c1, c2; simpl; intros; by subst. Qed.

Lemma days_S b n :
  days b (S n) = days b n ++ [datetime.plus_days b (Z.of_nat n)].
Proof. unfold days. by rewrite seq_S, map_app. Qed.

Lemma days_length b n : length (days b n) = n.
Proof. unfold days. by rewrite length_map, length_seq. Qed.

Lemma days_lookup b n i :
  (i < n)%nat -> days b n !! i = Some (datetime.plus_days b (Z.of_nat i)).
Proof.
  intros Hi. unfold days. rewrite list_lookup_fmap, lookup_seq_lt by done. done.
Qed.

Lemma elem_of_days b n d :
  d ∈ days b n <-> exists i, (i < n)%nat /\ d = datetime.plus_days b (Z.of_nat i).
Proof.
  unfold days. rewrite list_elem_of_fmap. split.
  - intros (i & -> & Hi). apply elem_of_seq in Hi. exists i. split; [lia|done].
  - intros (i & Hi & ->). exists i. split; [done|]. apply elem_of_seq. lia.
Qed.

Lemma plus_days_0 d : datetime.plus_days d 0 = d.
Proof. destruct d. unfold datetime.plus_days. simpl. by rewrite Z.add_0_r. Qed.

Lemma plus_days_plus d a b :
  datetime.plus_days (datetime.plus_days d a) b = datetime.plus_days d (a + b).
Proof. unfold datetime.plus_days. simpl. f_equal. lia. Qed.

Lemma add_days_Some d n d' :
  datetime.add_days d n = Some d' ->
  d' = datetime.plus_days d n /\ 1 <= datetime.ordinal d + n <= datetime.MAXORDINAL.
Proof.
  unfold datetime.add_days. destruct (_ && _) eqn:H; [|done].
  intros [= <-]. split; [done|]. lia.
Qed.

Lemma add_days_None d n :
  datetime.add_days d n = None ->
  datetime.ordinal d + n < 1 \/ datetime.MAXORDINAL < datetime.ordinal d + n.
Proof.
  unfold datetime.add_days. destruct (_ && _) eqn:H; [done|]. intros _. lia.
Qed.

Lemma bookmarked_twice st d d' :
  singer_write_bookmark (bookmarked st d) "summary_sales_report" "start_date"
    (datetime.strftime_bookmark d') = bookmarked st d'.
Proof.
  unfold bookmarked, singer_write_bookmark.
  rewrite lookup_insert_eq, insert_insert_eq. simpl. by rewrite insert_insert_eq.
Qed.

Lemma completed_0 cfg st cat entry b :
  build_stream_map cat !! "summary_sales_report" = Some entry ->
  completed cfg st cat (schema entry) b 0 = declared cfg st cat.
Proof.
  intros He. apply Context_eq; simpl; try done.
  - apply insert_id. by apply (declared_count cfg st) in He.
  - by rewrite app_nil_r.
Qed.

Lemma sync_day_completed cfg st cat ss b n u c' :
  sync_day "summary_sales_report" ss utils_now
    (datetime.plus_days b (Z.of_nat n)) (completed cfg st cat ss b n) = (inr u, c') ->
  is_Some (day_records cfg ss (datetime.plus_days b (Z.of_nat n))) /\
  c' = completed cfg st cat ss b (S n).
Proof.
  intros Hday.
  eapply sync_day_effect in Hday; [|simpl; apply lookup_insert_eq].
  destruct Hday as (recs & (Hcfg & Hcat & Hmap & Hupd) & Hcnt & _ & Hrecs & Hst & Hlog).
  simpl in Hrecs. split; [by eexists|].
  assert (records_of cfg ss (datetime.plus_days b (Z.of_nat n)) = recs) as Hof.
  { unfold records_of. by rewrite Hrecs. }
  assert (state c' = bookmarked st (datetime.plus_days b (Z.of_nat n))) as Hst'.
  { rewrite Hst. simpl. destruct (last (days b n)); [apply bookmarked_twice|done]. }
  apply Context_eq;
    cbn [completed config state catalog stream_map new_counts updated_counts log];
    try done.
  - by rewrite Hst', days_S, last_snoc.
  - rewrite Hcnt. cbn [completed new_counts]. rewrite insert_insert_eq. f_equal.
    rewrite days_S, map_app, concat_app, length_app. cbn [map concat].
    rewrite Hof, app_nil_r. lia.
  - rewrite Hlog, Hst'. cbn [completed log config].
    rewrite days_S, map_app, concat_app, <- app_assoc. cbn [map concat].
    rewrite app_nil_r. unfold day_block. by rewrite Hof.
Qed.

(** Every run that finds its catalog entry and parses its bookmark
    completes some number [n] of days, each of them due and each of them
    fetched and transformed without an exception, and then ends in one of the
    three ways of [run_end]. *)
Theorem main_run cfg st cat entry b :
  build_stream_map cat !! "summary_sales_report" = Some entry ->
  datetime.strptime_bookmark (bookmark_text cfg st) = Some b ->
  exists n,
    (forall d, d ∈ days b n ->
       due d /\ is_Some (day_records cfg (schema entry) d)) /\
    run_end cfg st cat (schema entry) b n (main cfg st cat).
Proof.
  intros He Hb. rewrite main_prelude, He, Hb.
  set (ss := schema entry).
  pose (I := fun (it : datetime.t) (c : Context) =>
    exists n, it = datetime.plus_days b (Z.of_nat n) /\
              c = completed cfg st cat ss b n /\
              forall d, d ∈ days b n -> due d /\ is_Some (day_records cfg ss d)).
  pose (Q := fun (res : (exn + unit) * Context) =>
    exists n, (forall d, d ∈ days b n -> due d /\ is_Some (day_records cfg ss d)) /\
      run_end cfg st cat ss b n
        (match res with
         | (inl e, c') => (inl e, c')
         | (inr _, c') => (inr tt, emit (WriteState (state c')) c')
         end)).
  enough (Q (while_days "summary_sales_report" ss utils_now b (declared cfg st cat)))
    as HQ by exact HQ.
  apply (while_days_rule _ _ _ I Q).
  - intros it c (n & -> & -> & Hdays) Hovf. exists n. split; [done|].
    by apply end_overflow.
  - intros it c next (n & -> & -> & Hdays) Hnext Hle. exists n. split; [done|].
    by eapply end_done.
  - intros it c next e c' (n & -> & -> & Hdays) Hnext Hle Hday. exists n.
    split; [done|].
    eapply sync_day_effect in Hday; [|simpl; apply lookup_insert_eq].
    destruct Hday as (recs & Hfr & Hcnt & Hrecs & Hnone & He' & Hst & Hlog).
    eapply (end_failed _ _ _ _ _ _ e recs); try done.
    + by exists next.
    + rewrite Hcnt. simpl. rewrite insert_insert_eq. f_equal. lia.
  - intros it c next u c' (n & -> & -> & Hdays) Hnext Hle Hday.
    apply sync_day_completed in Hday as [Hsome ->].
    exists (S n). split; [|split; [done|]].
    + apply add_days_Some in Hnext as [-> _]. rewrite plus_days_plus. f_equal. lia.
    + intros d. rewrite days_S, elem_of_app, list_elem_of_singleton.
      intros [Hd| ->]; [by apply Hdays|]. split; [by exists next|done].
  - exists 0%nat. split; [by rewrite plus_days_0|]. split.
    + symmetry. by eapply completed_0.
    + intros d Hd. by apply elem_of_nil in Hd.
Qed.

(** *** Facts about dates *)

Lemma leb_true_ordinal a b :
  datetime.leb a b = true -> datetime.ordinal a <= datetime.ordinal b.
Proof.
  unfold datetime.leb. simpl. intros H.
  apply orb_true_iff in H as [H|H];
    [apply Z.ltb_lt in H | apply andb_true_iff in H as [H _]; apply Z.eqb_eq in H];
    lia.
Qed.

Lemma leb_ordinal_lt a b :
  datetime.ordinal a < datetime.ordinal b -> datetime.leb a b = true.
Proof.
  intros H. unfold datetime.leb. simpl.
  apply orb_true_iff. left. by apply Z.ltb_lt.
Qed.

Lemma lex_leb_zero a b :
  Forall (fun x => x = 0) a -> Forall (fun y => 0 <= y) b -> datetime.lex_leb a b = true.
Proof.
  intros Ha. revert b. induction Ha as [|x a -> Ha IH]; intros [|y b] Hb; simpl; try done.
  inversion Hb as [|? ? Hy Hb']; subst.
  destruct (Z.ltb_spec 0 y); [done|].
  assert (y = 0) as -> by lia. simpl. by apply IH.
Qed.

(** A midnight is not after any time of the same day. *)
Lemma leb_midnight a b :
  datetime.midnight a -> datetime.valid b ->
  datetime.ordinal a = datetime.ordinal b -> datetime.leb a b = true.
Proof.
  intros (Hh & Hm & Hs & Hu) (_ & ? & ? & ? & ?) Hord.
  unfold datetime.leb, datetime.fields.
  rewrite Hord, Hh, Hm, Hs, Hu.
  change (datetime.lex_leb (?x :: ?l) (?x :: ?k))
    with ((x <? x) || ((x =? x) && datetime.lex_leb l k)).
  rewrite Z.eqb_refl, Z.ltb_irrefl.
  apply lex_leb_zero; repeat constructor; lia.
Qed.

Lemma is_digit_val c : datetime.is_digit c = true -> 0 <= datetime.digit_val c <= 9.
Proof.
  unfold datetime.is_digit, datetime.digit_val.
  intros [H1 H2]%andb_true_iff.
  apply Nat.leb_le in H1, H2. lia.
Qed.

Lemma two_digits_elem P s v r :
  (v, r) ∈ datetime.two_digits P s ->
  exists a b, 0 <= a <= 9 /\ 0 <= b <= 9 /\ P a b = true /\ v = 10 * a + b.
Proof.
  unfold datetime.two_digits. destruct s as [|c1 [|c2 s]]; try by intros ?%elem_of_nil.
  destruct (_ && _) eqn:H; [|by intros ?%elem_of_nil].
  intros [= -> ->]%list_elem_of_singleton.
  apply andb_true_iff in H as [[H1 H2]%andb_true_iff HP].
  exists (datetime.digit_val c1), (datetime.digit_val c2).
  auto using is_digit_val.
Qed.

Lemma one_digit_elem P s v r :
  (v, r) ∈ datetime.one_digit P s -> 0 <= v <= 9 /\ P v = true.
Proof.
  unfold datetime.one_digit. destruct s as [|c s]; [by intros ?%elem_of_nil|].
  destruct (_ && _) eqn:H; [|by intros ?%elem_of_nil].
  intros [= -> ->]%list_elem_of_singleton.
  apply andb_true_iff in H as [H1 HP]. auto using is_digit_val.
Qed.

Ltac field_range :=
  repeat match goal with
  | H : _ ∈ _ ++ _ |- _ => apply elem_of_app in H as [H|H]
  | H : _ ∈ datetime.two_digits _ _ |- _ =>
      apply two_digits_elem in H as (? & ? & ? & ? & ? & ->)
  | H : _ ∈ datetime.one_digit _ _ |- _ => apply one_digit_elem in H as [? ?]
  | H : _ ∈ mbind _ _ |- _ => apply list_elem_of_bind in H as ([? ?] & ? & ?)
  | H : _ ∈ [_] |- _ => apply list_elem_of_singleton in H; injection H as -> ->
  | H : _ && _ = true |- _ => apply andb_true_iff in H as [? ?]
  | H : (_ =? _) = true |- _ => apply Z.eqb_eq in H
  | H : (_ <=? _) = true |- _ => apply Z.leb_le in H
  end; try lia.

Lemma re_Y_range s v r : (v, r) ∈ datetime.re_Y s -> 0 <= v <= 9999.
Proof. unfold datetime.re_Y. intros H. field_range. Qed.

Lemma re_m_range s v r : (v, r) ∈ datetime.re_m s -> 1 <= v <= 12.
Proof. unfold datetime.re_m. intros H. field_range. Qed.

Lemma re_d_range s v r : (v, r) ∈ datetime.re_d s -> 1 <= v <= 31.
Proof. unfold datetime.re_d. intros H. field_range. Qed.

Lemma re_H_range s v r : (v, r) ∈ datetime.re_H s -> 0 <= v <= 23.
Proof. unfold datetime.re_H. intros H. field_range. Qed.

Lemma re_M_range s v r : (v, r) ∈ datetime.re_M s -> 0 <= v <= 59.
Proof. unfold datetime.re_M. intros H. field_range. Qed.

Lemma re_S_range s v r : (v, r) ∈ datetime.re_S s -> 0 <= v <= 61.
Proof. unfold datetime.re_S. intros H. field_range. Qed.

Lemma ymd2ord_range y m d :
  1 <= y <= 9999 -> 1 <= m <= 12 -> 1 <= d <= datetime.days_in_month y m ->
  1 <= datetime.ymd2ord y m d <= datetime.MAXORDINAL.
Proof.
  intros Hy Hm Hd.
  unfold datetime.ymd2ord, datetime.days_before_year, datetime.days_before_month,
    datetime.days_in_month, datetime.is_leap, datetime.MAXORDINAL in *.
  assert (m = 1 \/ m = 2 \/ m = 3 \/ m = 4 \/ m = 5 \/ m = 6 \/ m = 7 \/ m = 8 \/
          m = 9 \/ m = 10 \/ m = 11 \/ m = 12) as Hcase by lia.
  destruct (Z.eqb_spec (y mod 4) 0) as [H4|H4];
  destruct (Z.eqb_spec (y mod 100) 0) as [H100|H100];
  destruct (Z.eqb_spec (y mod 400) 0) as [H400|H400];
  repeat (destruct Hcase as [->|Hcase]); try subst m; simpl in *;
  Z.div_mod_to_equations; lia.
Qed.

Lemma re_bookmark_range s yy mo dd hh mi ss rest :
  ((yy, mo, dd, hh, mi, ss), rest) ∈ datetime.re_bookmark s ->
  0 <= yy <= 9999 /\ 1 <= mo <= 12 /\ 1 <= dd <= 31 /\
  0 <= hh <= 23 /\ 0 <= mi <= 59 /\ 0 <= ss <= 61.
Proof.
  unfold datetime.re_bookmark. intros H.
  repeat match goal with
  | H : _ ∈ mbind _ _ |- _ => apply list_elem_of_bind in H as ([? ?] & H & ?)
  | H : _ ∈ [_] |- _ => apply list_elem_of_singleton in H; injection H as -> -> -> -> -> -> ->
  end.
  repeat match goal with
  | H : _ ∈ datetime.re_Y _ |- _ => apply re_Y_range in H
  | H : _ ∈ datetime.re_m _ |- _ => apply re_m_range in H
  | H : _ ∈ datetime.re_d _ |- _ => apply re_d_range in H
  | H : _ ∈ datetime.re_H _ |- _ => apply re_H_range in H
  | H : _ ∈ datetime.re_M _ |- _ => apply re_M_range in H
  | H : _ ∈ datetime.re_S _ |- _ => apply re_S_range in H
  end.
  done.
Qed.

(** [strptime] only returns dates and times a [datetime] can hold, with no
    fraction of a second. *)
Lemma strptime_valid s d :
  datetime.strptime_bookmark s = Some d ->
  datetime.valid d /\ datetime.microsecond d = 0.
Proof.
  unfold datetime.strptime_bookmark.
  destruct (datetime.re_bookmark s) as [|[[[[[[yy mo] dd] hh] mi] ss] rest] l] eqn:E;
    [done|].
  assert (((yy, mo, dd, hh, mi, ss), rest) ∈ datetime.re_bookmark s) as Hin
    by (rewrite E; left).
  apply re_bookmark_range in Hin as (? & ? & ? & ? & ? & ?).
  destruct (_ && _) eqn:Hok; [|done]. intros [= <-].
  apply andb_true_iff in Hok as [[[_ Hy%Z.leb_le]%andb_true_iff Hd%Z.leb_le]%andb_true_iff
                                   Hs%Z.leb_le].
  unfold datetime.valid. simpl.
  split; [|done]. split; [apply ymd2ord_range; lia|lia].
Qed.

(** *** Reading the log of a run *)

Lemma omap_map_None {A B C} (f : B -> option C) (g : A -> B) l :
  (forall x, f (g x) = None) -> omap f (map g l) = [].
Proof. intros H. induction l; simpl; [done|]. by rewrite H. Qed.

Lemma omap_map_Some {A B C} (f : B -> option C) (g : A -> B) (h : A -> C) l :
  (forall x, f (g x) = Some (h x)) -> omap f (map g l) = map h l.
Proof. intros H. induction l; simpl; [done|]. rewrite H. simpl. by f_equal. Qed.

Lemma fetched_app l1 l2 : fetched (l1 ++ l2) = fetched l1 ++ fetched l2.
Proof. apply omap_app. Qed.

Lemma records_written_app l1 l2 :
  records_written (l1 ++ l2) = records_written l1 ++ records_written l2.
Proof. apply omap_app. Qed.

Lemma bookmarks_written_app l1 l2 :
  bookmarks_written (l1 ++ l2) = bookmarks_written l1 ++ bookmarks_written l2.
Proof. apply omap_app. Qed.

Lemma states_written_app l1 l2 :
  states_written (l1 ++ l2) = states_written l1 ++ states_written l2.
Proof. apply omap_app. Qed.

Lemma schemas_written_app l1 l2 :
  schemas_written (l1 ++ l2) = schemas_written l1 ++ schemas_written l2.
Proof. apply omap_app. Qed.

Ltac read_block :=
  intros; unfold fetched, records_written, bookmarks_written, states_written,
    schemas_written, day_block, request, schema_message;
  cbn [omap list_omap]; rewrite ?omap_app;
  try (rewrite omap_map_None by done);
  try (rewrite (omap_map_Some _ _ (fun x => x)), map_id by done);
  try done.

Lemma fetched_block cfg st ss d :
  fetched (day_block cfg st ss d) = [datetime.strftime_day d].
Proof. read_block. Qed.

Lemma bookmarks_written_block cfg st ss d :
  bookmarks_written (day_block cfg st ss d) = [datetime.strftime_bookmark d].
Proof. read_block. Qed.

Lemma records_written_block cfg st ss d :
  records_written (day_block cfg st ss d) = records_of cfg ss d.
Proof. read_block. by rewrite app_nil_r. Qed.

Lemma schemas_written_block cfg st ss d :
  schemas_written (day_block cfg st ss d) = [].
Proof. read_block. Qed.

Lemma fetched_schemas (cat : list catalog_entry) :
  fetched (map schema_message cat) = [].
Proof. by apply omap_map_None. Qed.

Lemma records_written_schemas (cat : list catalog_entry) :
  records_written (map schema_message cat) = [].
Proof. by apply omap_map_None. Qed.

Lemma bookmarks_written_schemas (cat : list catalog_entry) :
  bookmarks_written (map schema_message cat) = [].
Proof. by apply omap_map_None. Qed.

Lemma states_written_schemas (cat : list catalog_entry) :
  states_written (map schema_message cat) = [].
Proof. by apply omap_map_None. Qed.

Lemma schemas_written_schemas (cat : list catalog_entry) :
  schemas_written (map schema_message cat) = map tap_stream_id cat.
Proof. by apply omap_map_Some. Qed.

Lemma fetched_blocks cfg st ss ds :
  fetched (concat (map (day_block cfg st ss) ds)) = map datetime.strftime_day ds.
Proof.
  induction ds as [|d ds IH]; [done|]. cbn [map concat].
  unfold fetched in *. rewrite omap_app, IH.
  change (omap _ (day_block cfg st ss d)) with (fetched (day_block cfg st ss d)).
  by rewrite fetched_block.
Qed.

Lemma bookmarks_written_blocks cfg st ss ds :
  bookmarks_written (concat (map (day_block cfg st ss) ds))
  = map datetime.strftime_bookmark ds.
Proof.
  induction ds as [|d ds IH]; [done|]. cbn [map concat].
  unfold bookmarks_written in *. rewrite omap_app, IH.
  change (omap _ (day_block cfg st ss d))
    with (bookmarks_written (day_block cfg st ss d)).
  by rewrite bookmarks_written_block.
Qed.

Lemma records_written_blocks cfg st ss ds :
  records_written (concat (map (day_block cfg st ss) ds))
  = concat (map (records_of cfg ss) ds).
Proof.
  induction ds as [|d ds IH]; [done|]. cbn [map concat].
  unfold records_written in *. rewrite omap_app, IH.
  change (omap _ (day_block cfg st ss d))
    with (records_written (day_block cfg st ss d)).
  by rewrite records_written_block.
Qed.

Lemma schemas_written_blocks cfg st ss ds :
  schemas_written (concat (map (day_block cfg st ss) ds)) = [].
Proof.
  induction ds as [|d ds IH]; [done|]. cbn [map concat].
  unfold schemas_written in *. rewrite omap_app, IH.
  change (omap _ (day_block cfg st ss d))
    with (schemas_written (day_block cfg st ss d)).
  by rewrite schemas_written_block.
Qed.

Lemma run_end_log cfg st cat ss b n r c' :
  run_end cfg st cat ss b n (r, c') ->
  exists tail,
    log_tail cfg st cat ss b n r tail /\
    log c' = map schema_message cat ++
             concat (map (day_block cfg st ss) (days b n)) ++ tail /\
    state c' = state (completed cfg st cat ss b n) /\
    config c' = cfg /\ catalog c' = cat /\
    updated_counts c' = zero_counts cat /\
    new_counts c' =
      <["summary_sales_report" :=
          Z.of_nat (length (concat (map (records_of cfg ss) (days b n)))
                    + length (records_written tail))]> (zero_counts cat).
Proof.
  intros Hend. inversion Hend as [next Hnext Hle c Heq| Hovf Heq
    | e recs c2 d c Hdue Hnone He Hrecs Hfr Hst Hcnt Hlog Heq]; subst.
  - exists [WriteState (state (completed cfg st cat ss b n))].
    split; [apply tail_done; intros (next' & Hn' & Hle'); congruence|].
    subst c.
    cbn [emit completed log state config catalog updated_counts new_counts].
    by rewrite <- app_assoc, Nat.add_0_r.
  - exists []. split; [by apply tail_overflow|].
    cbn [completed log state config catalog updated_counts new_counts].
    by rewrite !app_nil_r, Nat.add_0_r.
  - destruct Hfr as (Hcfg & Hcat & Hmap & Hupd).
    eexists. split; [by eapply (tail_failed _ _ _ _ _ _ e recs)|].
    rewrite Hlog, Hst, Hcfg, Hcat, Hupd, Hcnt. subst c.
    cbn [completed log]. rewrite <- app_assoc.
    repeat split; try done. f_equal. f_equal. f_equal.
    unfold records_written. cbn [omap list_omap request].
    by rewrite (omap_map_Some _ _ (fun x => x)), map_id.
Qed.

Lemma main_shape cfg st cat entry b :
  build_stream_map cat !! "summary_sales_report" = Some entry ->
  datetime.strptime_bookmark (bookmark_text cfg st) = Some b ->
  exists n tail,
    (forall d, d ∈ days b n -> due d /\ is_Some (day_records cfg (schema entry) d)) /\
    log_tail cfg st cat (schema entry) b n (main cfg st cat).1 tail /\
    log (main cfg st cat).2 =
      map schema_message cat ++
      concat (map (day_block cfg st (schema entry)) (days b n)) ++ tail /\
    state (main cfg st cat).2 = state (completed cfg st cat (schema entry) b n) /\
    config (main cfg st cat).2 = cfg /\ catalog (main cfg st cat).2 = cat /\
    updated_counts (main cfg st cat).2 = zero_counts cat /\
    new_counts (main cfg st cat).2 =
      <["summary_sales_report" :=
          Z.of_nat (length (concat (map (records_of cfg (schema entry)) (days b n)))
                    + length (records_written tail))]> (zero_counts cat).
Proof.
  intros He Hb. destruct (main_run cfg st cat entry b He Hb) as (n & Hdays & Hend).
  destruct (main cfg st cat) as [r c'].
  apply run_end_log in Hend as (tail & Htail & Hrest).
  exists n, tail. auto.
Qed.

(** A run that does not reach the loop leaves the context as [sync]'s first
    loop built it. *)
Lemma main_stops_early cfg st cat :
  build_stream_map cat !! "summary_sales_report" = None \/
  datetime.strptime_bookmark (bookmark_text cfg st) = None ->
  exists e, main cfg st cat = (inl e, declared cfg st cat) /\
            (e = TypeError \/ e = ValueError).
Proof.
  intros H. rewrite main_prelude.
  destruct (build_stream_map cat !! _) as [entry|]; [|eauto].
  destruct H as [? | ->]; [done|eauto].
Qed.

(** *** The calendar and the bookmark format *)

(** The year of a position in the 400-year cycle, as [ord2ymd] splits it. *)
Lemma is_leap_cycle n400 n100 n4 n1 :
  0 <= n100 <= 3 -> 0 <= n4 <= 24 -> 0 <= n1 <= 3 ->
  datetime.is_leap (n400 * 400 + 1 + n100 * 100 + n4 * 4 + n1) =
  (n1 =? 3) && (negb (n4 =? 24) || (n100 =? 3)).
Proof.
  intros H100 H4 H1. unfold datetime.is_leap.
  destruct (Z.eqb_spec n1 3), (Z.eqb_spec n4 24), (Z.eqb_spec n100 3);
  destruct (Z.eqb_spec ((n400 * 400 + 1 + n100 * 100 + n4 * 4 + n1) mod 4) 0);
  destruct (Z.eqb_spec ((n400 * 400 + 1 + n100 * 100 + n4 * 4 + n1) mod 100) 0);
  destruct (Z.eqb_spec ((n400 * 400 + 1 + n100 * 100 + n4 * 4 + n1) mod 400) 0);
  simpl; try reflexivity; exfalso; Z.div_mod_to_equations; lia.
Qed.

Lemma days_before_year_cycle n400 n100 n4 n1 :
  0 <= n100 <= 3 -> 0 <= n4 <= 24 -> 0 <= n1 <= 3 ->
  datetime.days_before_year (n400 * 400 + 1 + n100 * 100 + n4 * 4 + n1) =
  n400 * 146097 + n100 * 36524 + n4 * 1461 + n1 * 365.
Proof.
  intros H100 H4 H1. unfold datetime.days_before_year.
  Z.div_mod_to_equations. lia.
Qed.

Lemma ord2ymd_spec n :
  1 <= n ->
  exists y m d,
    datetime.ord2ymd n = (y, m, d) /\
    1 <= y /\ 1 <= m <= 12 /\ 1 <= d <= datetime.days_in_month y m /\
    datetime.ymd2ord y m d = n.
Proof.
  intros Hn. unfold datetime.ord2ymd, datetime.DI400Y, datetime.DI100Y, datetime.DI4Y.
  set (n0 := n - 1).
  set (n400 := n0 / 146097). set (r400 := n0 mod 146097).
  set (n100 := r400 / 36524). set (r100 := r400 mod 36524).
  set (n4 := r100 / 1461). set (r4 := r100 mod 1461).
  set (n1 := r4 / 365). set (r1 := r4 mod 365).
  assert (0 <= n400 /\ 0 <= n100 <= 4 /\ 0 <= n4 <= 24 /\ 0 <= n1 <= 4 /\
          0 <= r1 < 365 /\
          n = n400 * 146097 + n100 * 36524 + n4 * 1461 + n1 * 365 + r1 + 1 /\
          (n100 = 4 -> n4 = 0 /\ n1 = 0 /\ r1 = 0) /\
          (n1 = 4 -> r1 = 0) /\
          (n4 = 24 -> n100 <> 3 -> n1 <= 3 /\ n1 * 365 + r1 < 1460))
    as (H400 & H100 & H4 & H1 & Hr1 & Hsum & Hend100 & Hend1 & Hshort).
  { subst n400 r400 n100 r100 n4 r4 n1 r1 n0. Z.div_mod_to_equations. lia. }
  clearbody n400 n100 n4 n1 r1. clear r400 r100 r4 n0.
  unfold datetime.ymd2ord, datetime.days_in_month, datetime.days_before_month.
  destruct (Z.eqb_spec n1 4) as [E1|E1]; [|destruct (Z.eqb_spec n100 4) as [E100|E100]];
    cbn [orb].
  - (* the last day of a four-year cycle *)
    assert (r1 = 0) as -> by auto. subst n1.
    assert (n100 <> 4) by (intros E; destruct (Hend100 E); lia).
    exists (n400 * 400 + 1 + n100 * 100 + n4 * 4 + 4 - 1), 12, 31.
    replace (n400 * 400 + 1 + n100 * 100 + n4 * 4 + 4 - 1)
      with (n400 * 400 + 1 + n100 * 100 + n4 * 4 + 3) by lia.
    split; [reflexivity|].
    rewrite is_leap_cycle, days_before_year_cycle by lia. simpl.
    destruct (Z.eqb_spec n4 24), (Z.eqb_spec n100 3); simpl; lia.
  - (* the last day of a four-hundred-year cycle *)
    destruct (Hend100 E100) as (-> & -> & ->). subst n100.
    exists (n400 * 400 + 1 + 4 * 100 + 0 * 4 + 0 - 1), 12, 31.
    split; [reflexivity|].
    replace (n400 * 400 + 1 + 4 * 100 + 0 * 4 + 0 - 1)
      with (n400 * 400 + 1 + 3 * 100 + 24 * 4 + 3) by lia.
    rewrite is_leap_cycle, days_before_year_cycle by lia. simpl. lia.
  - (* any other day: the month is estimated, then corrected *)
    assert (0 <= n100 <= 3 /\ 0 <= n1 <= 3) as [H100' H1'] by lia.
    rewrite Z.shiftr_div_pow2 by lia. change (2 ^ 5) with 32.
    set (leapyear := (n1 =? 3) && (negb (n4 =? 24) || (n100 =? 3))).
    assert (datetime.is_leap (n400 * 400 + 1 + n100 * 100 + n4 * 4 + n1) = leapyear)
      as Hleap by (by apply is_leap_cycle).
    assert (Hdby := days_before_year_cycle n400 n100 n4 n1 H100' H4 H1').
    set (year := n400 * 400 + 1 + n100 * 100 + n4 * 4 + n1) in *.
    assert (1 <= year) by (subst year; lia).
    set (month := (r1 + 50) / 32).
    assert (month = 1 \/ month = 2 \/ month = 3 \/ month = 4 \/ month = 5 \/
            month = 6 \/ month = 7 \/ month = 8 \/ month = 9 \/ month = 10 \/
            month = 11 \/ month = 12) as Hmonth
      by (subst month; Z.div_mod_to_equations; lia).
    assert (32 * month <= r1 + 50 < 32 * month + 32) as Hest
      by (subst month; Z.div_mod_to_equations; lia).
    clearbody month year leapyear.
    repeat (destruct Hmonth as [->|Hmonth]); try subst month;
      destruct leapyear; simpl;
      match goal with |- context [r1 <? ?b] => destruct (Z.ltb_spec r1 b) end;
      simpl; (eexists _, _, _; split; [reflexivity|]);
      rewrite ?Hleap, ?Hdby; simpl; lia.
Qed.

Lemma ord2ymd_year_bound n y m d :
  datetime.ord2ymd n = (y, m, d) -> 1 <= n <= datetime.MAXORDINAL -> 1 <= y <= 9999.
Proof.
  intros E Hn. destruct (ord2ymd_spec n) as (y' & m' & d' & E' & Hy & Hm & Hd & Hord); [lia|].
  rewrite E in E'. injection E' as <- <- <-. split; [done|].
  destruct (Z.le_gt_cases y 9999) as [|Hbig]; [done|exfalso].
  unfold datetime.ymd2ord, datetime.days_before_year, datetime.days_before_month,
    datetime.MAXORDINAL in *.
  assert (0 <= datetime.DAYS_BEFORE_MONTH m).
  { assert (m = 1 \/ m = 2 \/ m = 3 \/ m = 4 \/ m = 5 \/ m = 6 \/ m = 7 \/ m = 8 \/
            m = 9 \/ m = 10 \/ m = 11 \/ m = 12) as Hc by lia.
    repeat (destruct Hc as [->|Hc]); try subst m; simpl; lia. }
  destruct ((2 <? m) && datetime.is_leap y); Z.div_mod_to_equations; lia.
Qed.

(** Formatting a date and parsing it back. *)

Lemma digit_is_digit n : datetime.is_digit (datetime.digit n) = true.
Proof.
  unfold datetime.digit.
  assert (n mod 10 = 0 \/ n mod 10 = 1 \/ n mod 10 = 2 \/ n mod 10 = 3 \/ n mod 10 = 4 \/
          n mod 10 = 5 \/ n mod 10 = 6 \/ n mod 10 = 7 \/ n mod 10 = 8 \/ n mod 10 = 9)
    as H by (Z.div_mod_to_equations; lia).
  repeat (destruct H as [->|H]); try rewrite H; reflexivity.
Qed.

Lemma digit_val_digit n : datetime.digit_val (datetime.digit n) = n mod 10.
Proof.
  unfold datetime.digit.
  assert (n mod 10 = 0 \/ n mod 10 = 1 \/ n mod 10 = 2 \/ n mod 10 = 3 \/ n mod 10 = 4 \/
          n mod 10 = 5 \/ n mod 10 = 6 \/ n mod 10 = 7 \/ n mod 10 = 8 \/ n mod 10 = 9)
    as H by (Z.div_mod_to_equations; lia).
  repeat (destruct H as [->|H]); try rewrite H; reflexivity.
Qed.

Lemma two_digits_pad2 P v rest :
  0 <= v <= 99 ->
  datetime.two_digits P (datetime.pad2 v +:+ rest) =
  if P (v / 10) (v mod 10) then [(v, rest)] else [].
Proof.
  intros Hv.
  change (datetime.pad2 v +:+ rest)
    with (String (datetime.digit (v / 10)) (String (datetime.digit v) rest)).
  unfold datetime.two_digits.
  rewrite !digit_is_digit, !digit_val_digit. cbn [andb].
  replace (v / 10 mod 10) with (v / 10) by (Z.div_mod_to_equations; lia).
  replace (10 * (v / 10) + v mod 10) with v by (Z.div_mod_to_equations; lia).
  done.
Qed.

Lemma append_cons c a b : String c a +:+ b = String c (a +:+ b).
Proof. reflexivity. Qed.

Lemma append_nil b : "" +:+ b = b.
Proof. reflexivity. Qed.

Lemma digit_mod a b : a mod 10 = b mod 10 -> datetime.digit a = datetime.digit b.
Proof. unfold datetime.digit. by intros ->. Qed.

Lemma pad4_pad2 y : datetime.pad4 y = datetime.pad2 (y / 100) +:+ datetime.pad2 (y mod 100).
Proof.
  unfold datetime.pad4, datetime.pad2. rewrite !append_cons, append_nil.
  rewrite (digit_mod (y / 1000) (y / 100 / 10)) by (Z.div_mod_to_equations; lia).
  rewrite (digit_mod (y / 10) (y mod 100 / 10)) by (Z.div_mod_to_equations; lia).
  rewrite (digit_mod y (y mod 100)) by (Z.div_mod_to_equations; lia).
  done.
Qed.

Lemma string_app_assoc (a b c : string) : (a +:+ b) +:+ c = a +:+ (b +:+ c).
Proof. induction a as [|x a IH]; [done|]. by rewrite !append_cons, IH. Qed.

Lemma bind_cons {A B} (f : A -> list B) x l : (x :: l) ≫= f = f x ++ (l ≫= f).
Proof. reflexivity. Qed.

Lemma bind_one {A B} (f : A -> list B) x : [x] ≫= f = f x.
Proof. rewrite bind_cons. apply app_nil_r. Qed.

Lemma re_Y_pad4 y rest :
  0 <= y <= 9999 -> datetime.re_Y (datetime.pad4 y +:+ rest) = [(y, rest)].
Proof.
  intros Hy. unfold datetime.re_Y.
  rewrite pad4_pad2, string_app_assoc.
  rewrite two_digits_pad2 by (Z.div_mod_to_equations; lia). cbv beta.
  rewrite bind_one.
  rewrite two_digits_pad2 by (Z.div_mod_to_equations; lia). cbv beta.
  rewrite bind_one.
  do 2 f_equal. Z.div_mod_to_equations; lia.
Qed.

Lemma starts_bind {A B} (f : A -> list B) l x y :
  starts l x -> starts (f x) y -> starts (l ≫= f) y.
Proof.
  intros [tl ->] [tl' E]. rewrite bind_cons, E. by eexists.
Qed.

Lemma starts_one {A} (x : A) : starts [x] x.
Proof. by exists []. Qed.

Ltac bool_hyps :=
  repeat match goal with
  | H : _ && _ = true |- _ => apply andb_true_iff in H as [? ?]
  | H : _ && _ = false |- _ => apply andb_false_iff in H as [H|H]
  | H : (_ =? _) = true |- _ => apply Z.eqb_eq in H
  | H : (_ =? _) = false |- _ => apply Z.eqb_neq in H
  | H : (_ <=? _) = true |- _ => apply Z.leb_le in H
  | H : (_ <=? _) = false |- _ => apply Z.leb_gt in H
  end.

Ltac first_alternative :=
  rewrite !two_digits_pad2 by lia; cbv beta;
  repeat match goal with
  | |- starts ((if ?b then _ else _) ++ _) _ =>
      let E := fresh "E" in
      destruct b eqn:E; [by eexists|rewrite app_nil_l]
  | |- starts (if ?b then _ else _) _ =>
      let E := fresh "E" in
      destruct b eqn:E; [by eexists|]
  end;
  exfalso; bool_hyps; Z.div_mod_to_equations; lia.

Lemma starts_re_m v rest :
  1 <= v <= 12 -> starts (datetime.re_m (datetime.pad2 v +:+ rest)) (v, rest).
Proof. intros Hv. unfold datetime.re_m. first_alternative. Qed.

Lemma starts_re_d v rest :
  1 <= v <= 31 -> starts (datetime.re_d (datetime.pad2 v +:+ rest)) (v, rest).
Proof. intros Hv. unfold datetime.re_d. first_alternative. Qed.

Lemma starts_re_H v rest :
  0 <= v <= 23 -> starts (datetime.re_H (datetime.pad2 v +:+ rest)) (v, rest).
Proof. intros Hv. unfold datetime.re_H. first_alternative. Qed.

Lemma starts_re_M v rest :
  0 <= v <= 59 -> starts (datetime.re_M (datetime.pad2 v +:+ rest)) (v, rest).
Proof. intros Hv. unfold datetime.re_M. first_alternative. Qed.

Lemma starts_re_S v rest :
  0 <= v <= 59 -> starts (datetime.re_S (datetime.pad2 v +:+ rest)) (v, rest).
Proof. intros Hv. unfold datetime.re_S. first_alternative. Qed.

Lemma lit_same c rest : datetime.lit c (String c rest) = [(tt, rest)].
Proof. unfold datetime.lit. by rewrite Ascii.eqb_refl. Qed.

Lemma strftime_bookmark_eq d y m dd :
  datetime.ord2ymd (datetime.ordinal d) = (y, m, dd) ->
  datetime.strftime_bookmark d =
  datetime.strftime_Y y +:+
  String "-" (datetime.pad2 m +:+ String "-" (datetime.pad2 dd +:+
    String "T" (datetime.pad2 (datetime.hour d) +:+ String ":"
      (datetime.pad2 (datetime.minute d) +:+ String ":"
        (datetime.pad2 (datetime.second d) +:+ "Z"))))).
Proof.
  intros E. unfold datetime.strftime_bookmark, datetime.strftime_day,
    datetime.strftime_time. rewrite E, string_app_assoc. reflexivity.
Qed.

Lemma strftime_day_eq d y m dd :
  datetime.ord2ymd (datetime.ordinal d) = (y, m, dd) ->
  datetime.strftime_day d =
  datetime.strftime_Y y +:+ String "-" (datetime.pad2 m +:+ String "-" (datetime.pad2 dd)).
Proof. intros E. unfold datetime.strftime_day. by rewrite E. Qed.

(** From the year 1000 on the year is written with its four digits. *)
Lemma strftime_Y_pad4 y : 1000 <= y -> datetime.strftime_Y y = datetime.pad4 y.
Proof.
  intros Hy. unfold datetime.strftime_Y.
  destruct (Z.ltb_spec y 10); [lia|]. destruct (Z.ltb_spec y 100); [lia|].
  destruct (Z.ltb_spec y 1000); [lia|]. done.
Qed.

(** The text of a date and time with a year of four digits parses. *)
Lemma strptime_padded y m dd hh mi ss :
  1 <= y <= 9999 -> 1 <= m <= 12 -> 1 <= dd <= datetime.days_in_month y m ->
  0 <= hh < 24 -> 0 <= mi < 60 -> 0 <= ss < 60 ->
  datetime.strptime_bookmark
    (datetime.pad4 y +:+ String "-" (datetime.pad2 m +:+ String "-" (datetime.pad2 dd +:+
      String "T" (datetime.pad2 hh +:+ String ":"
        (datetime.pad2 mi +:+ String ":" (datetime.pad2 ss +:+ "Z"))))))
  = Some (datetime.mk (datetime.ymd2ord y m dd) hh mi ss 0).
Proof.
  intros Hy Hmo Hdd Hh Hm Hs.
  assert (dd <= 31) as Hdd'.
  { destruct Hdd as [_ Hdd]. unfold datetime.days_in_month in Hdd.
    assert (m = 1 \/ m = 2 \/ m = 3 \/ m = 4 \/ m = 5 \/ m = 6 \/ m = 7 \/ m = 8 \/
            m = 9 \/ m = 10 \/ m = 11 \/ m = 12) as Hc by lia.
    repeat (destruct Hc as [->|Hc]); try subst m;
      destruct (datetime.is_leap y); simpl in Hdd; lia. }
  assert (starts (datetime.re_bookmark
    (datetime.pad4 y +:+ String "-" (datetime.pad2 m +:+ String "-" (datetime.pad2 dd +:+
      String "T" (datetime.pad2 hh +:+ String ":"
        (datetime.pad2 mi +:+ String ":" (datetime.pad2 ss +:+ "Z")))))))
    ((y, m, dd, hh, mi, ss), ""))
    as [tl Hparse].
  { unfold datetime.re_bookmark.
    rewrite re_Y_pad4, bind_one, lit_same, bind_one by lia.
    eapply starts_bind; [apply starts_re_m; lia|]. cbv beta iota.
    rewrite lit_same, bind_one.
    eapply starts_bind; [apply starts_re_d; lia|]. cbv beta iota.
    rewrite lit_same, bind_one.
    eapply starts_bind; [apply starts_re_H; lia|]. cbv beta iota.
    rewrite lit_same, bind_one.
    eapply starts_bind; [apply starts_re_M; lia|]. cbv beta iota.
    rewrite lit_same, bind_one.
    eapply starts_bind; [apply starts_re_S; lia|]. cbv beta iota.
    change (datetime.lit "Z" "Z") with [(tt, "")]. rewrite bind_one.
    apply starts_one. }
  unfold datetime.strptime_bookmark. rewrite Hparse.
  rewrite bool_decide_eq_true_2 by done.
  destruct (Z.leb_spec 1 y); [|lia].
  destruct (Z.leb_spec dd (datetime.days_in_month y m)); [|lia].
  destruct (Z.leb_spec ss 59); [|lia].
  done.
Qed.

(** The year of a day from 1000-01-01 on. *)
Lemma ord2ymd_year_1000 n y m d :
  datetime.ord2ymd n = (y, m, d) -> 1 <= n ->
  (1000 <= y <-> datetime.ymd2ord 1000 1 1 <= n).
Proof.
  intros E Hn.
  destruct (ord2ymd_spec n) as (y' & m' & d' & E' & Hy & Hm & Hd & Hord); [lia|].
  rewrite E in E'. injection E' as <- <- <-.
  change (datetime.ymd2ord 1000 1 1) with 364878.
  assert (0 <= datetime.days_before_month y m /\
          datetime.days_before_month y m + datetime.days_in_month y m
          <= 365 + (if datetime.is_leap y then 1 else 0)) as [Hdbm Hdim].
  { unfold datetime.days_in_month, datetime.days_before_month.
    assert (m = 1 \/ m = 2 \/ m = 3 \/ m = 4 \/ m = 5 \/ m = 6 \/ m = 7 \/ m = 8 \/
            m = 9 \/ m = 10 \/ m = 11 \/ m = 12) as Hc by lia.
    repeat (destruct Hc as [->|Hc]); try subst m;
      destruct (datetime.is_leap y); simpl; lia. }
  assert (datetime.days_before_year (y + 1) =
          datetime.days_before_year y + 365 + (if datetime.is_leap y then 1 else 0))
    as Hnext.
  { unfold datetime.days_before_year, datetime.is_leap.
    replace (y + 1 - 1) with y by lia.
    destruct (Z.eqb_spec (y mod 4) 0), (Z.eqb_spec (y mod 100) 0),
      (Z.eqb_spec (y mod 400) 0); simpl; Z.div_mod_to_equations; lia. }
  unfold datetime.ymd2ord in Hord.
  assert (datetime.days_before_year y < n <= datetime.days_before_year (y + 1))
    as Hrange by (rewrite Hnext; lia).
  unfold datetime.days_before_year in Hrange.
  split; intros H; Z.div_mod_to_equations; lia.
Qed.

(** Parsing gives back the date and time that was formatted, from the year
    1000 on. *)
Theorem strptime_strftime d :
  datetime.valid d -> datetime.microsecond d = 0 ->
  datetime.ymd2ord 1000 1 1 <= datetime.ordinal d ->
  datetime.strptime_bookmark (datetime.strftime_bookmark d) = Some d.
Proof.
  intros (Hord & Hh & Hm & Hs & _) Hus H1000.
  destruct (ord2ymd_spec (datetime.ordinal d)) as (y & m & dd & E & Hy & Hmo & Hdd & Hymd);
    [lia|].
  assert (1 <= y <= 9999) as Hy' by (by eapply ord2ymd_year_bound).
  assert (1000 <= y) as Hy1000 by (eapply ord2ymd_year_1000; [done|lia|done]).
  rewrite (strftime_bookmark_eq d y m dd E), strftime_Y_pad4 by done.
  rewrite strptime_padded by done.
  rewrite Hymd. destruct d; simpl in *. by subst.
Qed.

Lemma digit_not_dash n : datetime.digit n <> "-"%char.
Proof.
  intros E. assert (H := digit_is_digit n). by rewrite E in H.
Qed.

Lemma digit_eq a b : datetime.digit a = datetime.digit b -> a mod 10 = b mod 10.
Proof. intros E. by rewrite <- !digit_val_digit, E. Qed.

Lemma two_digits_digits P a b rest :
  datetime.two_digits P (String (datetime.digit a) (String (datetime.digit b) rest)) =
  if P (a mod 10) (b mod 10) then [(10 * (a mod 10) + b mod 10, rest)] else [].
Proof.
  unfold datetime.two_digits. by rewrite !digit_is_digit, !digit_val_digit.
Qed.

Lemma two_digits_dash P c rest :
  datetime.two_digits P (String c (String "-" rest)) = [] /\
  datetime.two_digits P (String "-" rest) = [].
Proof.
  unfold datetime.two_digits. change (datetime.is_digit "-") with false.
  rewrite andb_false_r. split; [done|]. by destruct rest.
Qed.

(** Before the year 1000 the text written does not parse: the expression
    of [%Y] asks for four digits. *)
Lemma re_Y_short y rest :
  0 <= y < 1000 ->
  datetime.re_Y (datetime.strftime_Y y +:+ String "-" rest) = [].
Proof.
  intros Hy. unfold datetime.strftime_Y, datetime.re_Y, datetime.pad2.
  destruct (Z.ltb_spec y 10); [|destruct (Z.ltb_spec y 100);
    [|destruct (Z.ltb_spec y 1000); [|lia]]];
    rewrite ?append_cons, ?append_nil.
  - by rewrite (proj1 (two_digits_dash _ _ _)).
  - rewrite two_digits_digits. cbv beta. rewrite bind_one.
    by rewrite (proj2 (two_digits_dash _ (datetime.digit 0) _)).
  - rewrite two_digits_digits. cbv beta. rewrite bind_one.
    by rewrite (proj1 (two_digits_dash _ _ _)).
Qed.

Lemma strptime_strftime_early d :
  datetime.valid d -> datetime.ordinal d < datetime.ymd2ord 1000 1 1 ->
  datetime.strptime_bookmark (datetime.strftime_bookmark d) = None.
Proof.
  intros (Hord & _) H1000.
  destruct (ord2ymd_spec (datetime.ordinal d)) as (y & m & dd & E & Hy & Hmo & Hdd & Hymd);
    [lia|].
  assert (y < 1000) as Hy1000.
  { destruct (Z.lt_ge_cases y 1000) as [|Hge]; [done|].
    eapply ord2ymd_year_1000 in Hge; [|done|lia]. lia. }
  rewrite (strftime_bookmark_eq d y m dd E).
  unfold datetime.strptime_bookmark, datetime.re_bookmark.
  rewrite re_Y_short by lia. done.
Qed.

(** The year text, with the dash after it, determines the year. *)
Lemma strftime_Y_inj y y' rest rest' :
  1 <= y <= 9999 -> 1 <= y' <= 9999 ->
  datetime.strftime_Y y +:+ String "-" rest
  = datetime.strftime_Y y' +:+ String "-" rest' ->
  y = y' /\ rest = rest'.
Proof.
  intros Hy Hy'. unfold datetime.strftime_Y, datetime.pad4, datetime.pad2.
  destruct (Z.ltb_spec y 10); [|destruct (Z.ltb_spec y 100);
    [|destruct (Z.ltb_spec y 1000)]];
  (destruct (Z.ltb_spec y' 10); [|destruct (Z.ltb_spec y' 100);
    [|destruct (Z.ltb_spec y' 1000)]]);
  rewrite ?append_cons, ?append_nil; intros E; simplify_eq;
  repeat match goal with
  | H : datetime.digit _ = "-"%char |- _ => by apply digit_not_dash in H
  | H : "-"%char = datetime.digit _ |- _ => symmetry in H; by apply digit_not_dash in H
  | H : datetime.digit _ = datetime.digit _ |- _ => apply digit_eq in H
  end;
  (split; [Z.div_mod_to_equations; lia|done]).
Qed.

(** The day text determines the day. *)
Lemma strftime_day_inj d d' :
  1 <= datetime.ordinal d <= datetime.MAXORDINAL ->
  1 <= datetime.ordinal d' <= datetime.MAXORDINAL ->
  datetime.strftime_day d = datetime.strftime_day d' ->
  datetime.ordinal d = datetime.ordinal d'.
Proof.
  intros Hd Hd' E.
  destruct (ord2ymd_spec (datetime.ordinal d)) as (y & m & dd & Ed & Hy & Hmo & Hdd & Hymd);
    [lia|].
  destruct (ord2ymd_spec (datetime.ordinal d'))
    as (y' & m' & dd' & Ed' & Hy' & Hmo' & Hdd' & Hymd'); [lia|].
  assert (1 <= y <= 9999) by (by eapply ord2ymd_year_bound).
  assert (1 <= y' <= 9999) by (by eapply ord2ymd_year_bound).
  rewrite (strftime_day_eq d y m dd Ed), (strftime_day_eq d' y' m' dd' Ed') in E.
  apply strftime_Y_inj in E as [<- E]; [|done|done].
  assert (Some (datetime.mk (datetime.ymd2ord y m dd) 0 0 0 0)
          = Some (datetime.mk (datetime.ymd2ord y m' dd') 0 0 0 0)) as [= Hord].
  { rewrite <- (strptime_padded y m dd 0 0 0), <- (strptime_padded y m' dd' 0 0 0);
      try done; try lia.
    assert (forall a b X, a +:+ String "-" (b +:+ X) = (a +:+ String "-" b) +:+ X)
      as Hre by (intros; by rewrite string_app_assoc).
    by rewrite (Hre (datetime.pad2 m)), (Hre (datetime.pad2 m')), E. }
  congruence.
Qed.

Lemma add_days_plus d n :
  1 <= datetime.ordinal d + n <= datetime.MAXORDINAL ->
  datetime.add_days d n = Some (datetime.plus_days d n).
Proof.
  intros H. unfold datetime.add_days.
  destruct (Z.leb_spec 1 (datetime.ordinal d + n)); [|lia].
  destruct (Z.leb_spec (datetime.ordinal d + n) datetime.MAXORDINAL); [|lia].
  done.
Qed.

(** *** The parser *)

Lemma split_nonempty sep s : PyStr.split sep s ≠ [].
Proof.
  destruct s as [|c s]; simpl; [done|].
  destruct (Ascii.eqb c sep); [done|]. by destruct (PyStr.split sep s).
Qed.

(** Joining the pieces with the separator gives the text back, so [split]
    loses nothing and cuts only at separators. *)
Lemma join_split sep s : PyStr.join sep (PyStr.split sep s) = s.
Proof.
  assert (forall w w' ws,
    PyStr.join sep (w :: w' :: ws) = w +:+ String sep (PyStr.join sep (w' :: ws)))
    as Hjoin by done.
  induction s as [|c s IH]; [done|]. cbn [PyStr.split].
  destruct (PyStr.split sep s) as [|w ws] eqn:E; [by apply split_nonempty in E|].
  destruct (Ascii.eqb_spec c sep) as [->|Hne].
  - by rewrite Hjoin, IH.
  - destruct ws as [|w' ws].
    + simpl in *. by rewrite IH.
    + rewrite Hjoin in *. by rewrite <- IH.
Qed.

Lemma parse_lines_filter header lines :
  parse_lines header lines =
  map (line_to_obj header) (filter (fun l => String.length l ≠ 0%nat) lines).
Proof.
  induction lines as [|line lines IH]; [done|]. simpl.
  rewrite filter_cons. destruct (decide (String.length line = 0%nat)) as [H0|H0].
  - rewrite bool_decide_eq_true_2 by done. rewrite decide_False by auto. done.
  - rewrite bool_decide_eq_false_2 by done. rewrite decide_True by done.
    simpl. by f_equal.
Qed.

Lemma fill_line_notin cols hdr : forall start obj k,
  k ∉ hdr -> fill_line cols (PyStr.enumerate start hdr) obj !! k = obj !! k.
Proof.
  induction hdr as [|c hdr IH]; intros start obj k Hk; simpl; [done|].
  apply not_elem_of_cons in Hk as [Hne Hk].
  rewrite IH by done. case_bool_decide; [|done]. by rewrite lookup_insert_ne.
Qed.

Lemma fill_line_lookup cols hdr : forall start obj i name,
  NoDup hdr -> hdr !! i = Some name ->
  fill_line cols (PyStr.enumerate start hdr) obj !! name =
  match cols !! (start + i)%nat with
  | Some v => Some (VStr (PyStr.strip v))
  | None => obj !! name
  end.
Proof.
  induction hdr as [|c hdr IH]; intros start obj i name Hnd Hi; [done|].
  apply NoDup_cons in Hnd as [Hc Hnd]. destruct i as [|i]; simpl in *.
  - injection Hi as ->. rewrite fill_line_notin by done.
    rewrite Nat.add_0_r. case_bool_decide as Hlt.
    + rewrite lookup_insert_eq.
      destruct (cols !! start) eqn:E; [done|]. apply lookup_ge_None in E. lia.
    + rewrite lookup_ge_None_2 by lia. done.
  - rewrite (IH (S start) _ i name) by done.
    rewrite Nat.add_succ_r. destruct (cols !! _); [done|].
    case_bool_decide; [|done]. rewrite lookup_insert_ne; [done|].
    intros ->. apply Hc. by eapply list_elem_of_lookup_2.
Qed.

Lemma fill_line_keys cols hdr : forall start obj k,
  is_Some (fill_line cols (PyStr.enumerate start hdr) obj !! k) ->
  is_Some (obj !! k) \/
  exists i, hdr !! i = Some k /\ (start + i < length cols)%nat.
Proof.
  induction hdr as [|c hdr IH]; intros start obj k Hk; simpl in *; [by left|].
  apply IH in Hk as [Hk|(i & Hi & Hlt)].
  - case_bool_decide as Hlt; [|by left].
    destruct (decide (c = k)) as [->|Hne].
    + right. exists 0%nat. split; [done|lia].
    + rewrite lookup_insert_ne in Hk by done. by left.
  - right. exists (S i). split; [done|lia].
Qed.

Lemma fill_line_keeps cols l : forall obj k,
  is_Some (obj !! k) -> is_Some (fill_line cols l obj !! k).
Proof.
  induction l as [|[i c] l IH]; intros obj k Hk; simpl; [done|].
  apply IH. case_bool_decide; [|done].
  destruct (decide (c = k)) as [->|Hne].
  - by rewrite lookup_insert_eq.
  - by rewrite lookup_insert_ne.
Qed.

Lemma fill_line_present cols hdr : forall start obj i name,
  hdr !! i = Some name -> (start + i < length cols)%nat ->
  is_Some (fill_line cols (PyStr.enumerate start hdr) obj !! name).
Proof.
  induction hdr as [|c hdr IH]; intros start obj i name Hi Hlt; [done|].
  destruct i as [|i]; simpl in *.
  - injection Hi as ->. apply fill_line_keeps.
    rewrite bool_decide_eq_true_2 by lia. by rewrite lookup_insert_eq.
  - apply (IH (S start) _ i); [done|lia].
Qed.

Lemma fill_line_take cols N l : forall obj,
  Forall (fun p => (p.1 < N)%nat) l ->
  fill_line cols l obj = fill_line (take N cols) l obj.
Proof.
  induction l as [|[i c] l IH]; intros obj Hl; simpl; [done|].
  inversion Hl as [|? ? Hi Hl']; subst. simpl in Hi.
  rewrite length_take, lookup_take_lt by done.
  rewrite <- IH by done. f_equal.
  repeat case_bool_decide; try done; lia.
Qed.

Lemma enumerate_bound {A} (l : list A) : forall start,
  Forall (fun p => (p.1 < start + length l)%nat) (PyStr.enumerate start l).
Proof.
  induction l as [|x l IH]; intros start; simpl; constructor; simpl; [lia|].
  eapply Forall_impl; [apply (IH (S start))|]. simpl. intros; lia.
Qed.

(** *** The catalog *)

Lemma build_stream_map_is_Some (streams : list catalog_entry) k :
  k ∈ map tap_stream_id streams -> is_Some (build_stream_map streams !! k).
Proof.
  unfold build_stream_map.
  assert (forall (m : gmap string catalog_entry),
    k ∈ map tap_stream_id streams \/ is_Some (m !! k) ->
    is_Some (foldl (fun m s => <[tap_stream_id s := s]> m) m streams !! k)) as H.
  { induction streams as [|s streams IH]; intros m Hk; simpl in *.
    - destruct Hk as [Hk|Hk]; [by apply elem_of_nil in Hk|done].
    - apply IH. destruct Hk as [[->|Hk]%elem_of_cons|Hk]; [|by left|].
      + right. by rewrite lookup_insert_eq.
      + right. destruct (decide (tap_stream_id s = k)) as [->|Hne].
        * by rewrite lookup_insert_eq.
        * by rewrite lookup_insert_ne. }
  intros Hk. apply H. by left.
Qed.

Lemma declare_streams_declared cfg st cat :
  (declare_streams cat (initial_context cfg st cat)).2 =
  with_stream_map ∅ (declared cfg st cat).
Proof. by rewrite declare_streams_effect. Qed.

(** *** The loop does not read the catalog *)

Lemma measure_decreases it next extraction_time :
  datetime.add_days it 1 = Some next ->
  datetime.leb next extraction_time = true ->
  (Z.to_nat (datetime.ordinal extraction_time + 1 - datetime.ordinal next) <
   Z.to_nat (datetime.ordinal extraction_time + 1 - datetime.ordinal it))%nat.
Proof.
  intros [-> Hr]%add_days_Some Hle%leb_true_ordinal. simpl in *. lia.
Qed.

Lemma write_lines_frame stream_name ss et cat m rows : forall c,
  write_lines stream_name ss et rows (with_catalog cat m c) =
  ((write_lines stream_name ss et rows c).1,
   with_catalog cat m (write_lines stream_name ss et rows c).2).
Proof.
  induction rows as [|[index line] rows IH]; intros c; [done|].
  simpl. run_m. destruct (transform _ ss) as [rec|]; [|done]. run_m.
  destruct (new_counts c !! stream_name) as [n|]; [|done]. run_m.
  exact (IH (with_new_counts (<[stream_name:=n + 1]> (new_counts c))
               (emit (WriteRecord stream_name rec et) c))).
Qed.

Lemma sync_day_frame stream_name ss et it cat m c :
  sync_day stream_name ss et it (with_catalog cat m c) =
  ((sync_day stream_name ss et it c).1,
   with_catalog cat m (sync_day stream_name ss et it c).2).
Proof.
  unfold sync_day. run_m.
  destruct (sales_report _ _ _ _ _ _) as [rep_tsv|]; [|done]. run_m.
  match goal with
  | |- context [write_lines ?a ?b ?c ?d (emit ?e (with_catalog cat m ?x))] =>
      change (emit e (with_catalog cat m x)) with (with_catalog cat m (emit e x));
      rewrite (write_lines_frame a b c cat m d (emit e x))
  end.
  by destruct (write_lines _ _ _ _ _) as [[e|u] c1].
Qed.

Lemma while_days_frame stream_name ss et cat m : forall it c,
  while_days stream_name ss et it (with_catalog cat m c) =
  ((while_days stream_name ss et it c).1,
   with_catalog cat m (while_days stream_name ss et it c).2).
Proof.
  intros it.
  remember (Z.to_nat (datetime.ordinal et + 1 - datetime.ordinal it)) as fuel eqn:Hfuel.
  revert it Hfuel. induction (lt_wf fuel) as [fuel _ IH]. intros it -> c.
  rewrite (while_days_step _ _ _ _ c), while_days_step.
  destruct (datetime.add_days it 1) as [next|] eqn:Hn; [|done].
  destruct (datetime.leb next et) eqn:Hle; [|done].
  rewrite sync_day_frame.
  destruct (sync_day _ _ _ _ c) as [[e|u] c1]; [done|]. simpl.
  eapply IH; [|reflexivity]. by apply measure_decreases.
Qed.

Lemma zero_counts_with_metadata g (cat : list catalog_entry) :
  zero_counts (map (with_metadata g) cat) = zero_counts cat.
Proof.
  apply map_eq. intros k. rewrite !zero_counts_lookup.
  by rewrite map_map.
Qed.

Lemma build_stream_map_with_metadata g (cat : list catalog_entry) k :
  build_stream_map (map (with_metadata g) cat) !! k =
  with_metadata g <$> build_stream_map cat !! k.
Proof.
  unfold build_stream_map.
  assert (forall m : gmap string catalog_entry,
    foldl (fun m s => <[tap_stream_id s := s]> m) (with_metadata g <$> m)
      (map (with_metadata g) cat) =
    with_metadata g <$> foldl (fun m s => <[tap_stream_id s := s]> m) m cat) as H.
  { induction cat as [|e cat IH]; intros m; simpl; [done|].
    rewrite <- IH. by rewrite fmap_insert. }
  rewrite <- (fmap_empty (with_metadata g)) at 1. rewrite H. by rewrite lookup_fmap.
Qed.

Lemma declared_with_metadata g cfg st cat :
  declared cfg st (map (with_metadata g) cat) =
  with_catalog (map (with_metadata g) cat)
    (build_stream_map (map (with_metadata g) cat)) (declared cfg st cat).
Proof.
  apply Context_eq; simpl; try done.
  - apply zero_counts_with_metadata.
  - apply zero_counts_with_metadata.
  - by rewrite map_map.
Qed.

Lemma sales_only_block cfg st ss d : Forall (sales_only cfg) (day_block cfg st ss d).
Proof.
  unfold day_block. constructor; [done|].
  apply Forall_app. split; [|by repeat constructor].
  apply Forall_map. by apply Forall_true.
Qed.

(** *** The order of the writes *)

Lemma run_protocol_app p l1 l2 :
  run_protocol p (l1 ++ l2) = run_protocol p l1 ≫= fun p' => run_protocol p' l2.
Proof.
  revert p. induction l1 as [|e l1 IH]; intros p; simpl; [done|].
  destruct (protocol p e); [apply IH|done].
Qed.

Lemma prefix_append a b : String.prefix a (a +:+ b) = true.
Proof.
  induction a as [|c a IH]; simpl; [by destruct b|].
  destruct (Ascii.ascii_dec c c); [done|congruence].
Qed.

Lemma run_protocol_schemas (cat : list catalog_entry) :
  run_protocol Idle (map schema_message cat) = Some Idle.
Proof. induction cat; simpl; done. Qed.

Lemma run_protocol_records date recs l :
  run_protocol (Fetching date)
    (map (fun rec => WriteRecord "summary_sales_report" rec utils_now) recs ++ l)
  = run_protocol (Fetching date) l.
Proof. induction recs; simpl; done. Qed.

Lemma run_protocol_records_only date recs :
  run_protocol (Fetching date)
    (map (fun rec => WriteRecord "summary_sales_report" rec utils_now) recs)
  = Some (Fetching date).
Proof. induction recs; simpl; done. Qed.

Lemma get_bookmarked st d :
  singer_get_bookmark (bookmarked st d) "summary_sales_report" "start_date"
  = Some (datetime.strftime_bookmark d).
Proof.
  unfold singer_get_bookmark, bookmarked, singer_write_bookmark.
  rewrite lookup_insert_eq. simpl. by rewrite lookup_insert_eq.
Qed.

Lemma run_protocol_block cfg st ss d :
  run_protocol Idle (day_block cfg st ss d) = Some Idle.
Proof.
  unfold day_block. cbn [run_protocol protocol request].
  rewrite run_protocol_records. cbn [run_protocol protocol].
  unfold datetime.strftime_bookmark at 1. rewrite prefix_append.
  cbn [run_protocol protocol].
  by rewrite get_bookmarked, bool_decide_eq_true_2.
Qed.

Lemma run_protocol_blocks cfg st ss ds :
  run_protocol Idle (concat (map (day_block cfg st ss) ds)) = Some Idle.
Proof.
  induction ds as [|d ds IH]; [done|]. cbn [map concat].
  by rewrite run_protocol_app, run_protocol_block.
Qed.

Lemma lex_leb_refl l : datetime.lex_leb l l = true.
Proof.
  induction l as [|x l IH]; [done|]. simpl.
  by rewrite Z.eqb_refl, IH, orb_true_r.
Qed.

Lemma leb_plus_days b i : 0 <= i -> datetime.leb b (datetime.plus_days b i) = true.
Proof.
  intros Hi. destruct (decide (i = 0)) as [->|Hne].
  - rewrite plus_days_0. apply lex_leb_refl.
  - apply leb_ordinal_lt. simpl. lia.
Qed.

(** *** The records of a day *)

Lemma leading_records_map recs l :
  leading_records
    (map (fun rec => WriteRecord "summary_sales_report" rec utils_now) recs ++ l)
  = recs ++ leading_records l.
Proof. induction recs; simpl; [done|]. by f_equal. Qed.

Lemma reports_records recs l :
  reports (map (fun rec => WriteRecord "summary_sales_report" rec utils_now) recs ++ l)
  = reports l.
Proof. induction recs; simpl; done. Qed.

Lemma reports_schemas (cat : list catalog_entry) l :
  reports (map schema_message cat ++ l) = reports l.
Proof. induction cat; simpl; done. Qed.

Lemma reports_block cfg st ss d l :
  reports (day_block cfg st ss d ++ l)
  = (datetime.strftime_day d, records_of cfg ss d) :: reports l.
Proof.
  unfold day_block. cbn [app reports request]. rewrite <- app_assoc.
  rewrite leading_records_map, reports_records. simpl. by rewrite app_nil_r.
Qed.

Lemma reports_blocks cfg st ss ds l :
  reports (concat (map (day_block cfg st ss) ds) ++ l)
  = map (fun d => (datetime.strftime_day d, records_of cfg ss d)) ds ++ reports l.
Proof.
  induction ds as [|d ds IH]; [done|]. cbn [map concat].
  rewrite <- app_assoc, reports_block, IH. done.
Qed.

Lemma day_records_lookup cfg ss d recs :
  day_records cfg ss d = Some recs ->
  exists rep_tsv,
    sales_report "SALES" "SUMMARY" "DAILY" (vendor cfg)
      (datetime.strftime_day d) "1_0" = Some rep_tsv /\
    length recs = length (tsv_to_list rep_tsv) /\
    forall j rec, recs !! j = Some rec ->
      exists line, tsv_to_list rep_tsv !! j = Some line /\
        transform (<["line_id" := VInt (Z.of_nat (S j))]> line) ss = Some rec.
Proof.
  unfold day_records. destruct (sales_report _ _ _ _ _ _) as [rep_tsv|]; [|done].
  simpl. intros Hall%mapM_Some. exists rep_tsv. split; [done|]. split.
  - apply Forall2_length in Hall. by rewrite enumerate_length in Hall.
  - intros j rec Hj.
    eapply Forall2_lookup_r in Hall as ([i line] & Hp & Ht); [|exact Hj].
    rewrite enumerate_lookup in Hp.
    destruct (tsv_to_list rep_tsv !! j) as [line'|]; [|done].
    injection Hp as <- <-. by exists line'.
Qed.

(** *** A run over [k] whole days *)

(** From a midnight bookmark and with the clock [k] days and some hours
    past it, a run in which no fetch and no row raises completes exactly the
    [k] days from the bookmark on, oldest first, and the bookmark it leaves
    is the last of them. *)
Lemma run_of_k_days cfg st cat entry b (k : nat) :
  build_stream_map cat !! "summary_sales_report" = Some entry ->
  datetime.strptime_bookmark (bookmark_text cfg st) = Some b ->
  datetime.midnight b -> datetime.valid utils_now ->
  datetime.ordinal utils_now = datetime.ordinal b + Z.of_nat k ->
  datetime.ordinal utils_now < datetime.MAXORDINAL ->
  (forall d, d ∈ days b k -> is_Some (day_records cfg (schema entry) d)) ->
  (main cfg st cat).1 = inr tt /\
  log (main cfg st cat).2 =
    map schema_message cat ++
    concat (map (day_block cfg st (schema entry)) (days b k)) ++
    [WriteState (state (completed cfg st cat (schema entry) b k))] /\
  state (main cfg st cat).2 = state (completed cfg st cat (schema entry) b k).
Proof.
  intros He Hb Hmid Hnow Hk Hmax Hok.
  destruct (main_shape cfg st cat entry b He Hb)
    as (n & tail & Hdays & Htail & Hlog & Hst & _).
  assert (Hval := Hb). apply strptime_valid in Hval as [[Hord _] _].
  assert (forall i : nat, due (datetime.plus_days b (Z.of_nat i)) <-> (i < k)%nat)
    as Hdue.
  { intros i. split.
    - intros (next & [-> _]%add_days_Some & Hle%leb_true_ordinal).
      simpl in Hle. lia.
    - intros Hi. exists (datetime.plus_days b (Z.of_nat i + 1)).
      split; [rewrite add_days_plus, plus_days_plus by (simpl; lia); done|].
      destruct (decide (i + 1 = k)%nat) as [<-|Hne].
      + apply leb_midnight; [by destruct Hmid|done|simpl; lia].
      + apply leb_ordinal_lt. simpl. lia. }
  assert (n <= k)%nat as Hnk.
  { destruct n as [|n]; [lia|].
    apply Nat.le_succ_l, Hdue, Hdays, elem_of_days. exists n. split; [lia|done]. }
  assert (n = k) as ->.
  { inversion Htail as [Hnot|Hovf|e recs Hd Hnone _ _]; subst.
    - rewrite Hdue in Hnot. lia.
    - apply add_days_None in Hovf. simpl in Hovf. lia.
    - apply Hdue in Hd. destruct (Hok (datetime.plus_days b (Z.of_nat n))) as [x Hx].
      + apply elem_of_days. by exists n.
      + congruence. }
  inversion Htail as [Hnot Hfst|Hovf|e recs Hd Hnone _ _]; subst.
  - by rewrite Hlog.
  - apply add_days_None in Hovf. simpl in Hovf. lia.
  - apply Hdue in Hd. lia.
Qed.

(** So the days requested are the [k] days from the bookmark on, in order,
    and the bookmark left behind names the last day requested, day [k - 1]
    after the bookmark the run started from. *)
Lemma k_days_requested_and_bookmarked cfg st cat entry b (k : nat) :
  build_stream_map cat !! "summary_sales_report" = Some entry ->
  datetime.strptime_bookmark (bookmark_text cfg st) = Some b ->
  datetime.midnight b -> datetime.valid utils_now ->
  datetime.ordinal utils_now = datetime.ordinal b + Z.of_nat k ->
  datetime.ordinal utils_now < datetime.MAXORDINAL ->
  (1 <= k)%nat ->
  (forall d, d ∈ days b k -> is_Some (day_records cfg (schema entry) d)) ->
  fetched (log (main cfg st cat).2) = map datetime.strftime_day (days b k) /\
  records_written (log (main cfg st cat).2)
    = concat (map (records_of cfg (schema entry)) (days b k)) /\
  singer_get_bookmark (state (main cfg st cat).2) "summary_sales_report" "start_date"
    = Some (datetime.strftime_bookmark (datetime.plus_days b (Z.of_nat k - 1))).
Proof.
  intros He Hb Hmid Hnow Hk Hmax Hk1 Hok.
  destruct (run_of_k_days cfg st cat entry b k) as (_ & Hlog & Hst); try done.
  rewrite Hlog, Hst, !fetched_app, !records_written_app, fetched_schemas,
    fetched_blocks, records_written_schemas, records_written_blocks.
  simpl. rewrite !app_nil_r. split; [done|]. split; [done|].
  destruct k as [|k]; [lia|]. rewrite days_S, last_snoc, get_bookmarked.
  do 3 f_equal. lia.
Qed.

(** *** The days a run requests *)

Lemma due_valid b i d :
  datetime.valid b -> d = datetime.plus_days b (Z.of_nat i) -> due d ->
  datetime.valid d.
Proof.
  intros (Hord & Hrest) -> (next & [_ Hr]%add_days_Some & _).
  split; [simpl in *; lia|exact Hrest].
Qed.

(** Every day requested is the bookmark plus some days, and is due. *)
Lemma main_fetched_days cfg st cat b date :
  datetime.strptime_bookmark (bookmark_text cfg st) = Some b ->
  date ∈ fetched (log (main cfg st cat).2) ->
  exists i : nat,
    date = datetime.strftime_day (datetime.plus_days b (Z.of_nat i)) /\
    due (datetime.plus_days b (Z.of_nat i)).
Proof.
  intros Hb. destruct (build_stream_map cat !! "summary_sales_report") as [entry|] eqn:He.
  - destruct (main_shape cfg st cat entry b He Hb)
      as (n & tail & Hdays & Htail & Hlog & _).
    rewrite Hlog, !fetched_app, fetched_schemas, fetched_blocks. simpl.
    intros [Hin|Hin]%elem_of_app.
    + apply list_elem_of_fmap in Hin as (d & -> & Hd).
      assert (Hd' := Hd). apply elem_of_days in Hd' as (i & _ & ->).
      exists i. split; [done|]. by apply Hdays.
    + inversion Htail; subst; try by apply elem_of_nil in Hin.
      unfold fetched in Hin. simpl in Hin.
      rewrite omap_map_None in Hin by done.
      apply list_elem_of_singleton in Hin as ->. by exists n.
  - destruct (main_stops_early cfg st cat) as (e & -> & _); [by left|].
    cbn [snd declared log]. rewrite fetched_schemas. by intros ?%elem_of_nil.
Qed.

(** When the day of the bookmark is due it is the first day requested. *)
Lemma first_request cfg st cat entry b :
  build_stream_map cat !! "summary_sales_report" = Some entry ->
  datetime.strptime_bookmark (bookmark_text cfg st) = Some b ->
  due b ->
  head (fetched (log (main cfg st cat).2)) = Some (datetime.strftime_day b).
Proof.
  intros He Hb Hdue.
  destruct (main_shape cfg st cat entry b He Hb)
    as (n & tail & Hdays & Htail & Hlog & _).
  rewrite Hlog, !fetched_app, fetched_schemas, fetched_blocks. simpl.
  destruct n as [|n].
  - simpl. inversion Htail as [Hnot| Hovf |e recs Hd _ _ _]; subst.
    + rewrite plus_days_0 in Hnot. done.
    + rewrite plus_days_0 in Hovf. destruct Hdue as (next & Hn & _). congruence.
    + simpl. by rewrite plus_days_0.
  - rewrite (days_S b n). destruct n; simpl; by rewrite plus_days_0.
Qed.

(** A run resumed from the state a run over [k] whole days left behind
    requests the last of those days again, even at the same extraction
    time (from the year 1000 on, where the bookmark written parses). *)
Lemma rerun_requests_last_day_again cfg st cat entry b (k : nat) :
  build_stream_map cat !! "summary_sales_report" = Some entry ->
  datetime.strptime_bookmark (bookmark_text cfg st) = Some b ->
  datetime.ymd2ord 1000 1 1 <= datetime.ordinal b ->
  datetime.midnight b -> datetime.valid utils_now ->
  datetime.ordinal utils_now = datetime.ordinal b + Z.of_nat k ->
  datetime.ordinal utils_now < datetime.MAXORDINAL ->
  (1 <= k)%nat ->
  (forall d, d ∈ days b k -> is_Some (day_records cfg (schema entry) d)) ->
  head (fetched (log (main cfg (state (main cfg st cat).2) cat).2))
  = Some (datetime.strftime_day (datetime.plus_days b (Z.of_nat k - 1))).
Proof.
  intros He Hb H1000 Hmid Hnow Hk Hmax Hk1 Hok.
  destruct (k_days_requested_and_bookmarked cfg st cat entry b k)
    as (_ & _ & Hbm); try done.
  assert (Hval := Hb). apply strptime_valid in Hval as [Hval Hus].
  set (last_day := datetime.plus_days b (Z.of_nat k - 1)) in *.
  destruct Hval as (Hord & Hrest).
  assert (datetime.valid last_day) as Hlast.
  { split; [unfold last_day, datetime.MAXORDINAL in *; simpl; lia|exact Hrest]. }
  apply first_request with (entry := entry); [done| |].
  - unfold bookmark_text. rewrite Hbm. simpl.
    apply strptime_strftime; [done|done|]. unfold last_day. simpl. lia.
  - exists (datetime.plus_days last_day 1). split.
    + apply add_days_plus. unfold last_day, datetime.MAXORDINAL in *. simpl. lia.
    + apply leb_midnight; [by destruct Hmid|done|unfold last_day; simpl; lia].
Qed.

(** *** The parser against the specification's words *)

Lemma split_pieces sep s w :
  w ∈ PyStr.split sep s ->
  (sep ∉ String.list_ascii_of_string w) /\
  forall c, c ∈ String.list_ascii_of_string w -> c ∈ String.list_ascii_of_string s.
Proof.
  revert w. induction s as [|c s IH]; intros w Hw.
  - apply list_elem_of_singleton in Hw as ->. split; [by intros ?%elem_of_nil|done].
  - cbn [PyStr.split] in Hw.
    destruct (PyStr.split sep s) as [|w0 ws] eqn:E; [by apply split_nonempty in E|].
    destruct (Ascii.eqb_spec c sep) as [->|Hne].
    + apply elem_of_cons in Hw as [->|Hw].
      * split; [by intros ?%elem_of_nil|by intros ? ?%elem_of_nil].
      * destruct (IH w Hw) as [Hsep Hsub]. split; [done|].
        intros c Hc. simpl. right. by apply Hsub.
    + apply elem_of_cons in Hw as [->|Hw].
      * destruct (IH w0) as [Hsep Hsub]; [by left|]. simpl. split.
        -- by intros [?|?]%elem_of_cons.
        -- intros c' [->|Hc']%elem_of_cons; [by left|right; by apply Hsub].
      * destruct (IH w) as [Hsep Hsub]; [by right|]. split; [done|].
        intros c' Hc'. simpl. right. by apply Hsub.
Qed.

Lemma fill_line_other cols hdr name : forall start obj,
  (forall j, hdr !! j = Some name -> (length cols <= start + j)%nat) ->
  fill_line cols (PyStr.enumerate start hdr) obj !! name = obj !! name.
Proof.
  induction hdr as [|c hdr IH]; intros start obj Hno; [done|]. simpl.
  rewrite IH.
  - case_bool_decide as Hlt; [|done].
    rewrite lookup_insert_ne; [done|]. intros ->.
    specialize (Hno 0%nat eq_refl). lia.
  - intros j Hj. specialize (Hno (S j) Hj). lia.
Qed.

Lemma fill_line_last cols hdr : forall start obj i name,
  hdr !! i = Some name -> (start + i < length cols)%nat ->
  (forall j, (i < j)%nat -> (start + j < length cols)%nat -> hdr !! j <> Some name) ->
  fill_line cols (PyStr.enumerate start hdr) obj !! name =
  (fun v => VStr (PyStr.strip v)) <$> cols !! (start + i)%nat.
Proof.
  induction hdr as [|c hdr IH]; intros start obj i name Hi Hlt Hlast; [done|].
  destruct i as [|i]; simpl in *.
  - injection Hi as ->. rewrite fill_line_other.
    + rewrite bool_decide_eq_true_2 by lia. rewrite lookup_insert_eq, Nat.add_0_r.
      destruct (cols !! start) eqn:E; [done|]. apply lookup_ge_None in E. lia.
    + intros j Hj. destruct (decide (S start + j < length cols)%nat) as [Hin|]; [|lia].
      destruct (Hlast (S j)); [lia|lia|done].
  - rewrite (IH (S start) _ i name); [|done|lia|].
    + by rewrite Nat.add_succ_r.
    + intros j Hij Hj. apply (Hlast (S j)); lia.
Qed.

Lemma is_space_white c : PyStr.is_space c = bool_decide (c ∈ white_space).
Proof. destruct c as [[] [] [] [] [] [] [] []]; vm_compute; reflexivity. Qed.

Lemma key_char_lower r :
  key_char r (if Ascii.eqb (PyStr.lower_char r) " " then "_"%char
              else PyStr.lower_char r) = true.
Proof. destruct r as [[] [] [] [] [] [] [] []]; vm_compute; reflexivity. Qed.

Lemma key_of_normalized raw :
  key_of raw (PyStr.replace " " "_" (PyStr.lower raw)).
Proof.
  unfold key_of, PyStr.replace, PyStr.lower.
  induction raw as [|r raw IH]; simpl; constructor; [apply key_char_lower|done].
Qed.

Lemma white_true c : PyStr.is_space c = true <-> c ∈ white_space.
Proof. rewrite is_space_white. apply bool_decide_eq_true. Qed.

Lemma white_false c : PyStr.is_space c = false <-> c ∉ white_space.
Proof. rewrite is_space_white. apply bool_decide_eq_false. Qed.

Lemma lstrip_split s :
  exists pre,
    s = pre +:+ PyStr.lstrip s /\
    Forall (fun c => c ∈ white_space) (String.list_ascii_of_string pre) /\
    forall c, head (String.list_ascii_of_string (PyStr.lstrip s)) = Some c ->
              c ∉ white_space.
Proof.
  induction s as [|c s (pre & Hs & Hpre & Hhead)].
  - exists "". split; [done|]. split; [constructor|]. done.
  - simpl. destruct (PyStr.is_space c) eqn:E.
    + exists (String c pre). split; [by rewrite append_cons, <- Hs|].
      split; [|done]. simpl. constructor; [by apply white_true|done].
    + exists "". split; [done|]. split; [constructor|].
      simpl. intros c' [= <-]. by apply white_false.
Qed.

Lemma rstrip_split t :
  exists post,
    t = PyStr.rstrip t +:+ post /\
    Forall (fun c => c ∈ white_space) (String.list_ascii_of_string post) /\
    (forall c, last (String.list_ascii_of_string (PyStr.rstrip t)) = Some c ->
               c ∉ white_space) /\
    (forall c, head (String.list_ascii_of_string (PyStr.rstrip t)) = Some c ->
               head (String.list_ascii_of_string t) = Some c).
Proof.
  induction t as [|c t (post & Ht & Hpost & Hlast & Hhead)].
  - exists "". split; [done|]. split; [constructor|]. done.
  - change (PyStr.rstrip (String c t)) with
      (match PyStr.rstrip t with
       | EmptyString => if PyStr.is_space c then EmptyString else String c EmptyString
       | r => String c r
       end).
    destruct (PyStr.rstrip t) as [|c' r] eqn:Er.
    + rewrite append_nil in Ht. subst post.
      destruct (PyStr.is_space c) eqn:E.
      * exists (String c t). split; [done|]. split; [|done].
        simpl. constructor; [by apply white_true|done].
      * exists t. split; [done|]. split; [done|]. split.
        -- simpl. intros c0 [= <-]. by apply white_false.
        -- done.
    + exists post. split; [by rewrite append_cons, <- Ht|]. split; [done|]. split.
      * intros c0. change (String.list_ascii_of_string (String c (String c' r)))
          with (c :: String.list_ascii_of_string (String c' r)).
        simpl. apply Hlast.
      * done.
Qed.

(** [str.strip] takes the white space off the two ends, and no more. *)
Lemma strip_trimmed col : trimmed col (PyStr.strip col).
Proof.
  unfold PyStr.strip.
  destruct (lstrip_split col) as (pre & Hcol & Hpre & Hhead).
  destruct (rstrip_split (PyStr.lstrip col)) as (post & Hl & Hpost & Hlast & Hkeep).
  exists pre, post. split; [by rewrite <- Hl|]. split; [done|]. split; [done|].
  split; [|done]. intros c Hc. by apply Hhead, Hkeep.
Qed.

(** *** Where a bookmark write stands in the log *)

(** The first bookmark write of a list is where the list says it is. *)
Lemma split_at_bookmark (A R pre post : list (event Schema)) s1 k1 v1 s k v :
  bookmarks_written A = [] ->
  A ++ WriteBookmark s1 k1 v1 :: R = pre ++ WriteBookmark s k v :: post ->
  (pre = A /\ s1 = s /\ k1 = k /\ v1 = v /\ post = R) \/
  exists pre', pre = A ++ WriteBookmark s1 k1 v1 :: pre' /\
               R = pre' ++ WriteBookmark s k v :: post.
Proof.
  revert pre. induction A as [|a A IH]; intros pre HA E.
  - destruct pre as [|p pre]; simpl in E.
    + injection E as -> -> -> ->. by left.
    + injection E as <- ->. right. by exists pre.
  - destruct pre as [|p pre]; simpl in E.
    + injection E as -> _. done.
    + injection E as <- E.
      assert (bookmarks_written A = []) as HA'.
      { unfold bookmarks_written in *. simpl in HA. by destruct a. }
      destruct (IH pre HA' E) as [(-> & ?)|(pre' & -> & ->)]; [by left|].
      right. by exists pre'.
Qed.

Lemma bookmark_not_in (l pre post : list (event Schema)) s k v :
  bookmarks_written l = [] -> l <> pre ++ WriteBookmark s k v :: post.
Proof.
  intros Hl ->. rewrite bookmarks_written_app in Hl.
  by apply app_eq_nil in Hl as [_ Hl].
Qed.

Lemma bookmark_after (A M pre post : list (event Schema)) s k v :
  bookmarks_written A = [] ->
  A ++ M = pre ++ WriteBookmark s k v :: post ->
  exists pre', pre = A ++ pre' /\ M = pre' ++ WriteBookmark s k v :: post.
Proof.
  revert pre. induction A as [|a A IH]; intros pre HA E; [by exists pre|].
  assert (bookmarks_written A = []) as HA'.
  { unfold bookmarks_written in *. simpl in HA. by destruct a. }
  destruct pre as [|p pre]; simpl in E.
  - injection E as -> _. done.
  - injection E as <- E. destruct (IH pre HA' E) as (pre' & -> & ->). by exists pre'.
Qed.

Lemma bookmark_before (M T pre post : list (event Schema)) s k v :
  bookmarks_written T = [] ->
  M ++ T = pre ++ WriteBookmark s k v :: post ->
  exists post', M = pre ++ WriteBookmark s k v :: post' /\ post = post' ++ T.
Proof.
  revert pre. induction M as [|m M IH]; intros pre HT E.
  - simpl in E. by apply bookmark_not_in in E.
  - destruct pre as [|p pre]; simpl in E.
    + injection E as -> <-. by exists M.
    + injection E as <- E. destruct (IH pre HT E) as (post' & -> & ->). by exists post'.
Qed.

(** A bookmark write among the blocks of completed days is the one of some
    day [d]: the request of [d] and its records stand right before it, the
    state write of [d] right after it. *)
Lemma bookmark_in_blocks cfg st ss ds : forall pre s k v post,
  concat (map (day_block cfg st ss) ds) = pre ++ WriteBookmark s k v :: post ->
  exists ds1 d ds2,
    ds = ds1 ++ d :: ds2 /\
    s = "summary_sales_report" /\ k = "start_date" /\
    v = datetime.strftime_bookmark d /\
    pre = concat (map (day_block cfg st ss) ds1) ++
          request cfg d ::
          map (fun rec => WriteRecord "summary_sales_report" rec utils_now)
              (records_of cfg ss d) /\
    post = WriteState (bookmarked st d) :: concat (map (day_block cfg st ss) ds2).
Proof.
  induction ds as [|d ds IH]; intros pre s k v post E.
  - simpl in E. by destruct pre.
  - cbn [map concat] in E. unfold day_block at 1 in E.
    rewrite app_comm_cons, <- app_assoc in E. cbn [app] in E.
    apply (split_at_bookmark
             (request cfg d ::
              map (fun rec => WriteRecord "summary_sales_report" rec utils_now)
                  (records_of cfg ss d))) in E
      as [(-> & <- & <- & <- & ->)|(pre' & -> & E)].
    + by exists [], d, ds.
    + destruct pre' as [|p pre']; [done|]. simpl in E. injection E as <- E.
      destruct (IH _ _ _ _ _ E) as (ds1 & d' & ds2 & -> & -> & -> & -> & -> & ->).
      exists (d :: ds1), d', ds2. split; [done|]. do 3 (split; [done|]).
      split; [|done]. cbn [map concat]. unfold day_block at 2.
      by rewrite !app_comm_cons, <- !app_assoc.
    + unfold bookmarks_written. cbn [omap list_omap request].
      by rewrite omap_map_None.
Qed.

(** ** The claims *)

(** C2, amended: in every run that reaches its loop from the bookmark [b],
    every bookmark value written is at or after [b] and a whole number of
    days from it, each one day after the one written before it, and it has
    the time of day of [b]: it is a whole-day boundary exactly when [b] is
    one, not always.  The text written is the formatted value; from the year
    1000 on it reads back as that value.  The bookmark the state holds at
    the end is the last one written, or the one it held at the start when
    none was written. *)
Theorem C2_bookmarks_step_by_days cfg st cat entry b :
  build_stream_map cat !! "summary_sales_report" = Some entry ->
  datetime.strptime_bookmark (bookmark_text cfg st) = Some b ->
  exists ds : list datetime.t,
    bookmarks_written (log (main cfg st cat).2) = map datetime.strftime_bookmark ds /\
    (forall i d, ds !! i = Some d ->
       datetime.leb b d = true /\
       (exists k : nat, datetime.ordinal d = datetime.ordinal b + Z.of_nat k) /\
       datetime.hour d = datetime.hour b /\ datetime.minute d = datetime.minute b /\
       datetime.second d = datetime.second b /\
       datetime.microsecond d = datetime.microsecond b /\
       (datetime.midnight d <-> datetime.midnight b) /\
       datetime.strftime_bookmark d =
         datetime.strftime_day d +:+ "T" +:+ datetime.strftime_time b +:+ "Z" /\
       (datetime.ymd2ord 1000 1 1 <= datetime.ordinal d ->
        datetime.strptime_bookmark (datetime.strftime_bookmark d) = Some d)) /\
    (forall i d d', ds !! i = Some d -> ds !! S i = Some d' ->
       datetime.ordinal d' = datetime.ordinal d + 1) /\
    singer_get_bookmark (state (main cfg st cat).2) "summary_sales_report" "start_date"
      = match last ds with
        | Some d => Some (datetime.strftime_bookmark d)
        | None => singer_get_bookmark st "summary_sales_report" "start_date"
        end.
Proof.
  intros He Hb.
  destruct (main_shape cfg st cat entry b He Hb)
    as (n & tail & Hdays & Htail & Hlog & Hst & _).
  exists (days b n). split; [|split; [|split]].
  - rewrite Hlog, !bookmarks_written_app, bookmarks_written_schemas,
      bookmarks_written_blocks.
    assert (bookmarks_written tail = []) as ->; [|by rewrite app_nil_r].
    inversion Htail; subst; try done.
    unfold bookmarks_written. simpl. by apply omap_map_None.
  - intros i d Hd.
    assert (i < n)%nat as Hi.
    { apply lookup_lt_Some in Hd. by rewrite days_length in Hd. }
    assert (due d) as Hdue by (by eapply Hdays, list_elem_of_lookup_2).
    rewrite days_lookup in Hd by done. injection Hd as <-.
    apply strptime_valid in Hb as [Hval Hus].
    split; [apply leb_plus_days; lia|]. split; [by exists i|].
    do 4 (split; [done|]). split; [done|]. split; [done|].
    intros H1000. apply strptime_strftime; [by eapply due_valid|done|done].
  - intros i d d' Hd Hd'.
    assert (S i < n)%nat as Hi.
    { apply lookup_lt_Some in Hd'. by rewrite days_length in Hd'. }
    rewrite days_lookup in Hd, Hd' by lia. injection Hd as <-. injection Hd' as <-.
    simpl. lia.
  - rewrite Hst. cbn [completed state].
    destruct (last (days b n)); [apply get_bookmarked|done].
Qed.

(** C3: every bookmark write of a run, however the run ends, closes a
    whole day: right before it stand the request of the day [d] it names and,
    after the request, one record for every row of the parsed report of [d],
    in row order and each for the stream of the bookmark; right after it
    stands the state write that holds it; and what follows that state write
    is not a record.  So the bookmark and the state of a day are written
    after every record of that day, never before or between them.  The calls
    of the run come in the order of [protocol], and a run that returns
    normally has bookmarked and persisted every day it requested.  And a run
    that starts from the bookmark [b] requests only the days [b], [b] plus
    one day and so on: no day before [b] is requested, the day before [b]
    in particular. *)
Theorem C3_bookmark_follows_records cfg st cat :
  (forall pre s k v post,
     log (main cfg st cat).2 = pre ++ WriteBookmark s k v :: post ->
     exists entry d rep_tsv recs before st' after,
       build_stream_map cat !! "summary_sales_report" = Some entry /\
       s = "summary_sales_report" /\ k = "start_date" /\
       v = datetime.strftime_bookmark d /\
       sales_report "SALES" "SUMMARY" "DAILY" (vendor cfg)
         (datetime.strftime_day d) "1_0" = Some rep_tsv /\
       length recs = length (tsv_to_list rep_tsv) /\
       (forall j rec, recs !! j = Some rec ->
          exists line, tsv_to_list rep_tsv !! j = Some line /\
            transform (<["line_id" := VInt (Z.of_nat (S j))]> line) (schema entry)
              = Some rec) /\
       pre = before ++ request cfg d ::
             map (fun rec => WriteRecord "summary_sales_report" rec utils_now) recs /\
       post = WriteState st' :: after /\
       singer_get_bookmark st' "summary_sales_report" "start_date" = Some v /\
       (forall name rec t, head after <> Some (WriteRecord name rec t))) /\
  is_Some (run_protocol Idle (log (main cfg st cat).2)) /\
  ((main cfg st cat).1 = inr tt ->
   run_protocol Idle (log (main cfg st cat).2) = Some Idle) /\
  (forall b, datetime.strptime_bookmark (bookmark_text cfg st) = Some b ->
     (forall date, date ∈ fetched (log (main cfg st cat).2) ->
        exists i : nat,
          date = datetime.strftime_day (datetime.plus_days b (Z.of_nat i)) /\
          datetime.leb b (datetime.plus_days b (Z.of_nat i)) = true) /\
     (forall earlier, 1 <= datetime.ordinal earlier < datetime.ordinal b ->
        datetime.strftime_day earlier ∉ fetched (log (main cfg st cat).2)) /\
     (1 < datetime.ordinal b ->
      datetime.strftime_day (datetime.plus_days b (-1))
        ∉ fetched (log (main cfg st cat).2))).
Proof.
  assert (forall b, datetime.strptime_bookmark (bookmark_text cfg st) = Some b ->
          forall earlier, 1 <= datetime.ordinal earlier < datetime.ordinal b ->
          datetime.strftime_day earlier ∉ fetched (log (main cfg st cat).2)) as Hearlier.
  { intros b Hb earlier Hord (i & Heq & Hdue)%(main_fetched_days _ _ _ b); [|done].
    apply strptime_valid in Hb as [Hval _].
    assert (datetime.valid (datetime.plus_days b (Z.of_nat i))) as (Hi & _)
      by (by eapply due_valid).
    destruct Hval as (Hb & _).
    apply strftime_day_inj in Heq; [simpl in *; lia|lia|done]. }
  assert (forall b, datetime.strptime_bookmark (bookmark_text cfg st) = Some b ->
          forall date, date ∈ fetched (log (main cfg st cat).2) ->
          exists i : nat,
            date = datetime.strftime_day (datetime.plus_days b (Z.of_nat i)) /\
            datetime.leb b (datetime.plus_days b (Z.of_nat i)) = true) as Hlater.
  { intros b Hb date (i & -> & _)%(main_fetched_days _ _ _ b); [|done].
    exists i. split; [done|]. apply leb_plus_days. lia. }
  assert (is_Some (run_protocol Idle (log (main cfg st cat).2)) /\
          ((main cfg st cat).1 = inr tt ->
           run_protocol Idle (log (main cfg st cat).2) = Some Idle)) as [Hacc Hidle].
  { destruct (build_stream_map cat !! "summary_sales_report") as [entry|] eqn:He;
      [destruct (datetime.strptime_bookmark (bookmark_text cfg st)) as [b|] eqn:Hb|].
    - destruct (main_shape cfg st cat entry b He Hb)
        as (n & tail & _ & Htail & Hlog & _).
      rewrite Hlog, run_protocol_app, run_protocol_schemas. cbn [mbind option_bind].
      rewrite run_protocol_app, run_protocol_blocks. cbn [mbind option_bind].
      split.
      + inversion Htail; subst; simpl; try done.
        by rewrite run_protocol_records_only.
      + intros Hok. rewrite Hok in Htail. by inversion Htail.
    - destruct (main_stops_early cfg st cat) as (e & -> & _); [by right|].
      cbn [fst snd declared log]. by rewrite run_protocol_schemas.
    - destruct (main_stops_early cfg st cat) as (e & -> & _); [by left|].
      cbn [fst snd declared log]. by rewrite run_protocol_schemas. }
  split; [|split; [done|split; [done|]]].
  - intros pre s k v post Hsplit.
    destruct (build_stream_map cat !! "summary_sales_report") as [entry|] eqn:He;
      [destruct (datetime.strptime_bookmark (bookmark_text cfg st)) as [b|] eqn:Hb|].
    + destruct (main_shape cfg st cat entry b He Hb)
        as (n & tail & Hdays & Htail & Hlog & _).
      rewrite Hlog in Hsplit.
      apply bookmark_after in Hsplit as (pre1 & -> & Hsplit);
        [|apply bookmarks_written_schemas].
      apply bookmark_before in Hsplit as (post1 & Hsplit & ->);
        [|inversion Htail; subst; try done;
          unfold bookmarks_written; simpl; by apply omap_map_None].
      apply bookmark_in_blocks in Hsplit
        as (ds1 & d & ds2 & Hds & -> & -> & -> & -> & ->).
      assert (d ∈ days b n) as Hd.
      { rewrite Hds. apply elem_of_app. right. left. }
      destruct (Hdays d Hd) as [_ [recs Hrecs]].
      assert (records_of cfg (schema entry) d = recs) as ->
        by (unfold records_of; by rewrite Hrecs).
      apply day_records_lookup in Hrecs as (rep_tsv & Hapi & Hlen & Hrows).
      exists entry, d, rep_tsv, recs,
        (map schema_message cat ++ concat (map (day_block cfg st (schema entry)) ds1)),
        (bookmarked st d),
        (concat (map (day_block cfg st (schema entry)) ds2) ++ tail).
      split; [done|]. do 3 (split; [done|]). split; [done|]. split; [done|].
      split; [done|]. split; [by rewrite <- app_assoc|]. split; [done|].
      split; [apply get_bookmarked|].
      intros name rec t. destruct ds2 as [|d2 ds2]; [|done].
      simpl. inversion Htail; subst; done.
    + destruct (main_stops_early cfg st cat) as (e & Hmain & _); [by right|].
      rewrite Hmain in Hsplit. cbn [snd declared log] in Hsplit.
      by apply bookmark_not_in in Hsplit; [|apply bookmarks_written_schemas].
    + destruct (main_stops_early cfg st cat) as (e & Hmain & _); [by left|].
      rewrite Hmain in Hsplit. cbn [snd declared log] in Hsplit.
      by apply bookmark_not_in in Hsplit; [|apply bookmarks_written_schemas].
  - intros b Hb. split; [by apply Hlater|]. split; [by apply Hearlier|].
    intros Hord. apply (Hearlier b Hb). simpl. lia.
Qed.

(** C4, amended: [tsv_to_list] returns one mapping per data line of
    non-zero length, in line order; the lines are the pieces of the text
    between its line breaks and the columns the pieces of a line between its
    tabs.  The keys come from the first line: each is a column name of that
    line with every capital letter made small and every space made an
    underscore.  In the mapping of a row, the key of every header position
    the row has is present, and no other key is; a header position the row
    lacks contributes nothing, and the columns of the row beyond the header's
    do not matter.  The value under a key is the value the row has at the
    last header position of that name it has, without the white space at its
    two ends: the value of the position itself when the name does not come
    again later in the row, and so for every position when the names are
    distinct. *)
Theorem C4_tsv_to_list_rows (tsv : string) :
  let lines := PyStr.split newline tsv in
  let header := header_of (hd "" lines) in
  let rows := filter (fun l => String.length l ≠ 0%nat) (tl lines) in
  tsv_to_list tsv = map (line_to_obj header) rows /\
  length (tsv_to_list tsv) = length rows /\
  (PyStr.join newline lines = tsv /\
   forall line, line ∈ lines -> newline ∉ String.list_ascii_of_string line) /\
  (PyStr.join tab (PyStr.split tab (hd "" lines)) = hd "" lines /\
   Forall2 key_of (PyStr.split tab (hd "" lines)) header) /\
  forall row, row ∈ rows ->
    let cols := PyStr.split tab row in
    (PyStr.join tab cols = row /\
     forall col, col ∈ cols -> tab ∉ String.list_ascii_of_string col) /\
    (forall i name, header !! i = Some name -> (i < length cols)%nat ->
       is_Some (line_to_obj header row !! name)) /\
    (forall k, is_Some (line_to_obj header row !! k) ->
       k ∈ take (length cols) header) /\
    (forall i name, header !! i = Some name -> (i < length cols)%nat ->
       (forall j, (i < j < length cols)%nat -> header !! j <> Some name) ->
       exists col v, cols !! i = Some col /\ trimmed col v /\
                     line_to_obj header row !! name = Some (VStr v)) /\
    (NoDup header -> forall i name, header !! i = Some name ->
       (i < length cols)%nat ->
       exists col v, cols !! i = Some col /\ trimmed col v /\
                     line_to_obj header row !! name = Some (VStr v)) /\
    line_to_obj header row =
      fill_line (take (length header) cols) (PyStr.enumerate 0 header) ∅.
Proof.
  intros lines header rows.
  assert (tsv_to_list tsv = map (line_to_obj header) rows) as Heq
    by apply parse_lines_filter.
  assert (forall row cols i name,
    cols = PyStr.split tab row ->
    header !! i = Some name -> (i < length cols)%nat ->
    (forall j, (i < j < length cols)%nat -> header !! j <> Some name) ->
    exists col v, cols !! i = Some col /\ trimmed col v /\
                  line_to_obj header row !! name = Some (VStr v)) as Hlast.
  { intros row cols i name -> Hi Hlt Hno. unfold line_to_obj.
    rewrite (fill_line_last _ _ 0 ∅ i name); [|done|simpl; lia|].
    - simpl. destruct (PyStr.split tab row !! i) as [col|] eqn:Hcol.
      + exists col, (PyStr.strip col). split; [done|]. split; [|done].
        apply strip_trimmed.
      + apply lookup_ge_None in Hcol. lia.
    - intros j Hij Hj. apply Hno. simpl in Hj. lia. }
  split; [done|]. split; [by rewrite Heq, length_map|]. split; [|split].
  - split; [apply join_split|]. intros line Hline. exact (proj1 (split_pieces _ _ _ Hline)).
  - split; [apply join_split|]. unfold header, header_of.
    apply Forall2_fmap_r, Forall_Forall2_diag, Forall_forall.
    intros raw _. apply key_of_normalized.
  - intros row _ cols. split; [|split; [|split; [|split; [|split]]]].
    + split; [apply join_split|]. intros col Hcol. exact (proj1 (split_pieces _ _ _ Hcol)).
    + intros i name Hi Hlt. unfold line_to_obj. fold cols.
      by apply (fill_line_present _ _ _ _ i).
    + unfold line_to_obj. fold cols. intros k [Hk|(i & Hi & Hlt)]%fill_line_keys.
      * rewrite lookup_empty in Hk. by destruct Hk.
      * simpl in Hlt. apply list_elem_of_lookup. exists i.
        by rewrite lookup_take_lt.
    + intros i name Hi Hlt Hno. by apply (Hlast row cols i name).
    + intros Hnd i name Hi Hlt. apply (Hlast row cols i name); try done.
      intros j Hij Hj. apply (NoDup_lookup _ i j name) in Hj; [lia|done|done].
    + unfold line_to_obj. fold cols.
      apply fill_line_take. apply (enumerate_bound header 0).
Qed.

(** C5: the text [get_bookmark] returns, the stored bookmark or else the
    configured [start_date], is parsed with [%Y-%m-%dT%H:%M:%SZ]; when it
    does not parse, the run ends with an exception ([ValueError] when the
    catalog has the stream) before any report is requested: the log holds
    the schema messages and nothing else, so no record, no bookmark and no
    state was written, and the state is the one the run started with. *)
Theorem C5_malformed_bookmark_aborts cfg st cat :
  datetime.strptime_bookmark (bookmark_text cfg st) = None ->
  get_bookmark "summary_sales_report" (declared cfg st cat)
    = (inr (bookmark_text cfg st), declared cfg st cat) /\
  (exists e, (main cfg st cat).1 = inl e) /\
  (is_Some (build_stream_map cat !! "summary_sales_report") ->
   (main cfg st cat).1 = inl ValueError) /\
  log (main cfg st cat).2 = map schema_message cat /\
  fetched (log (main cfg st cat).2) = [] /\
  records_written (log (main cfg st cat).2) = [] /\
  bookmarks_written (log (main cfg st cat).2) = [] /\
  states_written (log (main cfg st cat).2) = [] /\
  state (main cfg st cat).2 = st.
Proof.
  intros Hbad. split; [apply get_bookmark_eq|].
  destruct (main_stops_early cfg st cat) as (e & Hmain & He); [by right|].
  split; [rewrite Hmain; by exists e|]. split.
  - intros [entry Hentry]. by rewrite main_prelude, Hentry, Hbad.
  - rewrite Hmain. cbn [snd declared log state].
    rewrite fetched_schemas, records_written_schemas, bookmarks_written_schemas,
      states_written_schemas. done.
Qed.


(** C7: in every run, the records written after the request for a day are
    the transformed rows of that day's parsed report: the record at position
    [j], counting from 0, is what the transformer returns for row [j] with
    [line_id] set to [j + 1], so the numbering starts at 1 with every
    request; it carries that [line_id] whenever the transformer keeps the
    field.  When the run returns normally every row of every report
    requested has its record.  The sample report parses to the single
    mapping of the specification, which gets [line_id] 1. *)
Theorem C7_line_id_per_day cfg st cat entry :
  build_stream_map cat !! "summary_sales_report" = Some entry ->
  (forall date recs, (date, recs) ∈ reports (log (main cfg st cat).2) ->
     (forall j rec, recs !! j = Some rec ->
        exists rep_tsv line,
          sales_report "SALES" "SUMMARY" "DAILY" (vendor cfg) date "1_0"
            = Some rep_tsv /\
          tsv_to_list rep_tsv !! j = Some line /\
          transform (<["line_id" := VInt (Z.of_nat (S j))]> line) (schema entry)
            = Some rec /\
          ((forall data r, transform data (schema entry) = Some r ->
              r !! "line_id" = data !! "line_id") ->
           rec !! "line_id" = Some (VInt (Z.of_nat (S j))))) /\
     ((main cfg st cat).1 = inr tt ->
      exists rep_tsv,
        sales_report "SALES" "SUMMARY" "DAILY" (vendor cfg) date "1_0"
          = Some rep_tsv /\
        length recs = length (tsv_to_list rep_tsv))) /\
  tsv_to_list
    ("Begin Date" +:+ String tab ("End Date" +:+ String tab ("Units" +:+ String newline
     ("2024-01-01" +:+ String tab ("2024-01-01" +:+ String tab ("5" +:+
      String newline "")))))) =
  [ {[ "begin_date" := VStr "2024-01-01"; "end_date" := VStr "2024-01-01";
       "units" := VStr "5" ]} ] /\
  line_data
    (1%nat, {[ "begin_date" := VStr "2024-01-01"; "end_date" := VStr "2024-01-01";
               "units" := VStr "5" ]}) !! "line_id" = Some (VInt 1).
Proof.
  intros He. split; [|split; vm_compute; reflexivity].
  assert (forall line j rec,
    transform (<["line_id" := VInt (Z.of_nat (S j))]> line) (schema entry) = Some rec ->
    (forall data r, transform data (schema entry) = Some r ->
       r !! "line_id" = data !! "line_id") ->
    rec !! "line_id" = Some (VInt (Z.of_nat (S j)))) as Hkept.
  { intros line j rec Ht Hkeep. by rewrite (Hkeep _ _ Ht), lookup_insert_eq. }
  intros date recs Hin.
  destruct (datetime.strptime_bookmark (bookmark_text cfg st)) as [b|] eqn:Hb.
  - destruct (main_shape cfg st cat entry b He Hb)
      as (n & tail & Hdays & Htail & Hlog & _).
    rewrite Hlog, reports_schemas, reports_blocks in Hin.
    apply elem_of_app in Hin as [Hin|Hin].
    + apply list_elem_of_fmap in Hin as (d & [= -> ->] & Hd).
      apply Hdays in Hd as [_ [recs Hrecs]].
      unfold records_of. rewrite Hrecs. simpl.
      apply day_records_lookup in Hrecs as (rep_tsv & Hapi & Hlen & Hrows).
      split; [|by eauto].
      intros j rec (line & Hline & Ht)%Hrows. exists rep_tsv, line. eauto.
    + inversion Htail as [| |e recs' Hdue Hnone He' Hrows Hfst]; subst;
        try by apply elem_of_nil in Hin.
      cbn [reports request] in Hin.
      rewrite <- (app_nil_r (map _ recs')), leading_records_map, reports_records in Hin.
      simpl in Hin. rewrite app_nil_r in Hin.
      apply list_elem_of_singleton in Hin as [= -> ->].
      split; [|intros Hok; rewrite Hok in Hfst; discriminate].
      intros j rec (rep_tsv & line & Hapi & Hline & Ht)%Hrows.
      exists rep_tsv, line. eauto.
  - destruct (main_stops_early cfg st cat) as (e & Hmain & _); [by right|].
    rewrite Hmain in Hin. cbn [snd declared log] in Hin.
    rewrite <- (app_nil_r (map _ cat)), reports_schemas in Hin.
    by apply elem_of_nil in Hin.
Qed.

(** C8: [get_bookmark] returns the value the state holds under
    [bookmarks[stream].start_date] when there is one, and the configured
    [start_date] otherwise, and changes nothing; a run whose state holds no
    bookmark for the stream enters its loop at the configured [start_date],
    so that, when that day is due, it is the first day requested. *)
Theorem C8_get_bookmark_stored_or_configured (name : string) (c : Context) :
  (forall m v, state c !! name = Some m -> m !! "start_date" = Some v ->
     get_bookmark name c = (inr v, c)) /\
  ((forall m, state c !! name = Some m -> m !! "start_date" = None) ->
     get_bookmark name c = (inr (start_date (config c)), c)) /\
  (forall cfg st cat entry b,
     build_stream_map cat !! "summary_sales_report" = Some entry ->
     singer_get_bookmark st "summary_sales_report" "start_date" = None ->
     datetime.strptime_bookmark (start_date cfg) = Some b ->
     main cfg st cat =
       match while_days "summary_sales_report" (schema entry) utils_now b
               (declared cfg st cat) with
       | (inl e, c') => (inl e, c')
       | (inr _, c') => (inr tt, emit (WriteState (state c')) c')
       end /\
     (due b ->
      head (fetched (log (main cfg st cat).2)) = Some (datetime.strftime_day b))).
Proof.
  split; [|split].
  - intros m v Hm Hv. rewrite get_bookmark_eq. unfold singer_get_bookmark.
    rewrite Hm. simpl. by rewrite Hv.
  - intros Hnone. rewrite get_bookmark_eq. unfold singer_get_bookmark.
    destruct (state c !! name) as [m|] eqn:Hm; simpl.
    + by rewrite (Hnone m).
    + by rewrite lookup_empty.
  - intros cfg st cat entry b He Hnone Hb.
    assert (bookmark_text cfg st = start_date cfg) as Htext.
    { unfold bookmark_text. by rewrite Hnone. }
    split.
    + rewrite main_prelude, He, Htext, Hb. done.
    + intros Hdue. rewrite <- Htext in Hb. by apply first_request with (entry := entry).
Qed.

(** C9: the first loop of [sync] sets [new_counts] and [updated_counts] to
    0 for every stream of the catalog.  However the run ends, normally or by
    an exception at any point, [updated_counts] is still as that loop left
    it, 0 for every stream, [new_counts] of the synced stream is the number
    of records written, and [new_counts] of every other stream is as the
    first loop left it. *)
Theorem C9_counters cfg st cat :
  let c0 := (declare_streams cat (initial_context cfg st cat)).2 in
  let c' := (main cfg st cat).2 in
  (forall e, e ∈ cat ->
     new_counts c0 !! tap_stream_id e = Some 0 /\
     updated_counts c0 !! tap_stream_id e = Some 0) /\
  updated_counts c' = updated_counts c0 /\
  (forall e, e ∈ cat -> updated_counts c' !! tap_stream_id e = Some 0) /\
  ("summary_sales_report" ∈ map tap_stream_id cat ->
     new_counts c' !! "summary_sales_report"
     = Some (Z.of_nat (length (records_written (log c'))))) /\
  (forall k, k ≠ "summary_sales_report" -> new_counts c' !! k = new_counts c0 !! k).
Proof.
  intros c0 c'. subst c0 c'. rewrite declare_streams_declared.
  cbn [with_stream_map declared new_counts updated_counts].
  assert (forall e, e ∈ cat -> zero_counts cat !! tap_stream_id e = Some 0) as Hzero.
  { intros e He. rewrite zero_counts_lookup, decide_True; [done|].
    apply list_elem_of_fmap. eauto. }
  split; [by auto|].
  destruct (build_stream_map cat !! "summary_sales_report") as [entry|] eqn:He;
    [destruct (datetime.strptime_bookmark (bookmark_text cfg st)) as [b|] eqn:Hb|].
  - destruct (main_shape cfg st cat entry b He Hb)
      as (n & tail & _ & _ & Hlog & _ & _ & _ & Hupd & Hnew).
    rewrite Hupd, Hnew, Hlog. split; [done|]. split; [by auto|]. split.
    + intros _. rewrite lookup_insert_eq. do 2 f_equal.
      rewrite !records_written_app, records_written_schemas,
        records_written_blocks. simpl. by rewrite length_app.
    + intros k Hk. by rewrite lookup_insert_ne.
  - destruct (main_stops_early cfg st cat) as (e & -> & _); [by right|].
    cbn [snd declared new_counts updated_counts log].
    split; [done|]. split; [by auto|]. split; [|done].
    intros _. rewrite records_written_schemas.
    by apply (declared_count cfg st) in He.
  - destruct (main_stops_early cfg st cat) as (e & -> & _); [by left|].
    cbn [snd declared new_counts updated_counts log].
    split; [done|]. split; [by auto|]. split; [|done].
    intros [x Hx]%build_stream_map_is_Some. congruence.
Qed.

(** C10: in every run, whatever streams the catalog lists, every report
    requested is the daily summary sales report of the configured vendor,
    and every record and every bookmark written belongs to the stream
    [summary_sales_report]; the schema messages written are those of the
    catalog's streams, one each and in catalog order, ahead of everything
    else; and the run does not depend on the metadata of the catalog, where
    the selection of streams is recorded: replacing the metadata of every
    entry changes neither what the run returns nor what it writes. *)
Theorem C10_single_hard_coded_stream cfg st cat :
  Forall (sales_only cfg) (log (main cfg st cat).2) /\
  schemas_written (log (main cfg st cat).2) = map tap_stream_id cat /\
  (exists rest, log (main cfg st cat).2 = map schema_message cat ++ rest /\
                schemas_written rest = []) /\
  forall g, observe (main cfg st (map (with_metadata g) cat)) = observe (main cfg st cat).
Proof.
  assert (Forall (sales_only cfg) (map schema_message cat)) as Hschemas.
  { apply Forall_map. by apply Forall_true. }
  assert (exists rest, log (main cfg st cat).2 = map schema_message cat ++ rest /\
                       schemas_written rest = [] /\ Forall (sales_only cfg) rest)
    as (rest & Hlog & Hnone & Hrest).
  { destruct (build_stream_map cat !! "summary_sales_report") as [entry|] eqn:He;
      [destruct (datetime.strptime_bookmark (bookmark_text cfg st)) as [b|] eqn:Hb|].
    - destruct (main_shape cfg st cat entry b He Hb)
        as (n & tail & _ & Htail & Hlog & _).
      eexists. split; [exact Hlog|].
      rewrite schemas_written_app, schemas_written_blocks, Forall_app.
      assert (schemas_written tail = [] /\ Forall (sales_only cfg) tail) as [-> ?].
      { inversion Htail; subst; split; try done; try by repeat constructor.
        - unfold schemas_written. simpl. by apply omap_map_None.
        - constructor; [done|]. apply Forall_map. by apply Forall_true. }
      split; [done|]. split; [|done].
      apply Forall_concat, Forall_map, Forall_true. intros d. apply sales_only_block.
    - destruct (main_stops_early cfg st cat) as (e & -> & _); [by right|].
      exists []. by rewrite app_nil_r.
    - destruct (main_stops_early cfg st cat) as (e & -> & _); [by left|].
      exists []. by rewrite app_nil_r. }
  split; [rewrite Hlog; by apply Forall_app|].
  split; [by rewrite Hlog, schemas_written_app, schemas_written_schemas, Hnone, app_nil_r|].
  split; [by exists rest|].
  intros g. rewrite !main_prelude, build_stream_map_with_metadata.
  destruct (build_stream_map cat !! "summary_sales_report") as [entry|]; simpl.
  - destruct (datetime.strptime_bookmark (bookmark_text cfg st)) as [b|].
    + rewrite declared_with_metadata, while_days_frame.
      by destruct (while_days _ _ _ _ (declared cfg st cat)) as [[e|u] c'].
    + unfold observe. simpl. by rewrite zero_counts_with_metadata, map_map.
  - unfold observe. simpl. by rewrite zero_counts_with_metadata, map_map.
Qed.

(** ** Further properties *)

(** *** The catalog and the counters *)

Lemma build_stream_map_last (cat : list catalog_entry) n :
  build_stream_map cat !! n = last (filter (fun s => tap_stream_id s = n) cat).
Proof.
  unfold build_stream_map.
  assert (forall m : gmap string catalog_entry,
    foldl (fun m s => <[tap_stream_id s := s]> m) m cat !! n =
    match last (filter (fun s => tap_stream_id s = n) cat) with
    | Some e => Some e
    | None => m !! n
    end) as H.
  { induction cat as [|s cat IH]; intros m; simpl; [done|].
    rewrite IH, filter_cons. destruct (decide (tap_stream_id s = n)) as [E|E].
    - destruct (filter _ cat) as [|x l] eqn:Ef; simpl.
      + by rewrite <- E, lookup_insert_eq.
      + change (last (s :: x :: l)) with (last (x :: l)).
        destruct (last (x :: l)) eqn:El; [done|]. by apply last_None in El.
    - destruct (last (filter _ cat)); [done|]. by rewrite lookup_insert_ne. }
  rewrite H. destruct (last _); [done|apply lookup_empty].
Qed.

Lemma get_catalog_entry_fresh n (c : Context) :
  stream_map c = ∅ ->
  get_catalog_entry n c =
  (inr (build_stream_map (catalog c) !! n),
   with_stream_map (build_stream_map (catalog c)) c).
Proof.
  intros Hc. unfold get_catalog_entry. run_m.
  by rewrite bool_decide_eq_true_2.
Qed.

Lemma get_catalog_entry_built n (c : Context) :
  stream_map c ≠ ∅ ->
  get_catalog_entry n c = (inr (stream_map c !! n), c).
Proof.
  intros Hc. unfold get_catalog_entry. run_m.
  by rewrite bool_decide_eq_false_2.
Qed.

Lemma filter_id_unique (cat : list catalog_entry) n a b :
  NoDup (map tap_stream_id cat) ->
  head (filter (fun s => tap_stream_id s = n) cat) = Some a ->
  last (filter (fun s => tap_stream_id s = n) cat) = Some b ->
  a = b.
Proof.
  induction cat as [|s cat IH]; intros Hnd Ha Hb; [done|].
  apply NoDup_cons in Hnd as [Hs Hnd]. rewrite filter_cons in Ha, Hb.
  destruct (decide (tap_stream_id s = n)) as [E|E]; [|by apply IH].
  assert (filter (fun s => tap_stream_id s = n) cat = []) as Hnil.
  { destruct (filter _ cat) as [|x l] eqn:Ef; [done|]. exfalso.
    assert (x ∈ filter (fun s => tap_stream_id s = n) cat) as Hx
      by (rewrite Ef; left).
    apply list_elem_of_filter in Hx as [Hn Hx]. apply Hs.
    rewrite E, <- Hn. apply list_elem_of_fmap. eauto. }
  rewrite Hnil in Ha, Hb. simpl in *. congruence.
Qed.

(** X1: on a context whose stream map is not built yet,
    [get_catalog_entry] returns the last stream of the catalog with the id
    and [get_schema] the schema of the first one.  The two know the same
    ids: [get_schema] raises exactly when [get_catalog_entry] returns
    [None].  They name the same stream when the ids of the catalog are
    distinct. *)
Theorem X1_get_schema_first_get_catalog_entry_last (c : Context) (n : string) :
  stream_map c = ∅ ->
  let named := filter (fun s => tap_stream_id s = n) (catalog c) in
  (get_catalog_entry n c).1 = inr (last named) /\
  (get_schema n c = None <-> (get_catalog_entry n c).1 = inr None) /\
  (forall e, (get_catalog_entry n c).1 = inr (Some e) ->
     exists e0, head named = Some e0 /\ get_schema n c = Some (schema e0) /\
                (NoDup (map tap_stream_id (catalog c)) -> e0 = e)).
Proof.
  intros Hc named. rewrite get_catalog_entry_fresh by done.
  cbn [fst]. rewrite build_stream_map_last. fold named.
  unfold get_schema. fold named.
  split; [done|]. split.
  - destruct named as [|x l] eqn:E; simpl; [done|].
    split; [done|]. intros [= Hl]. by apply last_None in Hl.
  - intros e [= He]. destruct named as [|x l] eqn:E; [done|].
    exists x. split; [done|]. split; [done|].
    intros Hnd. apply (filter_id_unique (catalog c) n); [done| |].
    + unfold named in E. by rewrite E.
    + unfold named in E. by rewrite E.
Qed.

(** The counters a run leaves, however it ends. *)
Lemma main_counts cfg st cat :
  updated_counts (main cfg st cat).2 = zero_counts cat /\
  forall k, new_counts (main cfg st cat).2 !! k =
    if decide (k ∈ map tap_stream_id cat)
    then Some (if decide (k = "summary_sales_report")
               then Z.of_nat (length (records_written (log (main cfg st cat).2)))
               else 0)
    else None.
Proof.
  destruct (build_stream_map cat !! "summary_sales_report") as [entry|] eqn:He;
    [destruct (datetime.strptime_bookmark (bookmark_text cfg st)) as [b|] eqn:Hb|].
  - destruct (main_shape cfg st cat entry b He Hb)
      as (n & tail & _ & _ & Hlog & _ & _ & _ & Hupd & Hnew).
    split; [done|]. intros k. rewrite Hnew, Hlog.
    apply build_stream_map_Some in He as [Hid Hin].
    destruct (decide (k = "summary_sales_report")) as [->|Hne].
    + rewrite lookup_insert_eq, decide_True.
      * do 2 f_equal.
        rewrite !records_written_app, records_written_schemas,
          records_written_blocks. simpl. by rewrite length_app.
      * rewrite <- Hid. apply list_elem_of_fmap. eauto.
    + rewrite lookup_insert_ne by done. apply zero_counts_lookup.
  - destruct (main_stops_early cfg st cat) as (e & -> & _); [by right|].
    cbn [snd declared new_counts updated_counts log]. split; [done|].
    intros k. rewrite zero_counts_lookup, records_written_schemas.
    by repeat case_decide.
  - destruct (main_stops_early cfg st cat) as (e & -> & _); [by left|].
    cbn [snd declared new_counts updated_counts log]. split; [done|].
    intros k. rewrite zero_counts_lookup, records_written_schemas.
    by repeat case_decide.
Qed.

Lemma print_counts_lines (c : Context) lines :
  print_counts c = Some lines ->
  map (fun l : string * Z * Z => l.1) lines = map_to_list (new_counts c) /\
  forall name new updated, (name, new, updated) ∈ lines <->
    new_counts c !! name = Some new /\ updated_counts c !! name = Some updated.
Proof.
  unfold print_counts. intros H%mapM_Some. split.
  - induction H as [|[k v] l items lines Hl H IH]; [done|]. simpl in *.
    destruct (updated_counts c !! k); [|done]. injection Hl as <-.
    simpl. by f_equal.
  - intros name new updated. rewrite <- elem_of_map_to_list. split.
    + intros (i & Hi)%list_elem_of_lookup.
      destruct (Forall2_lookup_r _ _ _ _ _ H Hi) as ([k v] & Hx & Hf).
      simpl in Hf. destruct (updated_counts c !! k) eqn:Hu; [|done].
      injection Hf as -> -> ->. split; [|done]. by eapply list_elem_of_lookup_2.
    + intros [(i & Hi)%list_elem_of_lookup Hu].
      destruct (Forall2_lookup_l _ _ _ _ _ H Hi) as (y & Hy & Hf).
      simpl in Hf. rewrite Hu in Hf. injection Hf as <-.
      by eapply list_elem_of_lookup_2.
Qed.

Lemma print_counts_None (c : Context) :
  print_counts c = None <->
  exists name, is_Some (new_counts c !! name) /\ updated_counts c !! name = None.
Proof.
  unfold print_counts. rewrite mapM_None, Exists_exists. split.
  - intros ([k v] & Hk%elem_of_map_to_list & Hf). simpl in Hf.
    exists k. rewrite Hk. split; [done|].
    by destruct (updated_counts c !! k).
  - intros (name & [v Hv] & Hu). exists (name, v).
    split; [by apply elem_of_map_to_list|]. simpl. by rewrite Hu.
Qed.

(** X2: [print_counts] raises [KeyError] exactly when some stream has a
    count in [new_counts] and none in [updated_counts].  After a run of the
    tap, however it ended, it does not raise: it logs one line for each
    stream id of the catalog and for nothing else, each with 0 updates, the
    line of [summary_sales_report] with the number of records the run wrote
    and every other line with 0 new records. *)
Theorem X2_print_counts_after_run cfg st cat :
  (forall c, print_counts c = None <->
     exists name, is_Some (new_counts c !! name) /\ updated_counts c !! name = None) /\
  exists lines,
    print_counts (main cfg st cat).2 = Some lines /\
    NoDup (map (fun l : string * Z * Z => l.1.1) lines) /\
    forall name new updated,
      (name, new, updated) ∈ lines <->
      name ∈ map tap_stream_id cat /\ updated = 0 /\
      new = if decide (name = "summary_sales_report")
            then Z.of_nat (length (records_written (log (main cfg st cat).2)))
            else 0.
Proof.
  split; [apply print_counts_None|].
  destruct (main_counts cfg st cat) as [Hupd Hnew].
  destruct (print_counts (main cfg st cat).2) as [lines|] eqn:Hp.
  - exists lines. split; [done|].
    apply print_counts_lines in Hp as [Hkeys Hlines]. split.
    + rewrite <- (map_map (fun l : string * Z * Z => l.1) fst), Hkeys.
      apply NoDup_fst_map_to_list.
    + intros name new updated. rewrite Hlines, Hupd, Hnew, zero_counts_lookup.
      destruct (decide (name ∈ map tap_stream_id cat)) as [Hin|Hin]; split.
      * by intros [[= <-] [= <-]].
      * by intros (_ & -> & ->).
      * by intros [[=] _].
      * by intros [? _].
  - apply print_counts_None in Hp as (name & [v Hv] & Hu).
    rewrite Hnew in Hv. rewrite Hupd, zero_counts_lookup in Hu.
    by destruct (decide (name ∈ map tap_stream_id cat)).
Qed.

(** *** The schemas folder *)

Lemma dict_set_keys {V} k (v : V) d :
  map fst (dict_set k v d) =
  if decide (k ∈ map fst d) then map fst d else map fst d ++ [k].
Proof.
  induction d as [|[k' v'] d IH]; simpl.
  - destruct (decide (k ∈ [])) as [H|H]; [by apply elem_of_nil in H|done].
  - destruct (decide (k' = k)) as [->|Hne]; simpl.
    + rewrite decide_True; [done|by left].
    + rewrite IH. destruct (decide (k ∈ map fst d)) as [Hin|Hin].
      * rewrite decide_True; [done|by right].
      * rewrite decide_False; [done|].
        intros [?|?]%elem_of_cons; [by apply Hne|done].
Qed.

Lemma dict_set_elem {V} k (v : V) d name doc :
  NoDup (map fst d) ->
  (name, doc) ∈ dict_set k v d <->
  (name = k /\ doc = v) \/ (name <> k /\ (name, doc) ∈ d).
Proof.
  induction d as [|[k' v'] d IH]; simpl; intros Hnd.
  - rewrite list_elem_of_singleton. split.
    + intros [= -> ->]. by left.
    + intros [[-> ->]|[_ H]]; [done|by apply elem_of_nil in H].
  - apply NoDup_cons in Hnd as [Hk' Hnd].
    destruct (decide (k' = k)) as [->|Hne]; rewrite !elem_of_cons.
    + split.
      * intros [[= -> ->]|Hin]; [by left|]. right. split; [|by right].
        intros ->. apply Hk'. apply list_elem_of_fmap. by exists (k, doc).
      * intros [[-> ->]|[Hn [[= -> ->]|Hin]]]; [by left|done|by right].
    + rewrite IH by done. split.
      * intros [[= -> ->]|[[-> ->]|[Hn Hin]]].
        -- right. split; [done|by left].
        -- by left.
        -- right. split; [done|by right].
      * intros [[-> ->]|[Hn [[= -> ->]|Hin]]].
        -- right. by left.
        -- by left.
        -- right. right. done.
Qed.

Lemma remove_dups_NoDup {A} `{EqDecision A} (l : list A) :
  NoDup l -> remove_dups l = l.
Proof.
  induction 1 as [|x l Hx Hnd IH]; simpl; [done|].
  destruct (decide_rel elem_of x l); [done|]. by rewrite IH.
Qed.

Lemma remove_dups_repeated {A} `{EqDecision A} (l1 l2 : list A) x :
  x ∈ l2 -> remove_dups (l1 ++ x :: l2) = remove_dups (l1 ++ l2).
Proof.
  intros Hx. induction l1 as [|a l1 IH]; simpl.
  - by destruct (decide_rel elem_of x l2).
  - rewrite IH.
    destruct (decide_rel elem_of a (l1 ++ l2)) as [Hin|Hin];
      destruct (decide_rel elem_of a (l1 ++ x :: l2)) as [Hin'|Hin']; try done.
    + exfalso. apply Hin'.
      apply elem_of_app in Hin as [?|?]; apply elem_of_app; [by left|].
      right. by right.
    + exfalso. apply elem_of_app in Hin' as [?|[->|?]%elem_of_cons];
        apply Hin, elem_of_app; [by left|by right|by right].
Qed.

(** The names in the order of the first occurrence of each. *)
Lemma first_seen_snoc (seen : list string) k rest :
  reverse (remove_dups (reverse (seen ++ k :: rest))) =
  reverse (remove_dups (reverse
    ((if decide (k ∈ seen) then seen else seen ++ [k]) ++ rest))).
Proof.
  destruct (decide (k ∈ seen)) as [Hin|Hin].
  - rewrite !reverse_app, reverse_cons, <- (assoc_L (++)). simpl.
    rewrite remove_dups_repeated; [done|]. by apply elem_of_reverse.
  - by rewrite <- (assoc_L (++)).
Qed.

Lemma load_schemas_loop_None listing : forall schemas,
  load_schemas_loop listing schemas = None <->
  exists file, file ∈ listing /\ file.2 = None.
Proof.
  induction listing as [|[filename [document|]] rest IH]; intros schemas; simpl.
  - split; [done|]. by intros (file & ?%elem_of_nil & _).
  - rewrite IH. split.
    + intros (file & Hin & Hnone). exists file. split; [by right|done].
    + intros (file & [->|Hin]%elem_of_cons & Hnone); [done|eauto].
  - split; [|done]. intros _. exists (filename, None). split; [by left|done].
Qed.

Lemma load_schemas_loop_Some listing : forall acc schemas,
  load_schemas_loop listing acc = Some schemas ->
  NoDup (map fst acc) ->
  NoDup (map fst schemas) /\
  map fst schemas =
    reverse (remove_dups (reverse
      (map fst acc ++ map (fun file => file_raw file.1) listing))) /\
  forall name doc,
    (name, doc) ∈ schemas <->
    match last (filter (fun file => file_raw file.1 = name) listing) with
    | Some file => file.2 = Some doc
    | None => (name, doc) ∈ acc
    end.
Proof.
  induction listing as [|[filename [document|]] rest IH]; intros acc schemas;
    simpl; [| |done].
  - intros [= <-] Hnd. split; [done|]. split; [|done].
    rewrite app_nil_r, remove_dups_NoDup by (by rewrite reverse_Permutation).
    by rewrite reverse_involutive.
  - intros Hload Hnd.
    assert (NoDup (map fst (dict_set (file_raw filename) document acc))) as Hnd'.
    { rewrite dict_set_keys. case_decide; [done|].
      apply NoDup_app. split; [done|]. split; [|apply NoDup_singleton].
      by intros x Hx ->%list_elem_of_singleton. }
    destruct (IH _ _ Hload Hnd') as (Hkeys & Horder & Hitems).
    split; [done|]. split.
    + rewrite Horder, dict_set_keys. symmetry. apply first_seen_snoc.
    + intros name doc. rewrite Hitems, filter_cons. simpl.
      destruct (decide (file_raw filename = name)) as [E|E].
      * destruct (filter _ rest) as [|x l] eqn:Ef.
        -- simpl. rewrite dict_set_elem by done. split.
           ++ intros [[_ ->]|[Hn _]]; [done|by destruct Hn].
           ++ intros [= ->]. by left.
        -- change (last ((filename, Some document) :: x :: l)) with (last (x :: l)).
           destruct (last (x :: l)) eqn:El; [done|]. by apply last_None in El.
      * destruct (last (filter _ rest)); [done|].
        rewrite dict_set_elem by done. split.
        -- intros [[-> _]|[_ H]]; [by destruct E|done].
        -- intros H. right. split; [by intros ->|done].
Qed.

Lemma append_nil_r (a : string) : a +:+ "" = a.
Proof.
  induction a as [|c a IH]; [done|].
  change (String c a +:+ "") with (String c (a +:+ "")). by rewrite IH.
Qed.

Lemma replace_from_no_dot name rest :
  "."%char ∉ String.list_ascii_of_string name ->
  PyStr.replace_str ".json" "" (name +:+ rest) = name +:+ PyStr.replace_str ".json" "" rest.
Proof.
  unfold PyStr.replace_str. induction name as [|c name IH]; intros Hc; [done|].
  simpl in Hc. apply not_elem_of_cons in Hc as [Hc Hname].
  change (String c name +:+ rest) with (String c (name +:+ rest)).
  change (String c name +:+ PyStr.replace_from ".json" "" 0 rest)
    with (String c (name +:+ PyStr.replace_from ".json" "" 0 rest)).
  rewrite <- IH by done. cbn [PyStr.replace_from String.prefix].
  destruct (ascii_dec "." c) as [E|_]; [by destruct Hc|done].
Qed.

(** The catalog [discover] builds. *)
Lemma discover_Some listing cat :
  discover listing = Some cat ->
  NoDup (map tap_stream_id cat) /\
  map tap_stream_id cat =
    reverse (remove_dups (reverse (map (fun file => file_raw file.1) listing))) /\
  Forall (fun e => stream e = tap_stream_id e /\
                   key_properties e = ["line_id"; "begin_date"; "end_date"] /\
                   metadata e = None) cat /\
  forall name sch,
    (exists e, e ∈ cat /\ tap_stream_id e = name /\ schema e = sch) <->
    exists file,
      last (filter (fun file => file_raw file.1 = name) listing) = Some file /\
      file.2 = Some sch.
Proof.
  unfold discover, load_schemas. intros Hd.
  destruct (load_schemas_loop listing []) as [schemas|] eqn:Hload; [|done].
  simpl in Hd. injection Hd as <-.
  apply load_schemas_loop_Some in Hload as (Hnd & Horder & Hitems);
    [|apply NoDup_nil_2].
  rewrite map_map. simpl. split; [done|]. split; [done|]. split.
  - apply Forall_map, Forall_true. done.
  - intros name sch. split.
    + intros (e & ([k v] & -> & Hin)%list_elem_of_fmap & <- & <-). simpl.
      apply Hitems in Hin.
      destruct (last (filter _ listing)) as [file|]; [eauto|].
      by apply elem_of_nil in Hin.
    + intros (file & Hlast & Hfile).
      assert ((name, sch) ∈ schemas) as Hin by (apply Hitems; by rewrite Hlast).
      eexists. split; [apply list_elem_of_fmap; by eexists|]. done.
Qed.

Lemma discover_None listing :
  discover listing = None <-> exists file, file ∈ listing /\ file.2 = None.
Proof.
  unfold discover, load_schemas. rewrite <- (load_schemas_loop_None listing []).
  by destruct (load_schemas_loop listing []).
Qed.

(** X3: [discover] raises exactly when some file of the schemas folder
    cannot be opened or parsed.  Otherwise its catalog has one stream for
    each distinct name among the file names with every [.json] taken out, in
    the order of the first file of each name, so that no two streams share
    an id; the stream and its id are that name, the key properties are
    [line_id], [begin_date] and [end_date], and the schema is the document
    of the last file of that name.  A name without a dot is the name of the
    file [name.json] and of the file [name] alike. *)
Theorem X3_discover_one_stream_per_name listing :
  (discover listing = None <-> exists file, file ∈ listing /\ file.2 = None) /\
  (forall cat, discover listing = Some cat ->
     NoDup (map tap_stream_id cat) /\
     map tap_stream_id cat =
       reverse (remove_dups (reverse (map (fun file => file_raw file.1) listing))) /\
     Forall (fun e => stream e = tap_stream_id e /\
                      key_properties e = ["line_id"; "begin_date"; "end_date"]) cat /\
     forall name sch,
       (exists e, e ∈ cat /\ tap_stream_id e = name /\ schema e = sch) <->
       exists file,
         last (filter (fun file => file_raw file.1 = name) listing) = Some file /\
         file.2 = Some sch) /\
  (forall name, "."%char ∉ String.list_ascii_of_string name ->
     file_raw (name +:+ ".json") = name /\ file_raw name = name).
Proof.
  split; [apply discover_None|]. split.
  - intros cat (Hnd & Horder & Hall & Hitems)%discover_Some.
    split; [done|]. split; [done|]. split; [|done].
    eapply Forall_impl; [exact Hall|]. by intros e (? & ? & _).
  - intros name Hname. unfold file_raw. split.
    + rewrite replace_from_no_dot by done.
      change (PyStr.replace_str ".json" "" ".json") with "". apply append_nil_r.
    + rewrite <- (append_nil_r name) at 1. rewrite replace_from_no_dot by done.
      change (PyStr.replace_str ".json" "" "") with "". apply append_nil_r.
Qed.

Lemma filter_id_nil (cat : list catalog_entry) name :
  filter (fun s => tap_stream_id s = name) cat = [] <->
  name ∉ map tap_stream_id cat.
Proof.
  split.
  - intros Hnil (e & Hid & He)%list_elem_of_fmap.
    assert (e ∈ filter (fun s => tap_stream_id s = name) cat) as Hin
      by (by apply list_elem_of_filter).
    rewrite Hnil in Hin. by apply elem_of_nil in Hin.
  - intros Hname. destruct (filter _ cat) as [|x l] eqn:Ef; [done|]. exfalso.
    assert (x ∈ filter (fun s => tap_stream_id s = name) cat) as Hx
      by (rewrite Ef; left).
    apply list_elem_of_filter in Hx as [Hn Hx]. apply Hname.
    rewrite <- Hn. apply list_elem_of_fmap. eauto.
Qed.

(** X4: on the catalog [discover] built, [get_schema] and
    [get_catalog_entry] agree: for every name they give the document of the
    last file of the schemas folder with that name, and [get_schema] raises
    and [get_catalog_entry] returns [None] when the folder has no file of
    that name. *)
Theorem X4_discovered_catalog_lookup listing cat cfg st name :
  discover listing = Some cat ->
  let c := initial_context cfg st cat in
  let document :=
    last (filter (fun file => file_raw file.1 = name) listing) ≫= snd in
  get_schema name c = document /\
  exists found, (get_catalog_entry name c).1 = inr found /\
                schema <$> found = document.
Proof.
  intros Hd c document.
  apply discover_Some in Hd as (Hnd & _ & _ & Hitems).
  rewrite get_catalog_entry_fresh by done. cbn [fst c initial_context catalog].
  unfold get_schema. cbn [c initial_context catalog].
  rewrite build_stream_map_last.
  assert (schema <$> last (filter (fun s => tap_stream_id s = name) cat) = document)
    as Hlast.
  { destruct (last (filter _ cat)) as [e|] eqn:El; simpl.
    - assert (e ∈ filter (fun s => tap_stream_id s = name) cat) as He.
      { apply last_Some in El as (l' & ->). apply elem_of_app. right. left. }
      apply list_elem_of_filter in He as [Hid He].
      destruct (proj1 (Hitems name (schema e))) as (file & Hfile & Hdoc); [eauto|].
      subst document. by rewrite Hfile.
    - subst document.
      destruct (last (filter _ listing)) as [file|] eqn:Hfile; [|done].
      simpl. destruct file.2 as [sch|] eqn:Hdoc; [|done].
      destruct (proj2 (Hitems name sch)) as (e & He & Hid & _); [eauto|].
      apply last_None in El. apply filter_id_nil in El. destruct El.
      rewrite <- Hid. apply list_elem_of_fmap. eauto. }
  split; [|eauto].
  rewrite <- Hlast.
  destruct (filter (fun s => tap_stream_id s = name) cat) as [|x l] eqn:Ef; [done|].
  destruct (last (x :: l)) as [y|] eqn:El; [|by apply last_None in El].
  simpl. f_equal. f_equal.
  apply (filter_id_unique cat name); [done|by rewrite Ef|by rewrite Ef].
Qed.

(** *** How a run fails *)

(** A day that raises: [ApiError] when the vendor's call raised, with
    nothing written after the request; [SchemaError] otherwise, at the first
    row the transformer rejects, with the records of the rows before it
    written. *)
Lemma sync_day_raises stream_name ss et it c n0 e c' :
  new_counts c !! stream_name = Some n0 ->
  sync_day stream_name ss et it c = (inl e, c') ->
  match sales_report "SALES" "SUMMARY" "DAILY" (vendor (config c))
          (datetime.strftime_day it) "1_0" with
  | None => e = ApiError /\ log c' = log c ++ [request (config c) it]
  | Some rep_tsv =>
      e = SchemaError /\
      exists j line recs,
        tsv_to_list rep_tsv !! j = Some line /\
        transform (<["line_id" := VInt (Z.of_nat (S j))]> line) ss = None /\
        length recs = j /\
        log c' = log c ++ request (config c) it ::
                 map (fun rec => WriteRecord stream_name rec et) recs
  end.
Proof.
  intros Hn Hrun. unfold sync_day in Hrun. run_m.
  destruct (sales_report _ _ _ _ _ _) as [rep_tsv|] eqn:Hapi; simpl in *.
  - destruct (write_lines _ _ _ _ _) as [[e1|u] c1] eqn:Hlines; [|done].
    eapply write_lines_effect in Hlines; [|exact Hn].
    destruct Hlines as (recs & _ & _ & _ & _ & Hlog & -> & [index line] & Hp & Hnone).
    injection Hrun as <- <-. split; [done|].
    rewrite enumerate_lookup in Hp.
    destruct (tsv_to_list rep_tsv !! length recs) as [line'|] eqn:Hline; [|done].
    injection Hp as <- <-.
    exists (length recs), line', recs. split; [done|]. split; [done|].
    split; [done|]. simpl in Hlog. by rewrite Hlog, <- app_assoc.
  - by injection Hrun as <- <-.
Qed.

Lemma loop_errors cfg ss : forall b c,
  config c = cfg -> is_Some (new_counts c !! "summary_sales_report") ->
  let res := while_days "summary_sales_report" ss utils_now b c in
  match res.1 with
  | inl ApiError =>
      exists d before,
        due d /\
        sales_report "SALES" "SUMMARY" "DAILY" (vendor cfg)
          (datetime.strftime_day d) "1_0" = None /\
        log res.2 = before ++ [request cfg d]
  | inl SchemaError =>
      exists d before rep_tsv j line recs,
        due d /\
        sales_report "SALES" "SUMMARY" "DAILY" (vendor cfg)
          (datetime.strftime_day d) "1_0" = Some rep_tsv /\
        tsv_to_list rep_tsv !! j = Some line /\
        transform (<["line_id" := VInt (Z.of_nat (S j))]> line) ss = None /\
        length recs = j /\
        log res.2 = before ++ request cfg d ::
                    map (fun rec => WriteRecord "summary_sales_report" rec utils_now) recs
  | inl OverflowError | inr _ => True
  | inl _ => False
  end.
Proof.
  intros b c Hcfg Hcnt res. subst res.
  apply (while_days_rule "summary_sales_report" ss utils_now
    (fun _ c => config c = cfg /\ is_Some (new_counts c !! "summary_sales_report")));
    [done|done| | |done].
  - intros it c0 next e c' [Hc [n0 Hn]] Hnext Hle Hday. cbn [fst snd].
    assert (due it) as Hdue by (by exists next).
    eapply sync_day_raises in Hday; [|exact Hn]. rewrite Hc in Hday.
    destruct (sales_report _ _ _ _ _ _) as [rep_tsv|] eqn:Hapi.
    + destruct Hday as (-> & j & line & recs & Hline & Ht & Hlen & Hlog).
      exists it, (log c0), rep_tsv, j, line, recs. done.
    + destruct Hday as (-> & Hlog). exists it, (log c0). done.
  - intros it c0 next u c' [Hc [n0 Hn]] Hnext Hle Hday.
    eapply sync_day_effect in Hday; [|exact Hn].
    destruct Hday as (recs & (Hcfg' & _) & Hnew & _).
    split; [congruence|]. rewrite Hnew, lookup_insert_eq. done.
Qed.

Lemma id_in_catalog (cat : list catalog_entry) name :
  is_Some (build_stream_map cat !! name) <-> name ∈ map tap_stream_id cat.
Proof.
  split; [|apply build_stream_map_is_Some].
  intros [e [<- He]%build_stream_map_Some]. apply list_elem_of_fmap. eauto.
Qed.

(** X5: how a run can end.  It raises [TypeError] exactly when the catalog
    has no stream [summary_sales_report], and [ValueError] exactly when it
    has one and the bookmark text does not parse; in both cases before any
    request.  [KeyError] is never raised: the counter the loop increments
    was set to 0 by [sync].  [ApiError] means that the vendor's call for a
    due day raised, and that request is the last call of the run.
    [SchemaError] means that the report of a due day was fetched and the
    transformer rejected its row [j], counting from 0, after the records of
    the [j] rows before it were written; nothing follows them. *)
Theorem X5_how_a_run_fails cfg st cat :
  let res := main cfg st cat in
  (res.1 = inl TypeError <-> "summary_sales_report" ∉ map tap_stream_id cat) /\
  (res.1 = inl ValueError <->
     "summary_sales_report" ∈ map tap_stream_id cat /\
     datetime.strptime_bookmark (bookmark_text cfg st) = None) /\
  res.1 <> inl KeyError /\
  (res.1 = inl ApiError ->
     exists d before,
       due d /\
       sales_report "SALES" "SUMMARY" "DAILY" (vendor cfg)
         (datetime.strftime_day d) "1_0" = None /\
       log res.2 = before ++ [request cfg d]) /\
  (res.1 = inl SchemaError ->
     exists entry d before rep_tsv j line recs,
       build_stream_map cat !! "summary_sales_report" = Some entry /\
       due d /\
       sales_report "SALES" "SUMMARY" "DAILY" (vendor cfg)
         (datetime.strftime_day d) "1_0" = Some rep_tsv /\
       tsv_to_list rep_tsv !! j = Some line /\
       transform (<["line_id" := VInt (Z.of_nat (S j))]> line) (schema entry) = None /\
       length recs = j /\
       log res.2 = before ++ request cfg d ::
                   map (fun rec => WriteRecord "summary_sales_report" rec utils_now) recs).
Proof.
  intros res. subst res. rewrite main_prelude.
  destruct (build_stream_map cat !! "summary_sales_report") as [entry|] eqn:He.
  - assert ("summary_sales_report" ∈ map tap_stream_id cat) as Hin
      by (apply id_in_catalog; by rewrite He).
    destruct (datetime.strptime_bookmark (bookmark_text cfg st)) as [b|] eqn:Hb.
    + assert (Hloop := loop_errors cfg (schema entry) b (declared cfg st cat) eq_refl).
      cbv zeta in Hloop.
      destruct (while_days _ _ _ _ _) as [[e|u] c'] eqn:Hw; cbn [fst snd] in *.
      * specialize (Hloop (ex_intro _ 0 (declared_count cfg st cat entry He))).
        destruct e; try done.
        -- repeat split; try done; try by intros [? ?].
        -- repeat split; try done; try by intros [? ?].
        -- repeat split; try done; try by intros [? ?].
           intros _. destruct Hloop as (d & before & rep_tsv & j & line & recs & H).
           exists entry, d, before, rep_tsv, j, line, recs. done.
      * repeat split; try done; by intros [? ?].
    + cbn [fst snd]. repeat split; try done.
  - assert ("summary_sales_report" ∉ map tap_stream_id cat) as Hin.
    { intros H%id_in_catalog. rewrite He in H. by destruct H. }
    cbn [fst snd]. repeat split; try done. by intros [? ?].
Qed.

(** *** The sync of a discovered catalog *)

(** The log of a run begins with the schema messages, and has no other. *)
Lemma main_log_schemas cfg st cat :
  exists rest, log (main cfg st cat).2 = map schema_message cat ++ rest /\
               schemas_written rest = [].
Proof.
  destruct (build_stream_map cat !! "summary_sales_report") as [entry|] eqn:He;
    [destruct (datetime.strptime_bookmark (bookmark_text cfg st)) as [b|] eqn:Hb|].
  - destruct (main_shape cfg st cat entry b He Hb)
      as (n & tail & _ & Htail & Hlog & _).
    eexists. split; [exact Hlog|].
    rewrite schemas_written_app, schemas_written_blocks.
    inversion Htail; subst; try done.
    unfold schemas_written. simpl. by apply omap_map_None.
  - destruct (main_stops_early cfg st cat) as (e & -> & _); [by right|].
    exists []. by rewrite app_nil_r.
  - destruct (main_stops_early cfg st cat) as (e & -> & _); [by left|].
    exists []. by rewrite app_nil_r.
Qed.

Lemma main_TypeError cfg st cat :
  (main cfg st cat).1 = inl TypeError <->
  "summary_sales_report" ∉ map tap_stream_id cat.
Proof.
  rewrite <- id_in_catalog. split.
  - intros Hres [entry He].
    destruct (datetime.strptime_bookmark (bookmark_text cfg st)) as [b|] eqn:Hb.
    + destruct (main_shape cfg st cat entry b He Hb) as (n & tail & _ & Htail & _).
      rewrite Hres in Htail. inversion Htail as [| |e recs _ _ [?|?]]; done.
    + rewrite main_prelude, He, Hb in Hres. done.
  - intros Hno. rewrite main_prelude.
    destruct (build_stream_map cat !! _); [|done]. destruct Hno. eauto.
Qed.

(** The run does not read the metadata of the catalog. *)
Lemma main_with_metadata g cfg st cat :
  observe (main cfg st (map (with_metadata g) cat)) = observe (main cfg st cat).
Proof.
  rewrite !main_prelude, build_stream_map_with_metadata.
  destruct (build_stream_map cat !! "summary_sales_report") as [entry|]; simpl.
  - destruct (datetime.strptime_bookmark (bookmark_text cfg st)) as [b|].
    + rewrite declared_with_metadata, while_days_frame.
      by destruct (while_days _ _ _ _ (declared cfg st cat)) as [[e|u] c'].
    + unfold observe. simpl. by rewrite zero_counts_with_metadata, map_map.
  - unfold observe. simpl. by rewrite zero_counts_with_metadata, map_map.
Qed.

(** X6: [main] with the flag [--discover] prints the discovered catalog
    and syncs nothing.  Without the flag and without a catalog argument it
    syncs the discovered catalog: the schema messages are one for each
    distinct name of the schemas folder, in the order of the first file of
    each name, each with the document of the last file of that name and the
    key properties [line_id], [begin_date] and [end_date]; the run raises
    [TypeError] exactly when no file of the folder is named
    [summary_sales_report]; and whatever metadata the discovered entries
    were given would change nothing of the run. *)
Theorem X6_main_with_discovered_catalog args listing cat :
  discover listing = Some cat ->
  (args_discover args = true -> main_args args listing = Printed cat) /\
  (args_discover args = false -> args_catalog args = None ->
   exists run,
     main_args args listing = Synced run /\
     run = main (args_config args) (args_state args) cat /\
     schemas_written (log run.2) =
       reverse (remove_dups (reverse (map (fun file => file_raw file.1) listing))) /\
     (forall name sch props, WriteSchema name sch props ∈ log run.2 ->
        props = ["line_id"; "begin_date"; "end_date"] /\
        exists file,
          last (filter (fun file => file_raw file.1 = name) listing) = Some file /\
          file.2 = Some sch) /\
     (run.1 = inl TypeError <->
      forall file, file ∈ listing -> file_raw file.1 <> "summary_sales_report") /\
     forall g,
       observe (main (args_config args) (args_state args) (map (with_metadata g) cat))
       = observe run).
Proof.
  intros Hd. unfold main_args. rewrite Hd. split; [by intros ->|].
  intros -> ->. eexists. split; [done|]. split; [done|].
  apply discover_Some in Hd as (Hnd & Horder & Hall & Hitems).
  set (cfg := args_config args). set (st := args_state args).
  destruct (main_log_schemas cfg st cat) as (rest & Hlog & Hrest).
  split; [|split; [|split]].
  - by rewrite Hlog, schemas_written_app, schemas_written_schemas, Hrest, app_nil_r.
  - intros name sch props. rewrite Hlog.
    intros [Hin|Hin]%elem_of_app.
    + apply list_elem_of_fmap in Hin as (e & [= -> -> ->] & He).
      split; [by eapply Forall_forall in Hall as (_ & ? & _)|].
      apply Hitems. eauto.
    + assert (name ∈ schemas_written rest) as Hn.
      { apply list_elem_of_omap. eexists. split; [exact Hin|done]. }
      rewrite Hrest in Hn. by apply elem_of_nil in Hn.
  - rewrite main_TypeError, Horder, elem_of_reverse, elem_of_remove_dups,
      elem_of_reverse. split.
    + intros Hno file Hfile E. apply Hno. apply list_elem_of_fmap. eauto.
    + intros Hno (file & E & Hfile)%list_elem_of_fmap. by apply (Hno file).
  - intros g. apply main_with_metadata.
Qed.

(** *** More on the parser *)

Lemma split_app sep a b :
  PyStr.split sep (a +:+ String sep b) = PyStr.split sep a ++ PyStr.split sep b.
Proof.
  induction a as [|c a IH].
  - change ("" +:+ String sep b) with (String sep b). cbn [PyStr.split].
    by rewrite Ascii.eqb_refl.
  - change (String c a +:+ String sep b) with (String c (a +:+ String sep b)).
    cbn [PyStr.split]. rewrite IH.
    destruct (Ascii.eqb c sep); [done|].
    destruct (PyStr.split sep a) as [|w ws] eqn:E; [by apply split_nonempty in E|].
    done.
Qed.

Lemma split_no_sep sep a :
  sep ∉ String.list_ascii_of_string a -> PyStr.split sep a = [a].
Proof.
  induction a as [|c a IH]; intros Hsep; [done|].
  simpl in Hsep. apply not_elem_of_cons in Hsep as [Hc Ha].
  cbn [PyStr.split]. rewrite IH by done.
  destruct (Ascii.eqb_spec c sep) as [->|_]; [done|done].
Qed.

Lemma parse_lines_app header l1 l2 :
  parse_lines header (l1 ++ l2) = parse_lines header l1 ++ parse_lines header l2.
Proof. by rewrite !parse_lines_filter, filter_app, map_app. Qed.

Lemma tsv_to_list_lines a b :
  tsv_to_list (a +:+ String newline b) =
  tsv_to_list a ++ parse_lines (header_of (hd "" (PyStr.split newline a)))
                     (PyStr.split newline b).
Proof.
  unfold tsv_to_list. rewrite split_app.
  destruct (PyStr.split newline a) as [|l0 ls] eqn:E; [by apply split_nonempty in E|].
  simpl. apply parse_lines_app.
Qed.

(** X7: blank lines do not count.  A text parses like the same text with
    a line break at its end, or with a second line break after any of its
    line breaks; and a text with no line break at all, the empty text or a
    header alone, parses to no row. *)
Theorem X7_tsv_to_list_blank_lines (a b : string) :
  tsv_to_list (a +:+ String newline "") = tsv_to_list a /\
  tsv_to_list (a +:+ String newline (String newline b))
    = tsv_to_list (a +:+ String newline b) /\
  (newline ∉ String.list_ascii_of_string a -> tsv_to_list a = []).
Proof.
  split; [|split].
  - rewrite tsv_to_list_lines. simpl. by rewrite app_nil_r.
  - by rewrite !tsv_to_list_lines.
  - intros Ha. unfold tsv_to_list. by rewrite split_no_sep.
Qed.

Lemma lstrip_spaces line :
  (forall c, c ∈ String.list_ascii_of_string line -> PyStr.is_space c = true) ->
  PyStr.lstrip line = "".
Proof.
  induction line as [|c line IH]; intros Hsp; [done|]. simpl in *.
  rewrite (Hsp c) by left. apply IH. intros c' Hc'. apply Hsp. by right.
Qed.

Lemma fill_line_beyond cols hdr : forall start obj,
  (length cols <= start)%nat ->
  fill_line cols (PyStr.enumerate start hdr) obj = obj.
Proof.
  induction hdr as [|name hdr IH]; intros start obj Hlen; [done|]. simpl.
  rewrite bool_decide_eq_false_2 by lia. apply IH. lia.
Qed.

(** X8: a line that is not empty but holds only white space other than
    tabs, such as the carriage return a blank line of a report with CRLF
    line ends leaves, is not skipped: it gives a row whose only field is the
    first column of the header, with the empty text as its value. *)
Theorem X8_white_line_is_a_row header line rest :
  line <> "" ->
  (forall c, c ∈ String.list_ascii_of_string line ->
     PyStr.is_space c = true /\ c <> tab) ->
  parse_lines header (line :: rest) =
    match header with
    | [] => ∅
    | name :: _ => {[ name := VStr "" ]}
    end :: parse_lines header rest.
Proof.
  intros Hne Hsp. cbn [parse_lines].
  rewrite bool_decide_eq_false_2 by (by destruct line).
  f_equal. unfold line_to_obj.
  rewrite split_no_sep by (intros Hin; by apply Hsp in Hin as [_ ?]).
  destruct header as [|name header]; [done|]. simpl.
  rewrite fill_line_beyond by (simpl; lia).
  unfold PyStr.strip. rewrite lstrip_spaces; [done|].
  intros c Hc. by apply Hsp.
Qed.





(** X9: when the header repeats a column name, the mapping of a row holds
    under that name the stripped value of the last column of that name the
    row has. *)
Theorem X9_repeated_column_name_last_wins header row i name :
  header !! i = Some name ->
  (i < length (PyStr.split tab row))%nat ->
  (forall j, (i < j < length (PyStr.split tab row))%nat -> header !! j <> Some name) ->
  line_to_obj header row !! name =
  (fun v => VStr (PyStr.strip v)) <$> PyStr.split tab row !! i.
Proof.
  intros Hi Hlt Hlast. unfold line_to_obj.
  rewrite (fill_line_last _ _ 0 ∅ i name); [done|done|simpl; lia|].
  intros j Hij Hj. apply Hlast. simpl in Hj. lia.
Qed.

(** *** More on the shape of a run *)

Lemma states_written_blocks cfg st ss ds :
  states_written (concat (map (day_block cfg st ss) ds)) = map (bookmarked st) ds.
Proof.
  induction ds as [|d ds IH]; [done|]. cbn [map concat].
  rewrite states_written_app, IH. f_equal.
  unfold day_block, states_written. cbn [omap list_omap request].
  rewrite omap_app, omap_map_None by done. done.
Qed.

(** What the end of a run adds to the log. *)
Lemma log_tail_reads cfg st cat ss b n r tail :
  log_tail cfg st cat ss b n r tail ->
  bookmarks_written tail = [] /\
  states_written tail =
    match r with
    | inr _ => [state (completed cfg st cat ss b n)]
    | inl _ => []
    end /\
  (fetched tail = [] \/
   fetched tail = [datetime.strftime_day (datetime.plus_days b (Z.of_nat n))] /\
   due (datetime.plus_days b (Z.of_nat n)) /\ exists e, r = inl e).
Proof.
  intros Htail. inversion Htail as [Hnot| Hovf |e recs Hdue Hnone He Hrows]; subst.
  - split; [done|]. split; [done|]. by left.
  - split; [done|]. split; [done|]. by left.
  - unfold bookmarks_written, states_written, fetched. cbn [omap list_omap request].
    rewrite !omap_map_None by done. split; [done|]. split; [done|].
    right. eauto.
Qed.

Lemma due_before_now d :
  due d -> datetime.ordinal d < datetime.ordinal utils_now.
Proof.
  intros (next & [-> _]%add_days_Some & Hle%leb_true_ordinal). simpl in Hle. lia.
Qed.

(** When a day is due, so are the days before it. *)
Lemma due_earlier b (i j : nat) :
  1 <= datetime.ordinal b -> (i <= j)%nat ->
  due (datetime.plus_days b (Z.of_nat j)) -> due (datetime.plus_days b (Z.of_nat i)).
Proof.
  intros Hb Hij Hdue. destruct (decide (i = j)) as [->|Hne]; [done|].
  assert (Hlt := due_before_now _ Hdue).
  destruct Hdue as (next & [-> Hr]%add_days_Some & Hle). simpl in *.
  exists (datetime.plus_days (datetime.plus_days b (Z.of_nat i)) 1). split.
  - apply add_days_plus. simpl. lia.
  - apply leb_ordinal_lt. simpl. lia.
Qed.

Lemma strftime_day_days_NoDup b m :
  datetime.valid b ->
  (forall d, d ∈ days b m -> due d) ->
  NoDup (map datetime.strftime_day (days b m)).
Proof.
  intros Hval Hdue. unfold days. rewrite <- list_fmap_compose.
  apply NoDup_fmap_2_strong; [|apply NoDup_seq].
  intros i j Hi Hj E. simpl in E.
  assert (forall k : nat, k ∈ seq 0 m ->
            datetime.valid (datetime.plus_days b (Z.of_nat k))) as Hv.
  { intros k Hk. eapply due_valid; [done|done|]. apply Hdue.
    apply elem_of_days. exists k. apply elem_of_seq in Hk. split; [lia|done]. }
  apply strftime_day_inj in E; [simpl in E; lia| |].
  - by destruct (Hv i Hi).
  - by destruct (Hv j Hj).
Qed.

(** X10: the reports a run requests are those of consecutive days from the
    day of its bookmark on, oldest first and with no day left out or
    requested twice; each of these days is due, so it lies before the day of
    the extraction time: the report of the current day is never requested,
    and there are no more requests than days between the bookmark and the
    extraction time. *)
Theorem X10_requests_are_consecutive_due_days cfg st cat b :
  datetime.strptime_bookmark (bookmark_text cfg st) = Some b ->
  exists m : nat,
    fetched (log (main cfg st cat).2) = map datetime.strftime_day (days b m) /\
    (forall d, d ∈ days b m ->
       due d /\ datetime.valid d /\
       datetime.ordinal d < datetime.ordinal utils_now) /\
    Z.of_nat m <= Z.max 0 (datetime.ordinal utils_now - datetime.ordinal b) /\
    NoDup (fetched (log (main cfg st cat).2)).
Proof.
  intros Hb. assert (Hval := Hb). apply strptime_valid in Hval as [Hval _].
  assert (exists m : nat,
    fetched (log (main cfg st cat).2) = map datetime.strftime_day (days b m) /\
    forall d, d ∈ days b m -> due d) as (m & Hf & Hdue).
  { destruct (build_stream_map cat !! "summary_sales_report") as [entry|] eqn:He.
    - destruct (main_shape cfg st cat entry b He Hb)
        as (n & tail & Hdays & Htail & Hlog & _).
      apply log_tail_reads in Htail as (_ & _ & [Ht|(Ht & Hd & _)]).
      + exists n. rewrite Hlog, !fetched_app, fetched_schemas, fetched_blocks, Ht.
        rewrite app_nil_r. split; [done|]. intros d Hd. by apply Hdays.
      + exists (S n). rewrite Hlog, !fetched_app, fetched_schemas, fetched_blocks, Ht.
        rewrite days_S, map_app. split; [done|].
        intros d [Hin|Hin%list_elem_of_singleton]%elem_of_app;
          [by apply Hdays|by subst].
    - exists 0%nat. destruct (main_stops_early cfg st cat) as (e & -> & _); [by left|].
      cbn [snd declared log]. rewrite fetched_schemas. split; [done|].
      by intros d ?%elem_of_nil. }
  exists m. split; [done|]. split; [|split].
  - intros d Hd. split; [by apply Hdue|]. split; [|by apply due_before_now, Hdue].
    assert (Hd' := Hd). apply elem_of_days in Hd' as (i & _ & ->).
    eapply due_valid; [done|done|by apply Hdue].
  - destruct m as [|k]; [lia|].
    assert (due (datetime.plus_days b (Z.of_nat k))) as Hk
      by (apply Hdue, elem_of_days; exists k; split; [lia|done]).
    apply due_before_now in Hk. simpl in Hk. lia.
  - rewrite Hf. by apply strftime_day_days_NoDup.
Qed.

(** X11: a run that returns normally has worked through every due day
    and no other: with [n] the number of due days from the bookmark on, it
    requested the reports of these [n] days in order, fetched and
    transformed each without an exception, wrote their records in day and
    row order, wrote the bookmark of each day and the state holding it, and
    at the end the state once more; the state it leaves holds the bookmark
    of the last of the days, or is the state it started with when no day was
    due. *)
Theorem X11_normal_run_covers_the_due_days cfg st cat entry b :
  build_stream_map cat !! "summary_sales_report" = Some entry ->
  datetime.strptime_bookmark (bookmark_text cfg st) = Some b ->
  (main cfg st cat).1 = inr tt ->
  exists n : nat,
    (forall i : nat, due (datetime.plus_days b (Z.of_nat i)) <-> (i < n)%nat) /\
    (forall d, d ∈ days b n -> is_Some (day_records cfg (schema entry) d)) /\
    fetched (log (main cfg st cat).2) = map datetime.strftime_day (days b n) /\
    records_written (log (main cfg st cat).2)
      = concat (map (records_of cfg (schema entry)) (days b n)) /\
    bookmarks_written (log (main cfg st cat).2)
      = map datetime.strftime_bookmark (days b n) /\
    states_written (log (main cfg st cat).2)
      = map (bookmarked st) (days b n) ++ [state (main cfg st cat).2] /\
    state (main cfg st cat).2 = match last (days b n) with
                                | Some d => bookmarked st d
                                | None => st
                                end.
Proof.
  intros He Hb Hok. assert (Hval := Hb). apply strptime_valid in Hval as [[Hord _] _].
  destruct (main_shape cfg st cat entry b He Hb)
    as (n & tail & Hdays & Htail & Hlog & Hst & _).
  rewrite Hok in Htail. inversion Htail as [Hnot| |]; subst.
  exists n. split; [|split].
  - intros i. split.
    + intros Hdue. destruct (decide (i < n)%nat) as [|Hge]; [done|].
      destruct Hnot. apply (due_earlier b n i); [lia|lia|done].
    + intros Hi. apply Hdays, elem_of_days. eauto.
  - intros d Hd. by apply Hdays.
  - rewrite Hlog, !fetched_app, !records_written_app, !bookmarks_written_app,
      !states_written_app, fetched_schemas, records_written_schemas,
      bookmarks_written_schemas, states_written_schemas, fetched_blocks,
      records_written_blocks, bookmarks_written_blocks, states_written_blocks.
    rewrite Hst. simpl. rewrite !app_nil_r. done.
Qed.


(** X13: the bookmark a run leaves names a day it has already worked
    through.  When a run, however it ends, has written a bookmark, the last
    one written is what the state holds, and it is the formatted value of a
    due day whose report the run had requested and whose records it had
    written.  From the year 1000 on, a run resumed from that state, even at
    the same extraction time, parses it back and requests the report of that
    very day first.  Before the year 1000 the year is written with fewer
    than four digits, the text does not parse, and the resumed run raises
    [ValueError] before any request. *)
Theorem X13_resumed_run_repeats_the_bookmarked_day cfg st cat entry b v :
  build_stream_map cat !! "summary_sales_report" = Some entry ->
  datetime.strptime_bookmark (bookmark_text cfg st) = Some b ->
  last (bookmarks_written (log (main cfg st cat).2)) = Some v ->
  let resumed := main cfg (state (main cfg st cat).2) cat in
  exists d,
    v = datetime.strftime_bookmark d /\
    singer_get_bookmark (state (main cfg st cat).2) "summary_sales_report" "start_date"
      = Some v /\
    due d /\
    datetime.strftime_day d ∈ fetched (log (main cfg st cat).2) /\
    is_Some (day_records cfg (schema entry) d) /\
    (datetime.ymd2ord 1000 1 1 <= datetime.ordinal d ->
     datetime.strptime_bookmark v = Some d /\
     head (fetched (log resumed.2)) = Some (datetime.strftime_day d)) /\
    (datetime.ordinal d < datetime.ymd2ord 1000 1 1 ->
     datetime.strptime_bookmark v = None /\
     resumed.1 = inl ValueError /\ fetched (log resumed.2) = []).
Proof.
  intros He Hb Hlast resumed. subst resumed.
  assert (Hval := Hb). apply strptime_valid in Hval as [Hval Hus].
  destruct (main_shape cfg st cat entry b He Hb)
    as (n & tail & Hdays & Htail & Hlog & Hst & _).
  assert (Hreads := log_tail_reads _ _ _ _ _ _ _ _ Htail).
  destruct Hreads as (Hbm & _ & _).
  rewrite Hlog, !bookmarks_written_app, bookmarks_written_schemas,
    bookmarks_written_blocks, Hbm, app_nil_r in Hlast.
  change (map schema_message cat ++ ?l) with l in Hlast.
  destruct n as [|n]; [done|].
  rewrite days_S, map_app in Hlast. cbn [map app] in Hlast.
  rewrite last_snoc in Hlast. injection Hlast as <-.
  set (d := datetime.plus_days b (Z.of_nat n)) in *.
  assert (d ∈ days b (S n)) as Hd by (apply elem_of_days; exists n; split; [lia|done]).
  destruct (Hdays d Hd) as [Hdue Hrecs].
  assert (datetime.valid d) as Hdval by (by eapply due_valid).
  assert (state (main cfg st cat).2 = bookmarked st d) as Hstate.
  { rewrite Hst. cbn [completed state]. by rewrite days_S, last_snoc. }
  assert (bookmark_text cfg (state (main cfg st cat).2) = datetime.strftime_bookmark d)
    as Htext by (unfold bookmark_text; by rewrite Hstate, get_bookmarked).
  exists d. split; [done|]. split; [by rewrite Hstate, get_bookmarked|].
  split; [done|]. split; [|split; [done|split]].
  - rewrite Hlog, !fetched_app, fetched_schemas, fetched_blocks.
    apply elem_of_app. right. apply elem_of_app. left.
    apply list_elem_of_fmap. eauto.
  - intros H1000.
    assert (datetime.strptime_bookmark (datetime.strftime_bookmark d) = Some d)
      as Hparse by (by apply strptime_strftime).
    split; [done|].
    apply first_request with (entry := entry); [done| |done]. by rewrite Htext.
  - intros Hearly.
    assert (datetime.strptime_bookmark (datetime.strftime_bookmark d) = None)
      as Hparse by (by apply strptime_strftime_early).
    split; [done|]. rewrite main_prelude, He, Htext, Hparse. cbn [fst snd declared log].
    by rewrite fetched_schemas.
Qed.

(** *** The state *)

Lemma get_bookmark_other st s k v :
  (s, k) <> ("summary_sales_report", "start_date") ->
  singer_get_bookmark
    (singer_write_bookmark st "summary_sales_report" "start_date" v) s k
  = singer_get_bookmark st s k.
Proof.
  intros Hne. unfold singer_get_bookmark, singer_write_bookmark.
  destruct (decide (s = "summary_sales_report")) as [->|Hs].
  - rewrite lookup_insert_eq. simpl.
    rewrite lookup_insert_ne; [done|]. intros <-. by apply Hne.
  - by rewrite lookup_insert_ne.
Qed.

Lemma main_states cfg st cat :
  exists ds : list datetime.t,
    bookmarks_written (log (main cfg st cat).2) = map datetime.strftime_bookmark ds /\
    states_written (log (main cfg st cat).2) =
      map (bookmarked st) ds ++
      match (main cfg st cat).1 with
      | inr _ => [state (main cfg st cat).2]
      | inl _ => []
      end /\
    state (main cfg st cat).2 = default st (last (map (bookmarked st) ds)).
Proof.
  destruct (build_stream_map cat !! "summary_sales_report") as [entry|] eqn:He;
    [destruct (datetime.strptime_bookmark (bookmark_text cfg st)) as [b|] eqn:Hb|].
  - destruct (main_shape cfg st cat entry b He Hb)
      as (n & tail & _ & Htail & Hlog & Hst & _).
    apply log_tail_reads in Htail as (Hbm & Hsw & _).
    exists (days b n).
    rewrite Hlog, !bookmarks_written_app, !states_written_app,
      bookmarks_written_schemas, states_written_schemas, bookmarks_written_blocks,
      states_written_blocks, Hbm, Hsw, Hst, app_nil_r.
    cbn [completed state]. split; [done|]. split.
    + simpl. by destruct (main cfg st cat).1.
    + rewrite fmap_last. by destruct (last (days b n)).
  - destruct (main_stops_early cfg st cat) as (e & -> & _); [by right|].
    exists []. cbn [fst snd declared log state].
    by rewrite bookmarks_written_schemas, states_written_schemas.
  - destruct (main_stops_early cfg st cat) as (e & -> & _); [by left|].
    exists []. cbn [fst snd declared log state].
    by rewrite bookmarks_written_schemas, states_written_schemas.
Qed.

(** X14: a run leaves alone whatever else the state holds: the bookmarks
    of other streams and the other keys of its own stream read the same in
    every state message it writes and in the state it leaves as in the state
    it started with. *)
Theorem X14_other_bookmarks_are_kept cfg st cat s k :
  (s, k) <> ("summary_sales_report", "start_date") ->
  singer_get_bookmark (state (main cfg st cat).2) s k = singer_get_bookmark st s k /\
  forall st', st' ∈ states_written (log (main cfg st cat).2) ->
    singer_get_bookmark st' s k = singer_get_bookmark st s k.
Proof.
  intros Hne. destruct (main_states cfg st cat) as (ds & _ & Hsw & Hst).
  assert (forall st', st' ∈ map (bookmarked st) ds ->
            singer_get_bookmark st' s k = singer_get_bookmark st s k) as Hds.
  { intros st' (d & -> & _)%list_elem_of_fmap. by apply get_bookmark_other. }
  assert (singer_get_bookmark (state (main cfg st cat).2) s k
          = singer_get_bookmark st s k) as Hend.
  { rewrite Hst. destruct (last (map (bookmarked st) ds)) as [st'|] eqn:El; [|done].
    simpl. apply Hds. apply last_Some in El as (l' & ->).
    apply elem_of_app. right. left. }
  split; [done|]. intros st'. rewrite Hsw.
  intros [Hin|Hin]%elem_of_app; [by apply Hds|].
  destruct (main cfg st cat).1; [by apply elem_of_nil in Hin|].
  by apply list_elem_of_singleton in Hin as ->.
Qed.

(** X15: the state messages of a run.  The run writes one state message
    after each bookmark, holding that bookmark, and when it returns normally
    one more at the end, which repeats the state it leaves; a run that
    raises writes no state message after the one of its last bookmark.  The
    state a run leaves is the one of its last bookmark, or the state it
    started with when it wrote none. *)
Theorem X15_state_messages cfg st cat :
  let res := main cfg st cat in
  let marks := bookmarks_written (log res.2) in
  let states := states_written (log res.2) in
  Forall2 (fun st' v =>
             singer_get_bookmark st' "summary_sales_report" "start_date" = Some v)
          (take (length marks) states) marks /\
  states = take (length marks) states ++
           match res.1 with inr _ => [state res.2] | inl _ => [] end /\
  state res.2 = default st (last (take (length marks) states)).
Proof.
  intros res marks states. subst res marks states.
  destruct (main_states cfg st cat) as (ds & -> & -> & ->).
  rewrite length_map, take_app_length' by (by rewrite length_map).
  split; [|done].
  apply Forall2_fmap, Forall_Forall2_diag, Forall_true.
  intros d. apply get_bookmarked.
Qed.

(** X16: [is_selected] answers [False] for a stream the catalog does not
    list; for a listed stream it looks at the last entry with that id: when
    the entry carries metadata it answers what the metadata holds under the
    empty breadcrumb and the key [selected], and when the entry has no key
    [metadata], as the entries of [discover] have none, it raises
    [KeyError].  Either way it changes nothing but the stream map, which it
    builds; and a sync that runs after it does what it would have done
    without it. *)
Theorem X16_is_selected_before_the_sync cfg st cat name :
  let c := initial_context cfg st cat in
  (name ∉ map tap_stream_id cat -> (is_selected name c).1 = inr (Some false)) /\
  (forall s raw, last (filter (fun s => tap_stream_id s = name) cat) = Some s ->
     metadata s = Some raw ->
     (is_selected name c).1
     = inr (metadata_get (metadata_to_map raw) [] "selected")) /\
  (forall s, last (filter (fun s => tap_stream_id s = name) cat) = Some s ->
     metadata s = None -> (is_selected name c).1 = inl KeyError) /\
  (is_selected name c).2 = with_stream_map (build_stream_map cat) c /\
  sync (is_selected name c).2 = main cfg st cat.
Proof.
  intros c.
  assert (is_selected name c =
          (match build_stream_map cat !! name with
           | Some s =>
               match metadata s with
               | Some raw => inr (metadata_get (metadata_to_map raw) [] "selected")
               | None => inl KeyError
               end
           | None => inr (Some false)
           end,
           with_stream_map (build_stream_map cat) c)) as ->.
  { unfold is_selected. cbv beta iota zeta delta [bind].
    rewrite get_catalog_entry_fresh by done. cbn [c initial_context catalog].
    destruct (build_stream_map cat !! name) as [s|]; [|done].
    by destruct (metadata s). }
  cbn [fst snd]. rewrite build_stream_map_last.
  split; [|split; [|split; [|split; [done|]]]].
  - intros Hno%filter_id_nil. by rewrite Hno.
  - intros s raw -> ->. done.
  - intros s -> ->. done.
  - unfold main, sync, query_report, get_catalog_entry.
    cbv beta iota zeta delta [bind gets].
    rewrite !declare_streams_effect.
    cbn [c initial_context with_stream_map stream_map catalog config state new_counts
         updated_counts log].
    rewrite (bool_decide_eq_true_2 (∅ = ∅)) by done.
    destruct (bool_decide (build_stream_map cat = ∅)); reflexivity.
Qed.


(** *** The keys and values of a row *)



Lemma map_chars_chars f s :
  String.list_ascii_of_string (PyStr.map_chars f s)
  = map f (String.list_ascii_of_string s).
Proof. induction s as [|c s IH]; [done|]. simpl. by rewrite <- IH. Qed.

Lemma lower_char_range c :
  let n := nat_of_ascii (PyStr.lower_char c) in
  (~ (65 <= n <= 90)%nat) /\
  (PyStr.lower_char c = c \/ (97 <= n)%nat).
Proof.
  unfold PyStr.lower_char. cbv zeta.
  set (n := nat_of_ascii c).
  destruct (((65 <=? n) && (n <=? 90) ||
             (192 <=? n) && (n <=? 222) && negb (n =? 215))%nat) eqn:E.
  - assert ((65 <= n <= 90)%nat \/ (192 <= n <= 222)%nat) as Hn.
    { apply orb_true_iff in E as [E|E].
      - apply andb_true_iff in E as [H1%Nat.leb_le H2%Nat.leb_le]. lia.
      - apply andb_true_iff in E as [E _].
        apply andb_true_iff in E as [H1%Nat.leb_le H2%Nat.leb_le]. lia. }
    rewrite nat_ascii_embedding by lia. lia.
  - split; [|by left]. intros [H1%Nat.leb_le H2%Nat.leb_le].
    fold n in H1, H2. by rewrite H1, H2 in E.
Qed.

(** A column name of the header: no space, no capital letter, no tab. *)
Lemma header_of_names line0 name c :
  name ∈ header_of line0 -> c ∈ String.list_ascii_of_string name ->
  c <> " "%char /\ c <> tab /\ ~ (65 <= nat_of_ascii c <= 90)%nat /\
  (c = "_"%char \/ exists c0, c0 ∈ String.list_ascii_of_string line0 /\
                              c = PyStr.lower_char c0).
Proof.
  unfold header_of. intros (w & -> & Hw)%list_elem_of_fmap Hc.
  apply split_pieces in Hw as [Htab Hsub].
  unfold PyStr.replace, PyStr.lower in Hc. rewrite !map_chars_chars in Hc.
  apply list_elem_of_fmap in Hc as (c1 & -> & (c0 & -> & Hc0)%list_elem_of_fmap).
  destruct (lower_char_range c0) as [Hup Hlow]. cbv zeta in *.
  destruct (Ascii.eqb_spec (PyStr.lower_char c0) " ") as [E|E].
  - split; [done|]. split; [done|]. split; [vm_compute; lia|by left].
  - split; [done|]. split; [|split; [done|right; eauto]].
    intros Etab. destruct Hlow as [Hsame|Hrange].
    + rewrite Hsame in Etab. by subst.
    + rewrite Etab in Hrange. vm_compute in Hrange. lia.
Qed.

Lemma lstrip_idem s : PyStr.lstrip (PyStr.lstrip s) = PyStr.lstrip s.
Proof.
  induction s as [|c s IH]; [done|]. simpl.
  destruct (PyStr.is_space c) eqn:E; [done|]. simpl. by rewrite E.
Qed.

Lemma rstrip_cons c s :
  PyStr.rstrip (String c s) =
  match PyStr.rstrip s with
  | EmptyString => if PyStr.is_space c then EmptyString else String c EmptyString
  | t => String c t
  end.
Proof. done. Qed.

Lemma rstrip_idem s : PyStr.rstrip (PyStr.rstrip s) = PyStr.rstrip s.
Proof.
  induction s as [|c s IH]; [done|]. rewrite rstrip_cons.
  destruct (PyStr.rstrip s) as [|c' t] eqn:E.
  - destruct (PyStr.is_space c) eqn:Ec; [done|]. rewrite rstrip_cons. simpl.
    by rewrite Ec.
  - rewrite rstrip_cons, IH. done.
Qed.

Lemma lstrip_rstrip t :
  PyStr.lstrip t = t -> PyStr.lstrip (PyStr.rstrip t) = PyStr.rstrip t.
Proof.
  destruct t as [|c t]; [done|]. simpl.
  destruct (PyStr.is_space c) eqn:E.
  - intros Hl. exfalso.
    assert (forall s, (String.length (PyStr.lstrip s) <= String.length s)%nat) as Hlen.
    { induction s as [|c' s IH]; [done|]. simpl.
      destruct (PyStr.is_space c'); simpl; lia. }
    specialize (Hlen t). rewrite Hl in Hlen. simpl in Hlen. lia.
  - intros _. destruct (PyStr.rstrip t); simpl; by rewrite E.
Qed.

Lemma strip_idem s : PyStr.strip (PyStr.strip s) = PyStr.strip s.
Proof.
  unfold PyStr.strip.
  rewrite (lstrip_rstrip (PyStr.lstrip s)) by apply lstrip_idem.
  apply rstrip_idem.
Qed.

Lemma lstrip_chars s c :
  c ∈ String.list_ascii_of_string (PyStr.lstrip s) ->
  c ∈ String.list_ascii_of_string s.
Proof.
  induction s as [|c' s IH]; [done|]. simpl.
  destruct (PyStr.is_space c'); [|done]. intros H. right. by apply IH.
Qed.

Lemma rstrip_chars s c :
  c ∈ String.list_ascii_of_string (PyStr.rstrip s) ->
  c ∈ String.list_ascii_of_string s.
Proof.
  induction s as [|c' s IH]; [done|]. simpl.
  destruct (PyStr.rstrip s) as [|c'' t].
  - destruct (PyStr.is_space c'); [by intros ?%elem_of_nil|].
    simpl. intros [->|?%elem_of_nil]%elem_of_cons; [by left|done].
  - simpl in *. intros [->|H]%elem_of_cons; [by left|]. right. by apply IH.
Qed.

Lemma fill_line_values cols l : forall obj k v,
  fill_line cols l obj !! k = Some v ->
  obj !! k = Some v \/
  exists col, col ∈ cols /\ v = VStr (PyStr.strip col).
Proof.
  induction l as [|[i c] l IH]; intros obj k v Hk; simpl in *; [by left|].
  apply IH in Hk as [Hk|Hk]; [|by right].
  case_bool_decide as Hlt; [|by left].
  destruct (decide (c = k)) as [->|Hne].
  - rewrite lookup_insert_eq in Hk. injection Hk as <-. right.
    destruct (cols !! i) as [col|] eqn:E.
    + exists col. split; [by eapply list_elem_of_lookup_2|done].
    + apply lookup_ge_None in E. lia.
  - rewrite lookup_insert_ne in Hk by done. by left.
Qed.

(** X18: what the rows of [tsv_to_list] hold.  A key has no space, no
    tab, no line break and no capital letter of the ASCII alphabet; a value
    is a text with no tab and no line break, and stripping it again changes
    nothing. *)
Theorem X18_keys_and_values_of_a_row tsv row key value :
  row ∈ tsv_to_list tsv -> row !! key = Some value ->
  (forall c, c ∈ String.list_ascii_of_string key ->
     c <> " "%char /\ c <> tab /\ c <> newline /\
     ~ (65 <= nat_of_ascii c <= 90)%nat) /\
  exists v, value = VStr v /\ PyStr.strip v = v /\
            (tab ∉ String.list_ascii_of_string v) /\
            (newline ∉ String.list_ascii_of_string v).
Proof.
  unfold tsv_to_list. rewrite parse_lines_filter.
  intros (line & -> & Hline)%list_elem_of_fmap Hkey.
  apply list_elem_of_filter in Hline as [_ Hline].
  assert (line ∈ PyStr.split newline tsv) as Hline'.
  { destruct (PyStr.split newline tsv); [done|]. by right. }
  apply split_pieces in Hline' as [Hnl _].
  assert (hd "" (PyStr.split newline tsv) ∈ PyStr.split newline tsv) as Hhd.
  { destruct (PyStr.split newline tsv) eqn:E; [by apply split_nonempty in E|by left]. }
  apply split_pieces in Hhd as [Hnl0 _].
  unfold line_to_obj in Hkey. split.
  - intros c Hc.
    destruct (fill_line_keys (PyStr.split tab line)
                (header_of (hd "" (PyStr.split newline tsv))) 0 ∅ key)
      as [Hempty|(i & Hi & _)]; [by rewrite Hkey| |].
    { rewrite lookup_empty in Hempty. by destruct Hempty. }
    apply list_elem_of_lookup_2 in Hi.
    destruct (header_of_names _ _ _ Hi Hc) as (Hsp & Htab & Hup & Horigin).
    split; [done|]. split; [done|]. split; [|done].
    intros ->. destruct Horigin as [?|(c0 & Hc0 & E)]; [done|].
    destruct (lower_char_range c0) as [_ [Hsame|Hrange]]; cbv zeta in *.
    + rewrite Hsame in E. by subst.
    + rewrite <- E in Hrange. vm_compute in Hrange. lia.
  - apply fill_line_values in Hkey as [Hkey|(col & Hcol & ->)];
      [by rewrite lookup_empty in Hkey|].
    apply split_pieces in Hcol as [Htab Hsub].
    exists (PyStr.strip col). split; [done|]. split; [apply strip_idem|].
    split.
    + intros Hc. apply Htab. by apply lstrip_chars, rstrip_chars.
    + intros Hc. apply Hnl, Hsub. by apply lstrip_chars, rstrip_chars.
Qed.

End TapFacts.

(** ** The sample run *)

#[local] Existing Instance sample_env.

Example strptime_sample :
  datetime.strptime_bookmark "2024-01-03T10:00:00Z" = Some sample_now.
Proof. vm_compute. reflexivity. Qed.

Example strftime_sample :
  datetime.strftime_bookmark sample_now = "2024-01-03T10:00:00Z".
Proof. vm_compute. reflexivity. Qed.

(** The expression of the format is more lenient than the format reads:
    fields may have one digit and the letters may be in lower case. *)
Example strptime_lenient :
  datetime.strptime_bookmark "2024-1-3t10:0:0z" = Some sample_now.
Proof. vm_compute. reflexivity. Qed.

Example strptime_rejects :
  datetime.strptime_bookmark "2024-01-03" = None /\
  datetime.strptime_bookmark "2024-01-03T10:00:00" = None /\
  datetime.strptime_bookmark "2023-02-29T00:00:00Z" = None /\
  datetime.strptime_bookmark "2024-01-03T10:00:60Z" = None /\
  datetime.strptime_bookmark "2024-01-03T10:00:00Z " = None.
Proof. vm_compute. repeat split. Qed.

(** C1 (where the code departs from the claim): with [start_date]
    2024-01-01T00:00:00Z and the extraction time 2024-01-03T10:00:00Z the
    run returns normally and requests the days 2024-01-01 and 2024-01-02, in
    that order, but the bookmark it leaves is 2024-01-02T00:00:00Z, the last
    day requested, not 2024-01-03T00:00:00Z: [write_bookmark] comes before
    [iterator += delta].  A second run from that state requests 2024-01-02
    again. *)
Theorem C1_bookmark_names_last_day_requested :
  let run1 := sample_run "2024-01-01T00:00:00Z" ∅ in
  let run2 := sample_run "2024-01-01T00:00:00Z" (state run1.2) in
  run1.1 = inr tt /\
  fetched (log run1.2) = ["2024-01-01"; "2024-01-02"] /\
  bookmarks_written (log run1.2)
    = ["2024-01-01T00:00:00Z"; "2024-01-02T00:00:00Z"] /\
  singer_get_bookmark (state run1.2) "summary_sales_report" "start_date"
    = Some "2024-01-02T00:00:00Z" /\
  singer_get_bookmark (state run1.2) "summary_sales_report" "start_date"
    <> Some "2024-01-03T00:00:00Z" /\
  fetched (log run2.2) = ["2024-01-02"].
Proof. vm_compute. repeat split; discriminate. Qed.

(** C2 as the specification words it fails: started from the bookmark
    2024-01-01T05:30:00Z, the run writes that very value as a bookmark, and
    its time of day is 05:30:00. *)
Lemma C2_counterexample :
  ~ (forall v,
       v ∈ bookmarks_written (log (sample_run "2024-01-01T05:30:00Z" ∅).2) ->
       whole_day_text v).
Proof.
  intros H.
  destruct (H "2024-01-01T05:30:00Z") as (d & Hd & Hmid).
  - assert (bookmarks_written (log (sample_run "2024-01-01T05:30:00Z" ∅).2)
            = ["2024-01-01T05:30:00Z"; "2024-01-02T05:30:00Z"]) as ->
      by (vm_compute; reflexivity).
    by left.
  - assert (datetime.strptime_bookmark "2024-01-01T05:30:00Z"
            = Some (datetime.mk 738886 5 30 0 0)) as Hp by (vm_compute; reflexivity).
    rewrite Hp in Hd. injection Hd as <-. destruct Hmid as [Hh _]. discriminate.
Qed.

Lemma C2_witness :
  exists ds : list datetime.t,
    bookmarks_written (log (sample_run "2024-01-01T00:00:00Z" ∅).2)
    = map datetime.strftime_bookmark ds.
Proof.
  destruct (C2_bookmarks_step_by_days
              (sample_config "2024-01-01T00:00:00Z") ∅ [sample_entry] sample_entry
              (datetime.mk 738886 0 0 0 0)) as (ds & H & _).
  - vm_compute. reflexivity.
  - vm_compute. reflexivity.
  - exists ds. exact H.
Defined.

Lemma C3_witness :
  (exists d recs before,
     "2024-01-01T00:00:00Z" = datetime.strftime_bookmark d /\
     length recs = 1%nat /\
     take 3 (log (sample_run "2024-01-01T00:00:00Z" ∅).2) =
       before ++ request (sample_config "2024-01-01T00:00:00Z") d ::
       map (fun rec => WriteRecord "summary_sales_report" rec sample_now) recs) /\
  (exists i : nat,
     "2024-01-02" = datetime.strftime_day
                      (datetime.plus_days (datetime.mk 738886 0 0 0 0) (Z.of_nat i)) /\
     datetime.leb (datetime.mk 738886 0 0 0 0)
       (datetime.plus_days (datetime.mk 738886 0 0 0 0) (Z.of_nat i)) = true) /\
  "2023-12-31" ∉ fetched (log (sample_run "2024-01-01T00:00:00Z" ∅).2).
Proof.
  destruct (C3_bookmark_follows_records
              (sample_config "2024-01-01T00:00:00Z") ∅ [sample_entry])
    as (Hmark & _ & _ & H).
  split.
  - destruct (Hmark (take 3 (log (sample_run "2024-01-01T00:00:00Z" ∅).2))
                "summary_sales_report" "start_date" "2024-01-01T00:00:00Z"
                (drop 4 (log (sample_run "2024-01-01T00:00:00Z" ∅).2)))
      as (entry & d & rep_tsv & recs & before & st' & after &
          _ & _ & _ & Hv & Hapi & Hlen & _ & Hpre & _).
    + vm_compute. reflexivity.
    + exists d, recs, before. split; [exact Hv|]. split; [|exact Hpre].
      injection Hapi as <-. exact Hlen.
  - destruct (H (datetime.mk 738886 0 0 0 0)) as (Hlater & _ & Hbefore).
    + vm_compute. reflexivity.
    + split.
      * apply Hlater. vm_compute. right. left.
      * apply Hbefore. vm_compute. reflexivity.
Defined.

(** C4 as the specification words it fails: with the header
    [Units<tab>Units] and the row [1<tab>2], header position 0 exists in the
    row with the value 1, but the mapping binds [units] to 2, the value of
    the last position of that name. *)
Lemma C4_counterexample :
  ~ (forall (tsv row : string) (i : nat) (name : string),
       let lines := PyStr.split newline tsv in
       let header := header_of (hd "" lines) in
       row ∈ filter (fun l => String.length l ≠ 0%nat) (tl lines) ->
       header !! i = Some name ->
       (i < length (PyStr.split tab row))%nat ->
       line_to_obj header row !! name
       = (fun v => VStr (PyStr.strip v)) <$> PyStr.split tab row !! i).
Proof.
  intros H.
  specialize (H ("Units" +:+ String tab ("Units" +:+ String newline
                   ("1" +:+ String tab ("2" +:+ String newline ""))))
                ("1" +:+ String tab "2") 0%nat "units").
  assert (Some (VStr "2") = Some (VStr "1")) as E; [|discriminate].
  apply H.
  - vm_compute. left.
  - vm_compute. reflexivity.
  - vm_compute. lia.
Qed.

Lemma C4_witness :
  exists col v,
    PyStr.split tab ("2024-01-01" +:+ String tab ("2024-01-01" +:+ String tab " 5 "))
      !! 2%nat = Some col /\
    trimmed col v /\
    line_to_obj (header_of (hd "" (PyStr.split newline sample_tsv)))
      ("2024-01-01" +:+ String tab ("2024-01-01" +:+ String tab " 5 ")) !! "units"
    = Some (VStr v).
Proof.
  destruct (C4_tsv_to_list_rows
              ("Begin Date" +:+ String tab ("End Date" +:+ String tab ("Units" +:+
               String newline ("2024-01-01" +:+ String tab ("2024-01-01" +:+
               String tab " 5 "))))))
    as (_ & _ & _ & _ & H).
  destruct (H ("2024-01-01" +:+ String tab ("2024-01-01" +:+ String tab " 5 ")))
    as (_ & _ & _ & Hbind & _).
  - vm_compute. left.
  - apply (Hbind 2%nat "units").
    + vm_compute. reflexivity.
    + vm_compute. lia.
    + vm_compute. intros j Hj. lia.
Defined.

Lemma C5_witness :
  datetime.strptime_bookmark (bookmark_text (sample_config "2024-01-01") ∅) = None /\
  fetched (log (sample_run "2024-01-01" ∅).2) = [] /\
  states_written (log (sample_run "2024-01-01" ∅).2) = [].
Proof.
  assert (datetime.strptime_bookmark (bookmark_text (sample_config "2024-01-01") ∅)
          = None) as Hbad by (vm_compute; reflexivity).
  split; [exact Hbad|].
  destruct (C5_malformed_bookmark_aborts
              (sample_config "2024-01-01") ∅ [sample_entry] Hbad)
    as (_ & _ & _ & _ & Hf & _ & _ & Hs & _).
  split; [exact Hf|exact Hs].
Defined.



Lemma C7_witness :
  reports (log (sample_run "2024-01-01T00:00:00Z" ∅).2) !! 1%nat
    = Some ("2024-01-02", [sample_record]) /\
  sample_record !! "line_id" = Some (VInt 1).
Proof.
  assert (reports (log (sample_run "2024-01-01T00:00:00Z" ∅).2) !! 1%nat
          = Some ("2024-01-02", [sample_record])) as E by (vm_compute; reflexivity).
  split; [exact E|].
  destruct (C7_line_id_per_day
              (sample_config "2024-01-01T00:00:00Z") ∅ [sample_entry] sample_entry)
    as (H & _).
  - vm_compute. reflexivity.
  - destruct (H "2024-01-02" [sample_record]) as (Hrows & _).
    + eapply list_elem_of_lookup_2. exact E.
    + destruct (Hrows 0%nat sample_record eq_refl)
        as (rep_tsv & line & _ & _ & _ & Hkeep).
      apply Hkeep. intros data r [= <-]. reflexivity.
Defined.

Lemma C8_witness :
  get_bookmark "summary_sales_report"
    (initial_context (sample_config "2024-01-01T00:00:00Z")
       {[ "summary_sales_report" := {[ "start_date" := "2024-01-02T00:00:00Z" ]} ]}
       [sample_entry])
  = (inr "2024-01-02T00:00:00Z",
     initial_context (sample_config "2024-01-01T00:00:00Z")
       {[ "summary_sales_report" := {[ "start_date" := "2024-01-02T00:00:00Z" ]} ]}
       [sample_entry]) /\
  head (fetched (log (sample_run "2024-01-01T00:00:00Z" ∅).2))
  = Some "2024-01-01".
Proof.
  split.
  - apply (proj1 (C8_get_bookmark_stored_or_configured "summary_sales_report" _)
             {[ "start_date" := "2024-01-02T00:00:00Z" ]}).
    + vm_compute. reflexivity.
    + vm_compute. reflexivity.
  - destruct (C8_get_bookmark_stored_or_configured "summary_sales_report"
                (initial_context (sample_config "2024-01-01T00:00:00Z") ∅
                   [sample_entry])) as (_ & _ & H).
    destruct (H (sample_config "2024-01-01T00:00:00Z") ∅ [sample_entry] sample_entry
                (datetime.mk 738886 0 0 0 0)) as (_ & Hhead).
    + vm_compute. reflexivity.
    + vm_compute. reflexivity.
    + vm_compute. reflexivity.
    + apply Hhead. exists (datetime.mk 738887 0 0 0 0).
      split; vm_compute; reflexivity.
Defined.

Lemma C9_witness :
  new_counts (sample_run "2024-01-01T00:00:00Z" ∅).2 !! "summary_sales_report"
  = Some (Z.of_nat (length (records_written
                              (log (sample_run "2024-01-01T00:00:00Z" ∅).2)))).
Proof.
  apply (C9_counters (sample_config "2024-01-01T00:00:00Z") ∅ [sample_entry]).
  vm_compute. left.
Defined.

Lemma X1_witness :
  get_schema "summary_sales_report"
    (initial_context (sample_config "2024-01-01T00:00:00Z") ∅ [sample_entry])
  = Some tt.
Proof.
  destruct (X1_get_schema_first_get_catalog_entry_last
              (initial_context (sample_config "2024-01-01T00:00:00Z") ∅ [sample_entry])
              "summary_sales_report" eq_refl) as (_ & _ & H).
  destruct (H sample_entry) as (e0 & _ & -> & Heq).
  - vm_compute. reflexivity.
  - rewrite Heq; [reflexivity|]. compute_done.
Defined.

Lemma X4_witness :
  get_schema "summary_sales_report"
    (initial_context (sample_config "2024-01-01T00:00:00Z") ∅ [sample_entry])
  = Some tt.
Proof.
  apply (X4_discovered_catalog_lookup sample_listing [sample_entry]
           (sample_config "2024-01-01T00:00:00Z") ∅ "summary_sales_report").
  vm_compute. reflexivity.
Defined.

Lemma X6_witness :
  main_args {| args_discover := true; args_catalog := None;
               args_config := sample_config "2024-01-01T00:00:00Z";
               args_state := ∅ |} sample_listing
  = Printed [sample_entry].
Proof.
  apply (X6_main_with_discovered_catalog _ sample_listing [sample_entry]).
  - vm_compute. reflexivity.
  - reflexivity.
Defined.

Lemma X8_witness :
  parse_lines ["begin_date"; "units"] [String "013" ""]
  = [ {[ "begin_date" := VStr "" ]} ].
Proof.
  apply (X8_white_line_is_a_row ["begin_date"; "units"] (String "013" "") []).
  - discriminate.
  - intros c Hc. apply list_elem_of_singleton in Hc as ->. split; [reflexivity|discriminate].
Defined.

Lemma X9_witness :
  line_to_obj ["units"; "units"] ("1" +:+ String tab "2") !! "units"
  = Some (VStr "2").
Proof.
  apply (X9_repeated_column_name_last_wins ["units"; "units"]
           ("1" +:+ String tab "2") 1 "units").
  - reflexivity.
  - vm_compute. lia.
  - vm_compute. intros j Hj. lia.
Defined.

Lemma X10_witness :
  exists m : nat,
    fetched (log (sample_run "2024-01-01T00:00:00Z" ∅).2)
    = map datetime.strftime_day (days (datetime.mk 738886 0 0 0 0) m).
Proof.
  destruct (X10_requests_are_consecutive_due_days
              (sample_config "2024-01-01T00:00:00Z") ∅ [sample_entry]
              (datetime.mk 738886 0 0 0 0)) as (m & H & _).
  - vm_compute. reflexivity.
  - exists m. exact H.
Defined.

Lemma X11_witness :
  exists n : nat,
    fetched (log (sample_run "2024-01-01T00:00:00Z" ∅).2)
    = map datetime.strftime_day (days (datetime.mk 738886 0 0 0 0) n).
Proof.
  destruct (X11_normal_run_covers_the_due_days
              (sample_config "2024-01-01T00:00:00Z") ∅ [sample_entry] sample_entry
              (datetime.mk 738886 0 0 0 0)) as (n & _ & _ & H & _).
  - vm_compute. reflexivity.
  - vm_compute. reflexivity.
  - vm_compute. reflexivity.
  - exists n. exact H.
Defined.


Lemma X13_witness :
  exists d,
    "2024-01-02T00:00:00Z" = datetime.strftime_bookmark d /\
    singer_get_bookmark (state (sample_run "2024-01-01T00:00:00Z" ∅).2)
      "summary_sales_report" "start_date" = Some "2024-01-02T00:00:00Z".
Proof.
  destruct (X13_resumed_run_repeats_the_bookmarked_day
              (sample_config "2024-01-01T00:00:00Z") ∅ [sample_entry] sample_entry
              (datetime.mk 738886 0 0 0 0) "2024-01-02T00:00:00Z")
    as (d & Hv & Hst & _).
  - vm_compute. reflexivity.
  - vm_compute. reflexivity.
  - vm_compute. reflexivity.
  - exists d. split; [exact Hv|exact Hst].
Defined.

Lemma X14_witness :
  singer_get_bookmark
    (state (sample_run "2024-01-01T00:00:00Z"
              {[ "other_report" := {[ "start_date" := "2020-05-05T00:00:00Z" ]} ]}).2)
    "other_report" "start_date"
  = Some "2020-05-05T00:00:00Z".
Proof.
  destruct (X14_other_bookmarks_are_kept
              (sample_config "2024-01-01T00:00:00Z")
              {[ "other_report" := {[ "start_date" := "2020-05-05T00:00:00Z" ]} ]}
              [sample_entry] "other_report" "start_date") as [H _].
  - discriminate.
  - unfold sample_run. rewrite H. vm_compute. reflexivity.
Defined.


Lemma X18_witness :
  exists v, VStr "5" = VStr v /\ PyStr.strip v = v.
Proof.
  destruct (X18_keys_and_values_of_a_row sample_tsv
              {[ "begin_date" := VStr "2024-01-01"; "end_date" := VStr "2024-01-01";
                 "units" := VStr "5" ]} "units" (VStr "5"))
    as (_ & v & Hv & Hstrip & _).
  - vm_compute. left.
  - vm_compute. reflexivity.
  - exists v. split; [exact Hv|exact Hstrip].
Defined.
